(** * Direct messaging of the FundLink app

    A shallow embedding of the messaging subsystem:

    - the [messages] table with its CHECK constraints and row-level-security
      policies (supabase/migrations/20251113154500_initialize_fundlink_schema.sql,
      supabase/migrations/20251126120000_enhance_messages_with_media.sql and the
      security-audit script);
    - the chat screen [ChatScreen] (app/startup/[id].tsx): [fetchMessages],
      [markAsRead], [deleteMessage], [isRelevantMessage], the three
      [postgres_changes] callbacks of [subscribeToMessages],
      [uploadAttachment], [sendMessage] and [canSend];
    - the inbox [MessagesScreen] (app/(tabs)/_layout.tsx): [getMessagePreview]
      and [fetchConversations].

    React state is threaded explicitly: a [Session] record holds the
    [useState] cells of the chat screen, a [World] record holds what lives
    behind the network (table rows, bucket objects) together with a trace of
    the calls made and the alerts shown. *)

From Stdlib Require Import List String Ascii ZArith Bool Arith Lia.
From Stdlib Require Import Permutation Sorted.
Import ListNotations.
Local Open Scope string_scope.
Local Open Scope list_scope.

(* ================================================================== *)
(** * Definitions *)
(* ================================================================== *)

(** ** Rows of the [messages] table

    Columns as created by the schema migrations: [id uuid primary key],
    [sender_id], [recipient_id], [content text not null], [read boolean],
    [created_at timestamptz], [attachment_url text],
    [attachment_type text check (... in ('image','video','document'))],
    [attachment_metadata jsonb].  A character of a [text] value is an
    [ascii]; a timestamp is its number of microseconds. *)

Inductive MessageAttachmentType : Type := image | video | document.

Record AttachmentMetadata : Type := {
  file_name : string;
  file_size : N;
  mime_type : option string
}.

Record Message : Type := {
  id : string;
  sender_id : string;
  recipient_id : string;
  content : string;
  read : bool;
  created_at : Z;
  attachment_url : option string;
  attachment_type : option MessageAttachmentType;
  attachment_metadata : option AttachmentMetadata
}.

(** [{ ...msg, content: c }] *)
Definition with_content (c : string) (m : Message) : Message :=
  {| id := id m; sender_id := sender_id m; recipient_id := recipient_id m;
     content := c; read := read m; created_at := created_at m;
     attachment_url := attachment_url m;
     attachment_type := attachment_type m;
     attachment_metadata := attachment_metadata m |}.

(** [{ ...msg, read: b }] *)
Definition with_read (b : bool) (m : Message) : Message :=
  {| id := id m; sender_id := sender_id m; recipient_id := recipient_id m;
     content := content m; read := b; created_at := created_at m;
     attachment_url := attachment_url m;
     attachment_type := attachment_type m;
     attachment_metadata := attachment_metadata m |}.

Definition isSome {A : Type} (o : option A) : bool :=
  match o with Some _ => true | None => false end.

(** JavaScript truthiness of a string: every string but the empty one. *)
Definition truthy (s : string) : bool := negb (s =? "")%string.

(** ** JavaScript [String.prototype.trim] and [/\s+/g]

    White space within the first 256 code points: TAB, LF, VT, FF, CR,
    SPACE and NBSP. *)

Definition is_space (c : ascii) : bool :=
  let n := nat_of_ascii c in
  ((9 <=? n)%nat && (n <=? 13)%nat) || (n =? 32)%nat || (n =? 160)%nat.

Fixpoint trimStart (s : string) : string :=
  match s with
  | EmptyString => EmptyString
  | String c r => if is_space c then trimStart r else s
  end.

Fixpoint trimEnd (s : string) : string :=
  match s with
  | EmptyString => EmptyString
  | String c r =>
      let r' := trimEnd r in
      if is_space c && negb (truthy r') then EmptyString else String c r'
  end.

Definition trim (s : string) : string := trimEnd (trimStart s).

(** [s.replace(/\s+/g, '-')]: every maximal run of white space becomes one
    hyphen.  [in_run] tells that the previous character was white space. *)
Fixpoint replace_space_runs (in_run : bool) (s : string) : string :=
  match s with
  | EmptyString => EmptyString
  | String c r =>
      if is_space c
      then if in_run then replace_space_runs true r
           else String "-"%char (replace_space_runs true r)
      else String c (replace_space_runs false r)
  end.

(** ** The database: constraints, policies and statements *)

Module Db.

Inductive error : Type :=
| rls_violation      (* new row violates row-level security policy *)
| check_violation    (* new row violates a check constraint *)
| unique_violation.  (* duplicate key value for the primary key *)

Inductive result (A : Type) : Type :=
| Ok (a : A)
| Err (e : error).
Arguments Ok {A} a.
Arguments Err {A} e.

Definition Table : Type := list Message.

(** [messages_content_check]:
    [(char_length(content) between 1 and 1000)
     or (attachment_url is not null and char_length(content) <= 1000)] *)
Definition messages_content_check (m : Message) : bool :=
  ((1 <=? String.length (content m))%nat && (String.length (content m) <=? 1000)%nat)
  || (isSome (attachment_url m) && (String.length (content m) <=? 1000)%nat).

(** [messages_content_length_check] of the security audit:
    [(content is null or char_length(content) <= 1000)
     or (attachment_url is not null)]; [content] is [not null]. *)
Definition messages_content_length_check (m : Message) : bool :=
  (String.length (content m) <=? 1000)%nat || isSome (attachment_url m).

(** Both constraints are on the table; the constraint on
    [attachment_type] is carried by the type of the field. *)
Definition checks (m : Message) : bool :=
  messages_content_check m && messages_content_length_check m.

(** Policies, each by its name in the migrations; [uid] is [auth.uid()]. *)
Definition participants_can_read (uid : string) (m : Message) : bool :=
  (uid =? sender_id m)%string || (uid =? recipient_id m)%string.

Definition senders_can_create (uid : string) (m : Message) : bool :=
  (uid =? sender_id m)%string.

Definition recipients_can_mark_read (uid : string) (m : Message) : bool :=
  (uid =? recipient_id m)%string.

Definition senders_can_update (uid : string) (m : Message) : bool :=
  (uid =? sender_id m)%string.

Definition senders_can_delete (uid : string) (m : Message) : bool :=
  (uid =? sender_id m)%string.

(** The two [for update] policies are permissive: a row passes when one
    of them does.  Each has the same expression as USING and WITH CHECK. *)
Definition update_policy (uid : string) (m : Message) : bool :=
  recipients_can_mark_read uid m || senders_can_update uid m.

(** The SET clause of the two updates the client issues. *)
Inductive Assignment : Type :=
| set_content (c : string)
| set_read (b : bool).

Definition assign (a : Assignment) (m : Message) : Message :=
  match a with
  | set_content c => with_content c m
  | set_read b => with_read b m
  end.

(** [insert into messages ...]: the WITH CHECK policy, then the CHECK
    constraints, then the primary key.  The statement is rejected as a
    whole on the first violation. *)
Definition insert (uid : string) (row : Message) (tbl : Table) : result Table :=
  if negb (senders_can_create uid row) then Err rls_violation
  else if negb (checks row) then Err check_violation
  else if existsb (fun m => (id m =? id row)%string) tbl then Err unique_violation
  else Ok (tbl ++ [row]).

(** [update messages set ... where filter]: rows that fail the USING
    policies are skipped silently; a new row that fails WITH CHECK or a
    CHECK constraint aborts the statement. *)
Definition targets (uid : string) (filter : Message -> bool) (m : Message) : bool :=
  filter m && update_policy uid m.

Definition update (uid : string) (filter : Message -> bool) (a : Assignment)
    (tbl : Table) : result Table :=
  if negb (forallb (fun m => negb (targets uid filter m)
                             || update_policy uid (assign a m)) tbl)
  then Err rls_violation
  else if negb (forallb (fun m => negb (targets uid filter m)
                                  || checks (assign a m)) tbl)
  then Err check_violation
  else Ok (map (fun m => if targets uid filter m then assign a m else m) tbl).

(** [delete from messages where filter]: rows that fail the USING policy
    are skipped silently. *)
Definition delete (uid : string) (filter : Message -> bool) (tbl : Table)
    : result Table :=
  Ok (List.filter (fun m => negb (filter m && senders_can_delete uid m)) tbl).

(** [order by created_at]: no second key is given.  Rows with equal
    [created_at] keep the order in which the table holds them. *)
Inductive Order : Type := ascending | descending.

Definition precedes (o : Order) (a b : Message) : bool :=
  match o with
  | ascending => (created_at a <=? created_at b)%Z
  | descending => (created_at b <=? created_at a)%Z
  end.

Fixpoint place (o : Order) (x : Message) (l : list Message) : list Message :=
  match l with
  | [] => [x]
  | y :: r => if precedes o x y then x :: y :: r else y :: place o x r
  end.

Definition order_by (o : Order) (l : list Message) : list Message :=
  fold_right (place o) [] l.

(** [select * from messages where filter order by created_at]: only rows
    that pass the select policy are seen. *)
Definition select (uid : string) (filter : Message -> bool) (o : Order)
    (tbl : Table) : list Message :=
  order_by o (List.filter (fun m => participants_can_read uid m && filter m) tbl).

(** One statement of some authenticated user. *)
Inductive step : Table -> Table -> Prop :=
| step_insert uid row tbl tbl' :
    insert uid row tbl = Ok tbl' -> step tbl tbl'
| step_update uid filter a tbl tbl' :
    update uid filter a tbl = Ok tbl' -> step tbl tbl'
| step_delete uid filter tbl tbl' :
    delete uid filter tbl = Ok tbl' -> step tbl tbl'.

(** Tables that statements can build from the empty table. *)
Inductive reachable : Table -> Prop :=
| reachable_empty : reachable []
| reachable_step tbl tbl' : reachable tbl -> step tbl tbl' -> reachable tbl'.

End Db.

(** ** The [chat-media] bucket

    Object names are [`${user.id}/${Date.now()}-${safeFileName}`]; the three
    parts are kept apart.  Any authenticated user may insert an object
    (policy "Authenticated can upload chat media"); with [upsert: false] an
    existing name is refused. *)

Module Storage.

Record FilePath : Type := {
  owner : string;
  stamp : Z;
  safeFileName : string
}.

Definition path_eqb (p q : FilePath) : bool :=
  (owner p =? owner q)%string && (stamp p =? stamp q)%Z
  && (safeFileName p =? safeFileName q)%string.

Definition Bucket : Type := list FilePath.

(** [accepted] is whether the request reached the service and was taken. *)
Definition upload (accepted : bool) (p : FilePath) (b : Bucket) : option Bucket :=
  if negb accepted then None
  else if existsb (path_eqb p) b then None
  else Some (b ++ [p]).

End Storage.

(** ** The chat screen, app/startup/[id].tsx *)

Module PendingAttachment.

Record t : Type := {
  uri : string;
  type : MessageAttachmentType;
  fileName : string;
  mimeType : option string;
  size : option N
}.

End PendingAttachment.

Module Chat.

(** What [uploadAttachment] returns on success. *)
Record AttachmentPayload : Type := {
  payload_url : string;
  payload_type : MessageAttachmentType;
  payload_metadata : AttachmentMetadata
}.

(** The [useState] cells of [ChatScreen], with the signed-in user (by its
    id) and the route parameter [id] of the counterpart. *)
Record Session : Type := {
  user : option string;
  route_id : option string;
  messages : list Message;
  newMessage : string;
  sending : bool;
  pendingAttachment : option PendingAttachment.t;
  uploadingAttachment : bool;
  editingMessage : option Message
}.

Definition setMessages (f : list Message -> list Message) (s : Session) : Session :=
  {| user := user s; route_id := route_id s; messages := f (messages s);
     newMessage := newMessage s; sending := sending s;
     pendingAttachment := pendingAttachment s;
     uploadingAttachment := uploadingAttachment s;
     editingMessage := editingMessage s |}.

Definition setNewMessage (v : string) (s : Session) : Session :=
  {| user := user s; route_id := route_id s; messages := messages s;
     newMessage := v; sending := sending s;
     pendingAttachment := pendingAttachment s;
     uploadingAttachment := uploadingAttachment s;
     editingMessage := editingMessage s |}.

Definition setSending (v : bool) (s : Session) : Session :=
  {| user := user s; route_id := route_id s; messages := messages s;
     newMessage := newMessage s; sending := v;
     pendingAttachment := pendingAttachment s;
     uploadingAttachment := uploadingAttachment s;
     editingMessage := editingMessage s |}.

Definition setPendingAttachment (v : option PendingAttachment.t) (s : Session) : Session :=
  {| user := user s; route_id := route_id s; messages := messages s;
     newMessage := newMessage s; sending := sending s;
     pendingAttachment := v;
     uploadingAttachment := uploadingAttachment s;
     editingMessage := editingMessage s |}.

Definition setUploadingAttachment (v : bool) (s : Session) : Session :=
  {| user := user s; route_id := route_id s; messages := messages s;
     newMessage := newMessage s; sending := sending s;
     pendingAttachment := pendingAttachment s;
     uploadingAttachment := v;
     editingMessage := editingMessage s |}.

Definition setEditingMessage (v : option Message) (s : Session) : Session :=
  {| user := user s; route_id := route_id s; messages := messages s;
     newMessage := newMessage s; sending := sending s;
     pendingAttachment := pendingAttachment s;
     uploadingAttachment := uploadingAttachment s;
     editingMessage := v |}.

(** Calls that leave the device, with whether they came back without an
    error, and the alerts shown to the user, in the order they happen. *)
Inductive Event : Type :=
| storage_upload (p : Storage.FilePath) (ok : bool)
| messages_insert (row : Message) (ok : bool)
| messages_update (uid : string) (a : Db.Assignment) (ok : bool)
| messages_delete (uid : string) (target : string) (ok : bool)
| alert (title : string).

Record World : Type := {
  table : Db.Table;
  bucket : Storage.Bucket;
  trace : list Event
}.

Definition setTable (t : Db.Table) (w : World) : World :=
  {| table := t; bucket := bucket w; trace := trace w |}.

Definition setBucket (b : Storage.Bucket) (w : World) : World :=
  {| table := table w; bucket := b; trace := trace w |}.

Definition emit (e : Event) (w : World) : World :=
  {| table := table w; bucket := bucket w; trace := trace w ++ [e] |}.

(** What the outside answers during one [sendMessage]: the clock of the
    device, the bytes read from the local file (their number; [None] when
    [fetch] throws), whether the storage service takes the object, the
    public URL it builds for a name, and the [id] and [created_at] the
    database gives to a new row. *)
Record Env : Type := {
  date_now : Z;
  fetched : option N;
  upload_accepted : bool;
  getPublicUrl : Storage.FilePath -> option string;
  gen_random_uuid : string;
  now : Z
}.

(** [!user || !id] is false: both ids at hand. *)
Definition ids (s : Session) : option (string * string) :=
  match user s, route_id s with
  | Some uid, Some rid => if truthy rid then Some (uid, rid) else None
  | _, _ => None
  end.

(** The [.or(and(...),and(...))] filter of [fetchMessages]. *)
Definition between (a b : string) (m : Message) : bool :=
  ((sender_id m =? a)%string && (recipient_id m =? b)%string)
  || ((sender_id m =? b)%string && (recipient_id m =? a)%string).

Definition fetchMessages (s : Session) (w : World) : Session :=
  match ids s with
  | None => s
  | Some (uid, rid) =>
      let data := Db.select uid (between uid rid) Db.ascending (table w) in
      setMessages (fun _ => data) s
  end.

(** The error of the update, if any, is not looked at. *)
Definition markAsRead (s : Session) (w : World) : World :=
  match ids s with
  | None => w
  | Some (uid, rid) =>
      let filter m := (sender_id m =? rid)%string
                      && (recipient_id m =? uid)%string
                      && Bool.eqb (read m) false in
      match Db.update uid filter (Db.set_read true) (table w) with
      | Db.Ok t => emit (messages_update uid (Db.set_read true) true) (setTable t w)
      | Db.Err _ => emit (messages_update uid (Db.set_read true) false) w
      end
  end.

Definition removePendingAttachment (s : Session) : Session :=
  setPendingAttachment None s.

Definition startEditingMessage (message : Message) (s : Session) : Session :=
  setPendingAttachment None
    (setNewMessage (content message) (setEditingMessage (Some message) s)).

Definition cancelEditing (s : Session) : Session :=
  setNewMessage "" (setEditingMessage None s).

Definition resetComposer (s : Session) : Session :=
  setEditingMessage None (setPendingAttachment None (setNewMessage "" s)).

(** [editingMessage?.id === message.id] *)
Definition editing_this (s : Session) (message : Message) : bool :=
  match editingMessage s with
  | Some e => (id e =? id message)%string
  | None => false
  end.

Definition deleteMessage (message : Message) (s : Session) (w : World)
    : Session * World :=
  match user s with
  | None => (s, w)
  | Some uid =>
      let filter m := (id m =? id message)%string && (sender_id m =? uid)%string in
      match Db.delete uid filter (table w) with
      | Db.Ok t =>
          let s1 := setMessages
                      (List.filter (fun msg => negb (id msg =? id message)%string)) s in
          let s2 := if editing_this s message then resetComposer s1 else s1 in
          (s2, emit (messages_delete uid (id message) true) (setTable t w))
      | Db.Err _ =>
          (s, emit (alert "Delete failed")
                (emit (messages_delete uid (id message) false) w))
      end
  end.

(** The long-press menu with Edit and Delete is offered: the guard
    [if (message.sender_id !== user?.id) return]. *)
Definition handleMessageLongPress (message : Message) (s : Session) : bool :=
  match user s with
  | Some uid => (sender_id message =? uid)%string
  | None => false
  end.

Definition isRelevantMessage (s : Session) (message : Message) : bool :=
  match ids s with
  | None => false
  | Some (uid, rid) =>
      ((sender_id message =? uid)%string && (recipient_id message =? rid)%string)
      || ((sender_id message =? rid)%string && (recipient_id message =? uid)%string)
  end.

(** [payload.old] of a delete event.  The feed sends the columns of the
    replica identity of the table: the primary key alone, unless the table
    is set to send old rows in full, which no migration does.  The handler
    reads [id], [sender_id] and [recipient_id]; a column that was not sent
    is [undefined]. *)
Record OldRecord : Type := {
  old_id : option string;
  old_sender_id : option string;
  old_recipient_id : option string
}.

(** The old row sent in full, and its key alone. *)
Definition old_row (m : Message) : OldRecord :=
  {| old_id := Some (id m); old_sender_id := Some (sender_id m);
     old_recipient_id := Some (recipient_id m) |}.


(** [column === value]: an [undefined] column equals no id. *)
Definition column_is (column : option string) (value : string) : bool :=
  match column with
  | Some c => (c =? value)%string
  | None => false
  end.

(** [isRelevantMessage(payload.old as Message)] *)
Definition isRelevantOld (s : Session) (deletedMsg : OldRecord) : bool :=
  match ids s with
  | None => false
  | Some (uid, rid) =>
      (column_is (old_sender_id deletedMsg) uid
       && column_is (old_recipient_id deletedMsg) rid)
      || (column_is (old_sender_id deletedMsg) rid
          && column_is (old_recipient_id deletedMsg) uid)
  end.

(** The change feed: the three [postgres_changes] callbacks registered by
    [subscribeToMessages].  [payload.new] carries every column of the row;
    [payload.old] may be missing. *)
Inductive Payload : Type :=
| INSERT (new : Message)
| UPDATE (new : Message)
| DELETE (old : option OldRecord).

(** [{ ...msg, ...updatedMsg }]: every column of [msg] is overwritten. *)
Definition spread (msg updatedMsg : Message) : Message := updatedMsg.

Definition postgres_changes (payload : Payload) (s : Session) (w : World)
    : Session * World :=
  match payload with
  | INSERT newMsg =>
      if isRelevantMessage s newMsg then
        let s1 := setMessages (fun prev => prev ++ [newMsg]) s in
        let w1 := match route_id s with
                  | Some rid => if (sender_id newMsg =? rid)%string
                                then markAsRead s w else w
                  | None => w
                  end in
        (s1, w1)
      else (s, w)
  | UPDATE updatedMsg =>
      if isRelevantMessage s updatedMsg then
        (setMessages
           (map (fun msg => if (id msg =? id updatedMsg)%string
                            then spread msg updatedMsg else msg)) s, w)
      else (s, w)
  | DELETE (Some deletedMsg) =>
      match old_id deletedMsg with
      | Some deletedId =>
          if truthy deletedId && isRelevantOld s deletedMsg then
            (setMessages
               (List.filter (fun msg => negb (id msg =? deletedId)%string)) s, w)
          else (s, w)
      | None => (s, w)
      end
  | DELETE None => (s, w)
  end.

(** [uploadAttachment]: [None] stands for the [null] it returns after the
    "Upload failed" alert.  [setUploadingAttachment(true)] at entry is undone
    by the [finally] block on every path. *)
Definition uploadAttachment (env : Env) (attachment : PendingAttachment.t)
    (s : Session) (w : World) : option AttachmentPayload * Session * World :=
  match user s with
  | None => (None, s, w)
  | Some uid =>
      let s1 := setUploadingAttachment false (setUploadingAttachment true s) in
      match fetched env with
      | None => (None, s1, emit (alert "Upload failed") w)
      | Some byteLength =>
          let safe := replace_space_runs false (PendingAttachment.fileName attachment) in
          let filePath := {| Storage.owner := uid;
                             Storage.stamp := date_now env;
                             Storage.safeFileName := safe |} in
          match Storage.upload (upload_accepted env) filePath (bucket w) with
          | None =>
              (None, s1,
               emit (alert "Upload failed") (emit (storage_upload filePath false) w))
          | Some b =>
              let w1 := emit (storage_upload filePath true) (setBucket b w) in
              match getPublicUrl env filePath with
              | Some publicUrl =>
                  if truthy publicUrl then
                    (Some {| payload_url := publicUrl;
                             payload_type := PendingAttachment.type attachment;
                             payload_metadata :=
                               {| file_name := PendingAttachment.fileName attachment;
                                  file_size :=
                                    match PendingAttachment.size attachment with
                                    | Some n => n
                                    | None => byteLength
                                    end;
                                  mime_type := PendingAttachment.mimeType attachment |}
                          |}, s1, w1)
                  else (None, s1, emit (alert "Upload failed") w1)
              | None => (None, s1, emit (alert "Upload failed") w1)
              end
          end
      end
  end.

(** The row handed to [.insert(...)], completed with the defaults of the
    table for [id] and [created_at]. *)
Definition new_row (env : Env) (uid rid trimmedMessage : string)
    (attachmentPayload : option AttachmentPayload) : Message :=
  {| id := gen_random_uuid env;
     sender_id := uid;
     recipient_id := rid;
     content := trimmedMessage;
     read := false;
     created_at := now env;
     attachment_url := option_map payload_url attachmentPayload;
     attachment_type := option_map payload_type attachmentPayload;
     attachment_metadata := option_map payload_metadata attachmentPayload |}.

(** The edit branch of [sendMessage]. *)
Definition sendMessage_edit (uid trimmedMessage : string) (editing : Message)
    (s : Session) (w : World) : Session * World :=
  let filter m := (id m =? id editing)%string && (sender_id m =? uid)%string in
  match Db.update uid filter (Db.set_content trimmedMessage) (table w) with
  | Db.Ok t =>
      let s1 := setMessages
                  (map (fun msg => if (id msg =? id editing)%string
                                   then with_content trimmedMessage msg else msg)) s in
      (setSending false (resetComposer s1),
       emit (messages_update uid (Db.set_content trimmedMessage) true) (setTable t w))
  | Db.Err _ =>
      (setSending false s,
       emit (alert "Edit failed")
         (emit (messages_update uid (Db.set_content trimmedMessage) false) w))
  end.

(** The insert at the end of [sendMessage]. *)
Definition sendMessage_insert (env : Env) (uid rid trimmedMessage : string)
    (attachmentPayload : option AttachmentPayload)
    (s : Session) (w : World) : Session * World :=
  let row := new_row env uid rid trimmedMessage attachmentPayload in
  match Db.insert uid row (table w) with
  | Db.Ok t =>
      let data := row in
      (setSending false (resetComposer (setMessages (fun prev => prev ++ [data]) s)),
       emit (messages_insert row true) (setTable t w))
  | Db.Err _ =>
      (setSending false s,
       emit (alert "Message failed") (emit (messages_insert row false) w))
  end.

Definition sendMessage (env : Env) (s : Session) (w : World) : Session * World :=
  match ids s with
  | None => (s, w)
  | Some (uid, rid) =>
      if sending s then (s, w) else
      let trimmedMessage := trim (newMessage s) in
      let hasAttachment := isSome (pendingAttachment s) in
      let isEditing := isSome (editingMessage s) in
      if negb (truthy trimmedMessage) && negb hasAttachment then (s, w) else
      if isEditing && negb (truthy trimmedMessage) then (s, w) else
      let s1 := setSending true s in
      match editingMessage s with
      | Some editing => sendMessage_edit uid trimmedMessage editing s1 w
      | None =>
          match pendingAttachment s with
          | Some pending =>
              match uploadAttachment env pending s1 w with
              | (None, s2, w2) => (setSending false s2, w2)
              | (Some p, s2, w2) =>
                  sendMessage_insert env uid rid trimmedMessage (Some p) s2 w2
              end
          | None => sendMessage_insert env uid rid trimmedMessage None s1 w
          end
      end
  end.

Definition canSend (s : Session) : bool :=
  match editingMessage s with
  | Some _ => truthy (trim (newMessage s))
  | None => truthy (trim (newMessage s)) || isSome (pendingAttachment s)
  end.

End Chat.

(** ** The inbox, app/(tabs)/_layout.tsx *)

Module Conversation.

Record t : Type := {
  id : string;
  otherUserId : string;
  otherUserName : string;
  lastMessage : string;
  lastMessageTime : Z;
  unreadCount : nat
}.

Definition bump (c : t) : t :=
  {| id := id c; otherUserId := otherUserId c; otherUserName := otherUserName c;
     lastMessage := lastMessage c; lastMessageTime := lastMessageTime c;
     unreadCount := unreadCount c + 1 |}.

End Conversation.

Module Inbox.

Definition getMessagePreview (msg : Message) : string :=
  if truthy (content msg) && (0 <? String.length (trim (content msg)))%nat
  then content msg
  else match attachment_type msg with
       | Some image => "ðŸ“· Photo"
       | Some video => "ðŸŽ¥ Video"
       | Some document => "ðŸ“„ Document"
       | None => "New message"
       end.

(** A JavaScript [Map]: entries in insertion order, one per key. *)
Definition JsMap (V : Type) : Type := list (string * V).

Fixpoint get {V : Type} (k : string) (m : JsMap V) : option V :=
  match m with
  | [] => None
  | (k', v) :: r => if (k' =? k)%string then Some v else get k r
  end.

Definition has {V : Type} (k : string) (m : JsMap V) : bool := isSome (get k m).

(** [set] keeps the place of a key that is there and appends a new one. *)
Fixpoint set {V : Type} (k : string) (v : V) (m : JsMap V) : JsMap V :=
  match m with
  | [] => [(k, v)]
  | (k', v') :: r => if (k' =? k)%string then (k, v) :: r else (k', v') :: set k v r
  end.

(** [m.get(k)!.unreadCount += 1]: the entry is changed where it stands. *)
Fixpoint modify {V : Type} (k : string) (f : V -> V) (m : JsMap V) : JsMap V :=
  match m with
  | [] => []
  | (k', v') :: r =>
      if (k' =? k)%string then (k', f v') :: r else (k', v') :: modify k f r
  end.

Definition values {V : Type} (m : JsMap V) : list V := map snd m.

(** [profileNames]: company names first, then investor names for the ids
    that have none.  [None] is a query without [data]. *)
Definition profileNames (startupData investorData : option (list (string * string)))
    : JsMap string :=
  let m1 := fold_left (fun m p => set (fst p) (snd p) m)
                      (match startupData with Some l => l | None => [] end) [] in
  fold_left (fun m p => if has (fst p) m then m else set (fst p) (snd p) m)
            (match investorData with Some l => l | None => [] end) m1.

(** The [.or(sender_id.eq.U,recipient_id.eq.U)] filter. *)
Definition mine (uid : string) (m : Message) : bool :=
  (sender_id m =? uid)%string || (recipient_id m =? uid)%string.

Definition other (uid : string) (msg : Message) : string :=
  if (sender_id msg =? uid)%string then recipient_id msg else sender_id msg.

(** The entry made for a counterpart at its first message. *)
Definition opened (names : JsMap string) (otherUserId : string) (msg : Message)
    : Conversation.t :=
  {| Conversation.id := otherUserId;
     Conversation.otherUserId := otherUserId;
     Conversation.otherUserName :=
       match get otherUserId names with
       | Some n => if truthy n then n else "User"
       | None => "User"
       end;
     Conversation.lastMessage := getMessagePreview msg;
     Conversation.lastMessageTime := created_at msg;
     Conversation.unreadCount := 0 |}.

(** One turn of [for (const msg of messages)]. *)
Definition visit (uid : string) (names : JsMap string)
    (conversationMap : JsMap Conversation.t) (msg : Message) : JsMap Conversation.t :=
  let otherUserId := other uid msg in
  let m1 :=
    if negb (has otherUserId conversationMap)
    then set otherUserId (opened names otherUserId msg) conversationMap
    else conversationMap in
  if (sender_id msg =? otherUserId)%string && (recipient_id msg =? uid)%string
     && negb (read msg)
  then modify otherUserId Conversation.bump m1
  else m1.

Definition group (uid : string) (names : JsMap string) (messages : list Message)
    : list Conversation.t :=
  values (fold_left (visit uid names) messages []).

(** The state of [MessagesScreen]. *)
Record Screen : Type := {
  conversations : list Conversation.t;
  loading : bool
}.

Definition fetchConversations (user : option string)
    (startupData investorData : option (list (string * string)))
    (tbl : Db.Table) (sc : Screen) : Screen :=
  match user with
  | None => {| conversations := conversations sc; loading := false |}
  | Some uid =>
      let messages := Db.select uid (mine uid) Db.descending tbl in
      let names := profileNames startupData investorData in
      {| conversations := group uid names messages; loading := false |}
  end.

End Inbox.

(** ** Notions used in the statements *)

(** The content/attachment rule, as a proposition. *)
Definition carries_text_or_attachment (m : Message) : Prop :=
  (1 <= String.length (content m) <= 1000)
  \/ (attachment_url m <> None /\ String.length (content m) <= 1000).

(** The titles of the alerts of a trace. *)
Fixpoint alerts (t : list Chat.Event) : list string :=
  match t with
  | [] => []
  | Chat.alert title :: r => title :: alerts r
  | _ :: r => alerts r
  end.

(** Unread messages of [counterpart] to [viewer] held by the table. *)
Definition unread_from (counterpart viewer : string) (m : Message) : bool :=
  (sender_id m =? counterpart)%string && (recipient_id m =? viewer)%string
  && negb (read m).

Definition stored_unread (counterpart viewer : string) (tbl : Db.Table) : nat :=
  List.length (List.filter (unread_from counterpart viewer) tbl).

(** Every attachment URL in the table is the public URL of an object that
    the bucket holds. *)
Definition attachments_uploaded (publicUrl : Storage.FilePath -> option string)
    (w : Chat.World) : Prop :=
  forall m u, In m (Chat.table w) -> attachment_url m = Some u ->
    exists p, In p (Chat.bucket w) /\ publicUrl p = Some u.

(** [created_at] ascending, ties by [id] ascending. *)
Definition by_created_at_then_id (a b : Message) : Prop :=
  (created_at a < created_at b)%Z
  \/ (created_at a = created_at b /\ (id a <=? id b)%string = true).

Definition by_created_at (a b : Message) : Prop :=
  (created_at a <= created_at b)%Z.

Definition newest_first (a b : Conversation.t) : Prop :=
  (Conversation.lastMessageTime b <= Conversation.lastMessageTime a)%Z.

(** [deleteMessage] took its success path: no alert was raised and the
    message left the screen. *)
Definition delete_reported_done (message : Message) (s : Chat.Session)
    (w : Chat.World) : Prop :=
  alerts (Chat.trace (snd (Chat.deleteMessage message s w))) = alerts (Chat.trace w)
  /\ ~ In message (Chat.messages (fst (Chat.deleteMessage message s w))).

(** [sendMessage] has reported a failure.  The screen has one way to do
    so, an alert. *)
Definition send_reports_error (env : Chat.Env) (s : Chat.Session) (w : Chat.World)
    : Prop :=
  alerts (Chat.trace (snd (Chat.sendMessage env s w))) <> alerts (Chat.trace w).

(** A message with the id of [m] is in the cache. *)
Definition present (m : Message) (cache : list Message) : bool :=
  existsb (fun x => (id x =? id m)%string) cache.

(** The keys of a map and the times of its conversations, in order. *)
Definition keys {V : Type} (m : Inbox.JsMap V) : list string := map fst m.

Definition times (m : Inbox.JsMap Conversation.t) : list Z :=
  map (fun e => Conversation.lastMessageTime (snd e)) m.

(** [c] with [n] more unread messages. *)
Definition add_unread (n : nat) (c : Conversation.t) : Conversation.t :=
  {| Conversation.id := Conversation.id c;
     Conversation.otherUserId := Conversation.otherUserId c;
     Conversation.otherUserName := Conversation.otherUserName c;
     Conversation.lastMessage := Conversation.lastMessage c;
     Conversation.lastMessageTime := Conversation.lastMessageTime c;
     Conversation.unreadCount := Conversation.unreadCount c + n |}.

(** What the loop of [fetchConversations] does to the entry of one key:
    [start] is the entry before the messages [l] are visited. *)
Fixpoint summary (uid : string) (names : Inbox.JsMap string) (k : string)
    (l : list Message) (start : option Conversation.t) : option Conversation.t :=
  match l with
  | [] => start
  | x :: r =>
      summary uid names k r
        (if (Inbox.other uid x =? k)%string
         then Some (let c := match start with
                             | Some c => c
                             | None => Inbox.opened names k x
                             end in
                    if unread_from k uid x then Conversation.bump c else c)
         else start)
  end.

(** ** Sample data *)

Module Sample.

Definition text (i s r c : string) (t : Z) (rd : bool) : Message :=
  {| id := i; sender_id := s; recipient_id := r; content := c; read := rd;
     created_at := t; attachment_url := None; attachment_type := None;
     attachment_metadata := None |}.

Definition alice : string := "alice".
Definition bob : string := "bob".
Definition carol : string := "carol".

Definition hello : Message := text "m1" alice bob "hello" 10 false.
Definition reply : Message := text "m2" bob alice "hi there" 20 false.
Definition aside : Message := text "m3" carol alice "ping" 30 false.

Definition session (u r : string) (cache : list Message) : Chat.Session :=
  {| Chat.user := Some u; Chat.route_id := Some r; Chat.messages := cache;
     Chat.newMessage := ""; Chat.sending := false;
     Chat.pendingAttachment := None; Chat.uploadingAttachment := false;
     Chat.editingMessage := None |}.

Definition world (t : Db.Table) : Chat.World :=
  {| Chat.table := t; Chat.bucket := []; Chat.trace := [] |}.

Definition photo : PendingAttachment.t :=
  {| PendingAttachment.uri := "file:///tmp/cat picture.jpg";
     PendingAttachment.type := image;
     PendingAttachment.fileName := "cat picture.jpg";
     PendingAttachment.mimeType := Some "image/jpeg";
     PendingAttachment.size := Some 2048%N |}.

Definition url_of (p : Storage.FilePath) : option string :=
  Some ("https://cdn.example/" ++ Storage.owner p ++ "/" ++ Storage.safeFileName p)%string.

Definition env (got : option N) (accepted : bool) : Chat.Env :=
  {| Chat.date_now := 1700000000000;
     Chat.fetched := got;
     Chat.upload_accepted := accepted;
     Chat.getPublicUrl := url_of;
     Chat.gen_random_uuid := "m9";
     Chat.now := 40 |}.

(** Alice edits her first message; Bob looks at the same conversation. *)
Definition alice_editing : Chat.Session :=
  {| Chat.user := Some alice; Chat.route_id := Some bob;
     Chat.messages := [hello; reply];
     Chat.newMessage := "  hello again ";
     Chat.sending := false;
     Chat.pendingAttachment := None; Chat.uploadingAttachment := false;
     Chat.editingMessage := Some hello |}.

Definition bob_reading : Chat.Session := session bob alice [hello; reply].

(** Alice has picked a photo and typed a caption. *)
Definition alice_attaching : Chat.Session :=
  {| Chat.user := Some alice; Chat.route_id := Some bob;
     Chat.messages := [hello; reply];
     Chat.newMessage := "look at this ";
     Chat.sending := false;
     Chat.pendingAttachment := Some photo; Chat.uploadingAttachment := false;
     Chat.editingMessage := None |}.

(** Two messages of one conversation with the same [created_at]; the one
    with the greater id was inserted first. *)
Definition tie_b : Message := text "b" alice bob "first" 5 false.
Definition tie_a : Message := text "a" bob alice "second" 5 false.

(** A photo without caption that Alice sent, and Alice blanking the text
    while she edits it. *)
Definition snapshot : Message :=
  {| id := "m4"; sender_id := alice; recipient_id := bob; content := "look";
     read := false; created_at := 35;
     attachment_url := Some "https://cdn.example/alice/cat-picture.jpg";
     attachment_type := Some image;
     attachment_metadata :=
       Some {| file_name := "cat picture.jpg"; file_size := 2048;
               mime_type := Some "image/jpeg" |} |}.

Definition alice_blanking : Chat.Session :=
  {| Chat.user := Some alice; Chat.route_id := Some bob;
     Chat.messages := [hello; snapshot];
     Chat.newMessage := "   ";
     Chat.sending := false;
     Chat.pendingAttachment := None; Chat.uploadingAttachment := false;
     Chat.editingMessage := Some snapshot |}.

(** Alice typing a message to Bob, and the row that sending it stores. *)
Definition alice_typing : Chat.Session :=
  Chat.setNewMessage "see you" (session alice bob [hello]).

Definition sent : Message :=
  Chat.new_row (env None true) alice bob "see you" None.

(** The row that Alice's send of the photo stores. *)
Definition sent_photo : Message :=
  Chat.new_row (env (Some 2048%N) true) alice bob "look at this"
    (Some {| Chat.payload_url := "https://cdn.example/alice/cat-picture.jpg";
             Chat.payload_type := image;
             Chat.payload_metadata :=
               {| file_name := "cat picture.jpg"; file_size := 2048;
                  mime_type := Some "image/jpeg" |} |}).

End Sample.

(** ** More of the chat screen: picking media, drawing a message *)

Module Picker.

(** An asset of [expo-document-picker]. *)
Record DocumentAsset : Type := {
  doc_uri : string;
  doc_name : string;
  doc_mimeType : option string;
  doc_size : option N
}.

(** An asset of [expo-image-picker]. *)
Record MediaAsset : Type := {
  media_uri : string;
  media_fileName : option string;
  media_mimeType : option string;
  media_fileSize : option N
}.

(** What the device answers during one [handlePickMedia]: whether
    [Platform.OS] is ['web'], whether access to the photo library is
    granted, and the first asset of each picker ([None] when the user
    cancels). *)
Record Env : Type := {
  web : bool;
  granted : bool;
  document_asset : option DocumentAsset;
  library_asset : option MediaAsset
}.

End Picker.

Module Composer.

(** [value || fallback] on an optional string. *)
Definition or_default (value : option string) (fallback : string) : string :=
  match value with
  | Some v => if truthy v then v else fallback
  | None => fallback
  end.

Definition handlePickMedia (kind : MessageAttachmentType) (penv : Picker.Env)
    (s : Chat.Session) (w : Chat.World) : Chat.Session * Chat.World :=
  if isSome (Chat.editingMessage s)
  then (s, Chat.emit (Chat.alert "Finish editing") w)
  else if Picker.web penv
  then (s, Chat.emit (Chat.alert "Unavailable") w)
  else
    match kind with
    | document =>
        match Picker.document_asset penv with
        | Some asset =>
            (Chat.setPendingAttachment
               (Some {| PendingAttachment.uri := Picker.doc_uri asset;
                        PendingAttachment.type := document;
                        PendingAttachment.fileName := Picker.doc_name asset;
                        PendingAttachment.mimeType :=
                          Some (or_default (Picker.doc_mimeType asset)
                                           "application/octet-stream");
                        PendingAttachment.size := Picker.doc_size asset |}) s, w)
        | None => (s, w)
        end
    | _ =>
        if negb (Picker.granted penv)
        then (s, Chat.emit (Chat.alert "Permission needed") w)
        else
          match Picker.library_asset penv with
          | Some asset =>
              (Chat.setPendingAttachment
                 (Some {| PendingAttachment.uri := Picker.media_uri asset;
                          PendingAttachment.type := kind;
                          PendingAttachment.fileName :=
                            or_default (Picker.media_fileName asset)
                              (match kind with
                               | image => "photo.jpg"
                               | _ => "video.mp4"
                               end);
                          PendingAttachment.mimeType :=
                            Some (or_default (Picker.media_mimeType asset)
                                    (match kind with
                                     | image => "image/jpeg"
                                     | _ => "video/mp4"
                                     end));
                          PendingAttachment.size := Picker.media_fileSize asset |}) s,
               w)
          | None => (s, w)
          end
    end.

(** What [renderMessage] draws for one message, without the styling: the
    side of the bubble, whether the long press is disabled, the attachment
    shown with the label of a document, the text shown, and the read
    receipt ([None] when there is none). *)
Record Bubble : Type := {
  isMe : bool;
  longPressDisabled : bool;
  attachmentShown : option (MessageAttachmentType * string);
  documentLabel : string;
  textShown : option string;
  readReceipt : option bool
}.

Definition renderMessage (s : Chat.Session) (item : Message) : Bubble :=
  let me := match Chat.user s with
            | Some uid => (sender_id item =? uid)%string
            | None => false
            end in
  {| isMe := me;
     longPressDisabled := negb me;
     attachmentShown :=
       match attachment_type item, attachment_url item with
       | Some t, Some u => if truthy u then Some (t, u) else None
       | _, _ => None
       end;
     documentLabel :=
       or_default (option_map file_name (attachment_metadata item)) "Document";
     textShown := if truthy (content item) then Some (content item) else None;
     readReceipt := if me then Some (read item) else None |}.

(** What the user, the timer and the change feed can do to an open chat
    screen.  Edit and Delete are reached through the long-press menu. *)
Inductive Action : Type :=
| TypeText (text : string)
| PickMedia (kind : MessageAttachmentType) (penv : Picker.Env)
| RemovePending
| LongPressEdit (message : Message)
| LongPressDelete (message : Message)
| CancelEditing
| Send (env : Chat.Env)
| Poll
| Feed (payload : Chat.Payload).

Definition act (a : Action) (sw : Chat.Session * Chat.World)
    : Chat.Session * Chat.World :=
  let (s, w) := sw in
  match a with
  | TypeText text => (Chat.setNewMessage text s, w)
  | PickMedia kind penv => handlePickMedia kind penv s w
  | RemovePending => (Chat.removePendingAttachment s, w)
  | LongPressEdit message =>
      if Chat.handleMessageLongPress message s
      then (Chat.startEditingMessage message s, w) else (s, w)
  | LongPressDelete message =>
      if Chat.handleMessageLongPress message s
      then Chat.deleteMessage message s w else (s, w)
  | CancelEditing => (Chat.cancelEditing s, w)
  | Send env => Chat.sendMessage env s w
  | Poll => (Chat.fetchMessages s w, w)
  | Feed payload => Chat.postgres_changes payload s w
  end.

Definition run (l : list Action) (sw : Chat.Session * Chat.World)
    : Chat.Session * Chat.World :=
  fold_left (fun st a => act a st) l sw.

(** The screen as it is mounted: the initial values of its [useState]. *)
Definition mounted (user route_id : option string) : Chat.Session :=
  {| Chat.user := user; Chat.route_id := route_id; Chat.messages := [];
     Chat.newMessage := ""; Chat.sending := false;
     Chat.pendingAttachment := None; Chat.uploadingAttachment := false;
     Chat.editingMessage := None |}.

End Composer.

(** ** The tab bar, app/(tabs)/_layout.tsx *)

Module Tabs.

(** [select('*', { count: 'exact', head: true })] with the two [.eq]
    filters: the number of rows the user may read that match. *)
Definition fetchUnread (user : option string) (tbl : Db.Table) : nat :=
  match user with
  | None => 0
  | Some uid =>
      List.length
        (List.filter
           (fun m => Db.participants_can_read uid m
                     && ((recipient_id m =? uid)%string && Bool.eqb (read m) false))
           tbl)
  end.

(** The dot on the Messages icon: [unreadCount > 0]. *)
Definition badge (unreadCount : nat) : bool := (0 <? unreadCount)%nat.

End Tabs.

(** ** Relative times of the inbox

    [formatTime] of [MessagesScreen].  [now] and [timestamp] are
    milliseconds; [Math.floor] of a quotient of integers is [Z.div].  Each
    constructor stands for the string the source builds: ['Just now'],
    [`${n}m ago`], [`${n}h ago`], ['Yesterday'], [`${n}d ago`] and
    [date.toLocaleDateString()]. *)

Module InboxTime.

Inductive Label : Type :=
| JustNow
| MinutesAgo (n : Z)
| HoursAgo (n : Z)
| Yesterday
| DaysAgo (n : Z)
| LocaleDate (timestamp : Z).

Definition formatTime (now timestamp : Z) : Label :=
  let diffMs := (now - timestamp)%Z in
  let diffMins := (diffMs / 60000)%Z in
  let diffHours := (diffMins / 60)%Z in
  let diffDays := (diffHours / 24)%Z in
  if (diffMins <? 1)%Z then JustNow
  else if (diffMins <? 60)%Z then MinutesAgo diffMins
  else if (diffHours <? 24)%Z then HoursAgo diffHours
  else if (diffDays =? 1)%Z then Yesterday
  else if (diffDays <? 7)%Z then DaysAgo diffDays
  else LocaleDate timestamp.

End InboxTime.

(** ** Favorites of the startup screen, app/startup/[id].tsx

    The [favorites] table: [id uuid primary key], [user_id], [startup_id],
    [unique (user_id, startup_id)], [startup_id] referencing
    [startup_profiles(id)], and the policy "Users manage their favorites"
    for all statements. *)

Module Favorites.

Record Row : Type := {
  id : string;
  user_id : string;
  startup_id : string
}.

Definition Table : Type := list Row.

Definition users_manage (uid : string) (r : Row) : bool :=
  (uid =? user_id r)%string.

Inductive error : Type :=
| rls_violation          (* new row violates row-level security policy *)
| unique_violation       (* duplicate key: the primary key or the unique pair *)
| foreign_key_violation. (* startup_id is not present in startup_profiles *)

Inductive outcome : Type :=
| Inserted (t : Table)
| Refused (e : error).

(** [startups] are the ids of the rows of [startup_profiles]; the user
    who is signed in is taken to have a row in [profiles]. *)
Definition insert (startups : list string) (uid : string) (row : Row) (tbl : Table)
    : outcome :=
  if negb (users_manage uid row) then Refused rls_violation
  else if existsb (fun r => (id r =? id row)%string) tbl then Refused unique_violation
  else if existsb (fun r => (user_id r =? user_id row)%string
                            && (startup_id r =? startup_id row)%string) tbl
  then Refused unique_violation
  else if negb (existsb (fun sid => (sid =? startup_id row)%string) startups)
  then Refused foreign_key_violation
  else Inserted (tbl ++ [row]).

Definition delete (uid : string) (filter : Row -> bool) (tbl : Table) : Table :=
  List.filter (fun r => negb (filter r && users_manage uid r)) tbl.

(** The rows a user sees through "Users manage their favorites"; the
    second select policy shows a startup owner the rows of other users,
    which the filter on [user_id] of [checkFavorite] leaves out. *)
Definition select_own (uid : string) (filter : Row -> bool) (tbl : Table) : list Row :=
  List.filter (fun r => users_manage uid r && filter r) tbl.

(** [.maybeSingle()]: the row when there is exactly one. *)
Definition maybeSingle {A : Type} (rows : list A) : option A :=
  match rows with
  | [r] => Some r
  | _ => None
  end.

(** The state of [StartupDetailScreen] that the favorite button uses. *)
Record Screen : Type := {
  user : option string;
  route_id : string;
  isFavorite : bool
}.

Definition setIsFavorite (b : bool) (sc : Screen) : Screen :=
  {| user := user sc; route_id := route_id sc; isFavorite := b |}.

Definition pair_filter (uid sid : string) (r : Row) : bool :=
  (user_id r =? uid)%string && (startup_id r =? sid)%string.

Definition checkFavorite (sc : Screen) (tbl : Table) : Screen :=
  match user sc with
  | None => sc
  | Some uid =>
      let data := maybeSingle (select_own uid (pair_filter uid (route_id sc)) tbl) in
      setIsFavorite (isSome data) sc
  end.

(** [fresh] is the id the table gives to a new row.  The result of either
    statement is not looked at. *)
Definition toggleFavorite (startups : list string) (fresh : string)
    (sc : Screen) (tbl : Table) : Screen * Table :=
  match user sc with
  | None => (sc, tbl)
  | Some uid =>
      if isFavorite sc
      then (setIsFavorite false sc, delete uid (pair_filter uid (route_id sc)) tbl)
      else
        let row := {| id := fresh; user_id := uid; startup_id := route_id sc |} in
        (setIsFavorite true sc,
         match insert startups uid row tbl with
         | Inserted t => t
         | Refused _ => tbl
         end)
  end.

End Favorites.

(** ** Notions used in the further statements *)

(** The cache shows what a fetch would return. *)
Definition in_sync (s : Chat.Session) (w : Chat.World) : Prop :=
  Chat.messages s = Chat.messages (Chat.fetchMessages s w).

Definition starts_with_space (s : string) : bool :=
  match s with
  | EmptyString => false
  | String c _ => is_space c
  end.

Fixpoint ends_with_space (s : string) : bool :=
  match s with
  | EmptyString => false
  | String c EmptyString => is_space c
  | String _ r => ends_with_space r
  end.

Fixpoint has_space (s : string) : bool :=
  match s with
  | EmptyString => false
  | String c r => is_space c || has_space r
  end.

(** The composer at rest: nothing in flight, and never an edit together
    with a pending attachment. *)
Definition composer_at_rest (s : Chat.Session) : Prop :=
  Chat.sending s = false /\ Chat.uploadingAttachment s = false
  /\ (Chat.editingMessage s <> None -> Chat.pendingAttachment s = None).

(** The user has the startup among the favorites of the table. *)
Definition is_favorite (uid sid : string) (tbl : Favorites.Table) : bool :=
  existsb (Favorites.pair_filter uid sid) tbl.

Definition favorites_unique (tbl : Favorites.Table) : Prop :=
  NoDup (map Favorites.id tbl)
  /\ NoDup (map (fun r => (Favorites.user_id r, Favorites.startup_id r)) tbl).

(** The ways one [sendMessage] can go, by the branch it takes. *)
Inductive send_outcome (env : Chat.Env) (s : Chat.Session) (w : Chat.World)
    : Chat.Session * Chat.World -> Prop :=
| send_ignored :
    Chat.ids s = None \/ Chat.sending s = true \/ Chat.canSend s = false ->
    send_outcome env s w (s, w)
| send_edit uid rid editing :
    Chat.ids s = Some (uid, rid) -> Chat.sending s = false ->
    Chat.editingMessage s = Some editing ->
    truthy (trim (Chat.newMessage s)) = true ->
    send_outcome env s w
      (Chat.sendMessage_edit uid (trim (Chat.newMessage s)) editing
         (Chat.setSending true s) w)
| send_upload_failed uid rid pending s2 w2 :
    Chat.ids s = Some (uid, rid) -> Chat.sending s = false ->
    Chat.editingMessage s = None -> Chat.pendingAttachment s = Some pending ->
    Chat.uploadAttachment env pending (Chat.setSending true s) w = (None, s2, w2) ->
    send_outcome env s w (Chat.setSending false s2, w2)
| send_with_attachment uid rid pending payload s2 w2 :
    Chat.ids s = Some (uid, rid) -> Chat.sending s = false ->
    Chat.editingMessage s = None -> Chat.pendingAttachment s = Some pending ->
    Chat.uploadAttachment env pending (Chat.setSending true s) w
    = (Some payload, s2, w2) ->
    send_outcome env s w
      (Chat.sendMessage_insert env uid rid (trim (Chat.newMessage s))
         (Some payload) s2 w2)
| send_text uid rid :
    Chat.ids s = Some (uid, rid) -> Chat.sending s = false ->
    Chat.editingMessage s = None -> Chat.pendingAttachment s = None ->
    truthy (trim (Chat.newMessage s)) = true ->
    send_outcome env s w
      (Chat.sendMessage_insert env uid rid (trim (Chat.newMessage s)) None
         (Chat.setSending true s) w).

(** [new] is [old] after statements of the screen: the same message, with
    its attachment, whose [read] flag has not gone back to false. *)
Definition evolves (old new : Message) : Prop :=
  id new = id old /\ sender_id new = sender_id old
  /\ recipient_id new = recipient_id old /\ created_at new = created_at old
  /\ attachment_url new = attachment_url old
  /\ attachment_type new = attachment_type old
  /\ attachment_metadata new = attachment_metadata old
  /\ (read old = true -> read new = true).

(** ** The figures on a startup card, components/StartupCard.tsx

    [fetchStats] counts the rows of [profile_views] and of [favorites] of
    a startup with [select('*', { count: 'exact', head: true })]: the
    number of rows that the select policies let the viewer see.  Each
    table shows its rows to the owner of the startup; [favorites] also
    shows a user the rows of their own. *)

Module StartupCard.

(** A row of [startup_profiles], as far as the policies look at it. *)
Record Startup : Type := {
  startup : string;
  owner : string
}.

Record View : Type := {
  view_id : string;
  view_startup_id : string;
  viewer_id : string
}.

(** [exists (select 1 from startup_profiles where startup_profiles.id = sid
    and startup_profiles.user_id = auth.uid())] *)
Definition owns (startup_profiles : list Startup) (uid sid : string) : bool :=
  existsb (fun p => (startup p =? sid)%string && (owner p =? uid)%string)
          startup_profiles.

Definition startup_owners_can_view_analytics (startup_profiles : list Startup)
    (uid : string) (v : View) : bool :=
  owns startup_profiles uid (view_startup_id v).

Definition startup_owners_can_view_favorite_counts (startup_profiles : list Startup)
    (uid : string) (r : Favorites.Row) : bool :=
  owns startup_profiles uid (Favorites.startup_id r).

Record Stats : Type := {
  views : nat;
  likes : nat
}.

(** [uid] is the viewer, who is signed in; [startup_id] is [startup.id]. *)
Definition fetchStats (startup_profiles : list Startup) (uid startup_id : string)
    (profile_views : list View) (favorites : Favorites.Table) : Stats :=
  let viewCount :=
    List.length
      (List.filter
         (fun v => startup_owners_can_view_analytics startup_profiles uid v
                   && (view_startup_id v =? startup_id)%string)
         profile_views) in
  let likeCount :=
    List.length
      (List.filter
         (fun r => (Favorites.users_manage uid r
                    || startup_owners_can_view_favorite_counts startup_profiles uid r)
                   && (Favorites.startup_id r =? startup_id)%string)
         favorites) in
  {| views := viewCount; likes := likeCount |}.

End StartupCard.

(** ** Sectors and founders of the profile editor, app/admin/dashboard.tsx

    [toggleSector], [addFounder], [removeFounder] and [updateFounder] of
    [EditProfileScreen].  A JavaScript array can have holes: [filter]
    passes over them, spreading reads them as [undefined], and an
    assignment past the end leaves holes behind it.  A founder is an
    object whose fields may be absent. *)

Module EditProfile.

(** [selectedSectors.includes(sector)] *)
Definition includes (sector : string) (selectedSectors : list string) : bool :=
  existsb (fun s => (s =? sector)%string) selectedSectors.

Definition toggleSector (sector : string) (selectedSectors : list string)
    : list string :=
  if includes sector selectedSectors
  then List.filter (fun s => negb (s =? sector)%string) selectedSectors
  else selectedSectors ++ [sector].

Record Founder : Type := {
  name : option string;
  previous_experience : option string;
  key_roles : option string;
  photo_url : option string
}.

Inductive Field : Type :=
| field_name
| field_previous_experience
| field_key_roles
| field_photo_url.

Inductive Slot : Type :=
| hole
| undefined
| item (founder : Founder).

Definition Founders : Type := list Slot.

(** [[...founders]] *)
Definition spread (founders : Founders) : Founders :=
  map (fun s => match s with hole => undefined | _ => s end) founders.

Definition addFounder (founders : Founders) : Founders :=
  spread founders
  ++ [item {| name := Some ""; previous_experience := Some "";
              key_roles := Some ""; photo_url := None |}].

(** [founders.filter((_, i) => i !== index)], from position [i] on. *)
Fixpoint filter_from (i index : nat) (founders : Founders) : Founders :=
  match founders with
  | [] => []
  | hole :: r => filter_from (S i) index r
  | s :: r =>
      if negb (i =? index)%nat then s :: filter_from (S i) index r
      else filter_from (S i) index r
  end.

Definition removeFounder (index : nat) (founders : Founders) : Founders :=
  filter_from 0 index founders.

(** [{ ...updated[index] }]: spreading [undefined] gives the empty object. *)
Definition read_at (index : nat) (updated : Founders) : Founder :=
  match nth_error updated index with
  | Some (item f) => f
  | _ => {| name := None; previous_experience := None;
            key_roles := None; photo_url := None |}
  end.

(** [{ ...f, [field]: value }] *)
Definition set_field (field : Field) (value : string) (f : Founder) : Founder :=
  match field with
  | field_name =>
      {| name := Some value; previous_experience := previous_experience f;
         key_roles := key_roles f; photo_url := photo_url f |}
  | field_previous_experience =>
      {| name := name f; previous_experience := Some value;
         key_roles := key_roles f; photo_url := photo_url f |}
  | field_key_roles =>
      {| name := name f; previous_experience := previous_experience f;
         key_roles := Some value; photo_url := photo_url f |}
  | field_photo_url =>
      {| name := name f; previous_experience := previous_experience f;
         key_roles := key_roles f; photo_url := Some value |}
  end.

(** [updated[index] = v]: past the end the array grows, with holes up to
    [index]. *)
Fixpoint assign_at (index : nat) (v : Slot) (updated : Founders) : Founders :=
  match index, updated with
  | 0, [] => [v]
  | 0, _ :: r => v :: r
  | S n, [] => hole :: assign_at n v []
  | S n, s :: r => s :: assign_at n v r
  end.

Definition updateFounder (index : nat) (field : Field) (value : string)
    (founders : Founders) : Founders :=
  let updated := spread founders in
  assign_at index (item (set_field field value (read_at index updated))) updated.

End EditProfile.

(** An array of founders without holes or [undefined]. *)
Definition dense (founders : EditProfile.Founders) : Prop :=
  Forall (fun s => exists f, s = EditProfile.item f) founders.

(* ================================================================== *)
(** * Theorems *)
(* ================================================================== *)

(** ** Strings and booleans *)

Lemma truthy_true (s : string) : truthy s = true <-> s <> ""%string.
Proof.
  unfold truthy. rewrite negb_true_iff. apply String.eqb_neq.
Qed.

Lemma truthy_length (s : string) : truthy s = true -> 1 <= String.length s.
Proof.
  destruct s; simpl; [discriminate | lia].
Qed.

(** ** [order by created_at] *)

Section Ordering.

Variable o : Db.Order.

Let R (a b : Message) : Prop := Db.precedes o a b = true.

Lemma precedes_total a b : Db.precedes o a b = false -> Db.precedes o b a = true.
Proof.
  destruct o; simpl; intros H; apply Z.leb_gt in H; apply Z.leb_le; lia.
Qed.

Lemma precedes_trans a b c :
  Db.precedes o a b = true -> Db.precedes o b c = true -> Db.precedes o a c = true.
Proof.
  destruct o; simpl; rewrite !Z.leb_le; lia.
Qed.

Lemma place_perm x l : Permutation (Db.place o x l) (x :: l).
Proof.
  induction l as [|y r IH]; simpl.
  - apply Permutation_refl.
  - destruct (Db.precedes o x y).
    + apply Permutation_refl.
    + eapply Permutation_trans; [apply perm_skip, IH | apply perm_swap].
Qed.

Lemma order_by_perm l : Permutation (Db.order_by o l) l.
Proof.
  induction l as [|x r IH]; simpl.
  - constructor.
  - eapply Permutation_trans; [apply place_perm | apply perm_skip, IH].
Qed.

Lemma place_sorted x l :
  StronglySorted R l -> StronglySorted R (Db.place o x l).
Proof.
  induction 1 as [|y r Hs IH Hall]; simpl.
  - repeat constructor.
  - destruct (Db.precedes o x y) eqn:E.
    + constructor; [constructor; assumption|].
      constructor; [exact E|].
      eapply Forall_impl; [|exact Hall].
      intros z Hz. unfold R in *. eapply precedes_trans; eassumption.
    + constructor; [exact IH|].
      eapply Permutation_Forall.
      * apply Permutation_sym, place_perm.
      * constructor; [apply precedes_total, E | exact Hall].
Qed.

Lemma order_by_sorted l : StronglySorted R (Db.order_by o l).
Proof.
  induction l as [|x r IH]; simpl; [constructor | apply place_sorted, IH].
Qed.

Lemma order_by_In m l : In m (Db.order_by o l) <-> In m l.
Proof.
  split; apply Permutation_in;
    [apply order_by_perm | apply Permutation_sym, order_by_perm].
Qed.

End Ordering.

Lemma select_In uid f o tbl m :
  In m (Db.select uid f o tbl)
  <-> In m tbl /\ Db.participants_can_read uid m = true /\ f m = true.
Proof.
  unfold Db.select. rewrite order_by_In, filter_In, andb_true_iff. tauto.
Qed.

(** ** The CHECK constraints hold in every reachable table *)

Lemma checks_carries m : Db.checks m = true -> carries_text_or_attachment m.
Proof.
  unfold Db.checks, Db.messages_content_check, carries_text_or_attachment.
  intros H. apply andb_true_iff in H. destruct H as [H _].
  apply orb_true_iff in H. destruct H as [H|H]; apply andb_true_iff in H;
    destruct H as [H1 H2].
  - left. apply Nat.leb_le in H1. apply Nat.leb_le in H2. lia.
  - right. apply Nat.leb_le in H2. split; [|lia].
    destruct (attachment_url m); [discriminate | discriminate H1].
Qed.

Lemma insert_checks uid row tbl tbl' :
  Db.insert uid row tbl = Db.Ok tbl' ->
  forallb Db.checks tbl = true -> forallb Db.checks tbl' = true.
Proof.
  unfold Db.insert. intros H Hall.
  destruct (Db.senders_can_create uid row); simpl in H; [|discriminate].
  destruct (Db.checks row) eqn:Hc; simpl in H; [|discriminate].
  destruct (existsb _ tbl); [discriminate|].
  injection H as <-. rewrite forallb_app, Hall. simpl. now rewrite Hc.
Qed.

Lemma update_checks uid f a tbl tbl' :
  Db.update uid f a tbl = Db.Ok tbl' ->
  forallb Db.checks tbl = true -> forallb Db.checks tbl' = true.
Proof.
  unfold Db.update. intros H Hall.
  destruct (forallb (fun m => negb (Db.targets uid f m)
                              || Db.update_policy uid (Db.assign a m)) tbl);
    simpl in H; [|discriminate].
  destruct (forallb (fun m => negb (Db.targets uid f m)
                              || Db.checks (Db.assign a m)) tbl) eqn:Hc;
    simpl in H; [|discriminate].
  injection H as <-.
  rewrite forallb_forall in *. intros x Hx.
  apply in_map_iff in Hx. destruct Hx as (m & <- & Hm).
  specialize (Hc m Hm). specialize (Hall m Hm).
  destruct (Db.targets uid f m); simpl in Hc; assumption.
Qed.

Lemma delete_checks uid f tbl tbl' :
  Db.delete uid f tbl = Db.Ok tbl' ->
  forallb Db.checks tbl = true -> forallb Db.checks tbl' = true.
Proof.
  unfold Db.delete. intros H Hall. injection H as <-.
  rewrite forallb_forall in *. intros x Hx.
  apply filter_In in Hx. now apply Hall.
Qed.

Lemma step_checks tbl tbl' :
  Db.step tbl tbl' -> forallb Db.checks tbl = true -> forallb Db.checks tbl' = true.
Proof.
  intros [uid row t t' H|uid f a t t' H|uid f t t' H].
  - eapply insert_checks; eassumption.
  - eapply update_checks; eassumption.
  - eapply delete_checks; eassumption.
Qed.

Lemma reachable_checks tbl : Db.reachable tbl -> forallb Db.checks tbl = true.
Proof.
  induction 1 as [|tbl tbl' _ IH Hs]; [reflexivity|].
  eapply step_checks; eassumption.
Qed.

(** C1.  Every message of a table built by inserts, updates and deletes
    has content of 1 to 1000 characters, or an attachment URL and content
    of at most 1000 characters; none has empty content and no attachment
    URL. *)
Theorem C1_content_or_attachment (tbl : Db.Table) :
  Db.reachable tbl ->
  Forall (fun m => carries_text_or_attachment m
                   /\ ~ (content m = ""%string /\ attachment_url m = None)) tbl.
Proof.
  intros Hr. apply reachable_checks in Hr.
  rewrite forallb_forall in Hr. apply Forall_forall. intros m Hm.
  pose proof (checks_carries m (Hr m Hm)) as Hc. split; [exact Hc|].
  intros [Hc0 Hu]. destruct Hc as [Hc|[Hc _]].
  - rewrite Hc0 in Hc. simpl in Hc. lia.
  - contradiction.
Qed.

Lemma C1_witness :
  Forall (fun m => carries_text_or_attachment m
                   /\ ~ (content m = ""%string /\ attachment_url m = None))
         [Sample.hello; Sample.reply].
Proof.
  apply (C1_content_or_attachment [Sample.hello; Sample.reply]).
  eapply Db.reachable_step.
  - eapply Db.reachable_step; [apply Db.reachable_empty|].
    apply (Db.step_insert Sample.alice Sample.hello [] [Sample.hello]).
    reflexivity.
  - apply (Db.step_insert Sample.bob Sample.reply [Sample.hello]).
    reflexivity.
Defined.

(** ** Tables with a primary key *)

Lemma same_id_same_row (tbl : Db.Table) (x m : Message) :
  NoDup (map id tbl) -> In x tbl -> In m tbl -> id x = id m -> x = m.
Proof.
  induction tbl as [|y r IH]; simpl; [tauto|].
  intros Hnd [Hx|Hx] [Hm|Hm] He; inversion Hnd as [|? ? Hy Hr]; subst.
  - reflexivity.
  - exfalso. apply Hy. rewrite He. now apply in_map.
  - exfalso. apply Hy. rewrite <- He. now apply in_map.
  - now apply IH.
Qed.

Lemma map_untouched {A : Type} (g : A -> bool) (h : A -> A) (l : list A) :
  (forall x, In x l -> g x = false) ->
  map (fun x => if g x then h x else x) l = l.
Proof.
  intros H. induction l as [|x r IH]; simpl; [reflexivity|].
  rewrite (H x (or_introl eq_refl)), IH; [reflexivity|].
  intros y Hy. apply H. now right.
Qed.

Lemma filter_all {A : Type} (g : A -> bool) (l : list A) :
  (forall x, In x l -> g x = true) -> List.filter g l = l.
Proof.
  intros H. induction l as [|x r IH]; simpl; [reflexivity|].
  rewrite (H x (or_introl eq_refl)), IH; [reflexivity|].
  intros y Hy. apply H. now right.
Qed.

Lemma update_ok uid f a tbl :
  (forall m, In m tbl -> Db.targets uid f m = true ->
     Db.update_policy uid (Db.assign a m) = true /\ Db.checks (Db.assign a m) = true) ->
  Db.update uid f a tbl
  = Db.Ok (map (fun m => if Db.targets uid f m then Db.assign a m else m) tbl).
Proof.
  intros H. unfold Db.update.
  assert (H1 : forallb (fun m => negb (Db.targets uid f m)
                        || Db.update_policy uid (Db.assign a m)) tbl = true).
  { apply forallb_forall. intros m Hm. specialize (H m Hm).
    destruct (Db.targets uid f m); simpl; [apply H; reflexivity | reflexivity]. }
  assert (H2 : forallb (fun m => negb (Db.targets uid f m)
                        || Db.checks (Db.assign a m)) tbl = true).
  { apply forallb_forall. intros m Hm. specialize (H m Hm).
    destruct (Db.targets uid f m); simpl; [apply H; reflexivity | reflexivity]. }
  now rewrite H1, H2.
Qed.

Lemma alerts_app t1 t2 : alerts (t1 ++ t2) = alerts t1 ++ alerts t2.
Proof.
  induction t1 as [|e r IH]; simpl; [reflexivity|].
  destruct e; simpl; rewrite IH; reflexivity.
Qed.

Lemma checks_with_read b m : Db.checks (with_read b m) = Db.checks m.
Proof. reflexivity. Qed.

Lemma checks_with_content c m :
  c <> ""%string -> String.length c <= 1000 -> Db.checks (with_content c m) = true.
Proof.
  intros Hc Hl. unfold Db.checks, Db.messages_content_check,
    Db.messages_content_length_check.
  cbn [content with_content attachment_url].
  assert (H1 : (1 <=? String.length c)%nat = true).
  { apply Nat.leb_le. apply truthy_length. now apply truthy_true. }
  assert (H2 : (String.length c <=? 1000)%nat = true) by now apply Nat.leb_le.
  now rewrite H1, H2.
Qed.

(** [markAsRead] as a table transformer. *)
Lemma markAsRead_table s w uid rid :
  Chat.ids s = Some (uid, rid) ->
  forallb Db.checks (Chat.table w) = true ->
  Chat.table (Chat.markAsRead s w)
  = map (fun m => if unread_from rid uid m then with_read true m else m) (Chat.table w).
Proof.
  intros Hids Hv. unfold Chat.markAsRead. rewrite Hids.
  rewrite update_ok.
  - simpl. apply map_ext. intros m. unfold Db.targets, unread_from.
    unfold Db.update_policy, Db.recipients_can_mark_read, Db.senders_can_update.
    destruct (sender_id m =? rid)%string; simpl; [|reflexivity].
    destruct (recipient_id m =? uid)%string eqn:E; simpl; [|reflexivity].
    rewrite String.eqb_sym, E. simpl.
    destruct (read m); reflexivity.
  - intros m Hm Ht. simpl. rewrite checks_with_read. split.
    + unfold Db.targets in Ht. apply andb_true_iff in Ht. apply Ht.
    + rewrite forallb_forall in Hv. now apply Hv.
Qed.

Lemma markAsRead_alerts s w :
  alerts (Chat.trace (Chat.markAsRead s w)) = alerts (Chat.trace w).
Proof.
  unfold Chat.markAsRead. destruct (Chat.ids s) as [[uid rid]|]; [|reflexivity].
  destruct (Db.update _ _ _ _); simpl; rewrite alerts_app; simpl;
    now rewrite app_nil_r.
Qed.

(** ** Who can change a stored message *)

Lemma deleteMessage_table m s w uid :
  Chat.user s = Some uid ->
  Chat.table (snd (Chat.deleteMessage m s w))
  = List.filter (fun x => negb ((id x =? id m)%string && (sender_id x =? uid)%string))
                (Chat.table w).
Proof.
  intros Hu. unfold Chat.deleteMessage, Db.delete. rewrite Hu. simpl.
  apply filter_ext. intros x. unfold Db.senders_can_delete.
  destruct (id x =? id m)%string; simpl; [|reflexivity].
  destruct (sender_id x =? uid)%string eqn:E; simpl; [|reflexivity].
  now rewrite String.eqb_sym, E.
Qed.

Lemma deleteMessage_alerts m s w :
  alerts (Chat.trace (snd (Chat.deleteMessage m s w))) = alerts (Chat.trace w).
Proof.
  unfold Chat.deleteMessage, Db.delete.
  destruct (Chat.user s); simpl; [|reflexivity].
  rewrite alerts_app. simpl. now rewrite app_nil_r.
Qed.

Lemma sendMessage_editing env s w uid rid m :
  Chat.ids s = Some (uid, rid) -> Chat.sending s = false ->
  Chat.editingMessage s = Some m -> truthy (trim (Chat.newMessage s)) = true ->
  Chat.sendMessage env s w
  = Chat.sendMessage_edit uid (trim (Chat.newMessage s)) m (Chat.setSending true s) w.
Proof.
  intros Hi Hs He Ht. unfold Chat.sendMessage. now rewrite Hi, Hs, He, Ht.
Qed.

Lemma edit_by_sender uid c m tbl :
  NoDup (map id tbl) -> In m tbl -> uid = sender_id m ->
  c <> ""%string -> String.length c <= 1000 ->
  Db.update uid (fun x => (id x =? id m)%string && (sender_id x =? uid)%string)
            (Db.set_content c) tbl
  = Db.Ok (map (fun x => if (id x =? id m)%string then with_content c x else x) tbl).
Proof.
  intros Hnd Hm Hu Hc Hl. rewrite update_ok.
  - f_equal. apply map_ext_in. intros x Hx. unfold Db.targets.
    destruct (id x =? id m)%string eqn:E; simpl; [|reflexivity].
    apply String.eqb_eq in E.
    assert (x = m) by (eapply same_id_same_row; eassumption). subst x uid.
    unfold Db.update_policy, Db.senders_can_update.
    now rewrite String.eqb_refl, orb_true_r.
  - intros x Hx Ht. simpl. split; [|now apply checks_with_content].
    unfold Db.targets in Ht. apply andb_true_iff in Ht. apply Ht.
Qed.

Lemma edit_by_other uid c m tbl :
  NoDup (map id tbl) -> In m tbl -> uid <> sender_id m ->
  Db.update uid (fun x => (id x =? id m)%string && (sender_id x =? uid)%string)
            (Db.set_content c) tbl
  = Db.Ok tbl.
Proof.
  intros Hnd Hm Hu.
  assert (Hno : forall x, In x tbl ->
            Db.targets uid (fun x => (id x =? id m)%string
                                     && (sender_id x =? uid)%string) x = false).
  { intros x Hx. unfold Db.targets.
    destruct (id x =? id m)%string eqn:E; simpl; [|reflexivity].
    apply String.eqb_eq in E.
    assert (x = m) by (eapply same_id_same_row; eassumption). subst x.
    destruct (sender_id m =? uid)%string eqn:E2; simpl; [|reflexivity].
    apply String.eqb_eq in E2. congruence. }
  rewrite update_ok.
  - f_equal. now apply map_untouched.
  - intros x Hx Ht. rewrite (Hno x Hx) in Ht. discriminate.
Qed.

(** The requests of the chat screen carry the user's id as a filter.  A
    delete or an edit issued from the screen changes the stored message
    when the user is its sender and leaves the table as it was when not; a
    mark-read sets the flag of an unread message of the counterpart when
    the user is its recipient and leaves it unread when not.  In no case is
    an alert raised: a request that matches no row is not refused.  The
    long-press menu that leads to edit and delete is offered on the user's
    own messages only. *)
Lemma screen_requests_go_by_owner (env : Chat.Env) (s : Chat.Session)
    (w : Chat.World) (m : Message) (uid : string) :
  Chat.user s = Some uid ->
  In m (Chat.table w) ->
  NoDup (map id (Chat.table w)) ->
  forallb Db.checks (Chat.table w) = true ->
  (Chat.handleMessageLongPress m s = true <-> uid = sender_id m)
  /\ (alerts (Chat.trace (snd (Chat.deleteMessage m s w))) = alerts (Chat.trace w)
      /\ (uid = sender_id m ->
          Chat.table (snd (Chat.deleteMessage m s w))
          = List.filter (fun x => negb (id x =? id m)%string) (Chat.table w)
          /\ ~ In m (Chat.table (snd (Chat.deleteMessage m s w))))
      /\ (uid <> sender_id m ->
          Chat.table (snd (Chat.deleteMessage m s w)) = Chat.table w))
  /\ (forall rid c,
        Chat.ids s = Some (uid, rid) -> Chat.sending s = false ->
        Chat.editingMessage s = Some m -> trim (Chat.newMessage s) = c ->
        c <> ""%string -> String.length c <= 1000 ->
        alerts (Chat.trace (snd (Chat.sendMessage env s w))) = alerts (Chat.trace w)
        /\ (uid = sender_id m ->
            Chat.table (snd (Chat.sendMessage env s w))
            = map (fun x => if (id x =? id m)%string then with_content c x else x)
                  (Chat.table w))
        /\ (uid <> sender_id m ->
            Chat.table (snd (Chat.sendMessage env s w)) = Chat.table w))
  /\ (Chat.route_id s = Some (sender_id m) -> sender_id m <> ""%string ->
      read m = false ->
      alerts (Chat.trace (Chat.markAsRead s w)) = alerts (Chat.trace w)
      /\ (uid = recipient_id m ->
          In (with_read true m) (Chat.table (Chat.markAsRead s w))
          /\ ~ In m (Chat.table (Chat.markAsRead s w)))
      /\ (uid <> recipient_id m -> In m (Chat.table (Chat.markAsRead s w)))).
Proof.
  intros Hu Hm Hnd Hv. repeat split.
  - unfold Chat.handleMessageLongPress. rewrite Hu. intros H.
    apply String.eqb_eq in H. congruence.
  - unfold Chat.handleMessageLongPress. rewrite Hu. intros ->.
    apply String.eqb_refl.
  - apply deleteMessage_alerts.
  - rewrite (deleteMessage_table m s w uid Hu). apply filter_ext_in.
    intros x Hx. destruct (id x =? id m)%string eqn:E; simpl; [|reflexivity].
    apply String.eqb_eq in E.
    assert (x = m) by (eapply same_id_same_row; eassumption). subst x.
    rewrite H. now rewrite String.eqb_refl.
  - rewrite (deleteMessage_table m s w uid Hu). intros Hin.
    apply filter_In in Hin. destruct Hin as [_ Hin].
    rewrite H, !String.eqb_refl in Hin. discriminate.
  - intros Hne. rewrite (deleteMessage_table m s w uid Hu). apply filter_all.
    intros x Hx. destruct (id x =? id m)%string eqn:E; simpl; [|reflexivity].
    apply String.eqb_eq in E.
    assert (x = m) by (eapply same_id_same_row; eassumption). subst x.
    destruct (sender_id m =? uid)%string eqn:E2; [|reflexivity].
    apply String.eqb_eq in E2. congruence.
  - rewrite (sendMessage_editing env s w uid rid m); try assumption.
    2:{ rewrite H2. now apply truthy_true. }
    unfold Chat.sendMessage_edit.
    destruct (Db.update _ _ _ _) eqn:E; simpl.
    + rewrite alerts_app. simpl. now rewrite app_nil_r.
    + exfalso. rewrite H2 in E.
      destruct (String.string_dec uid (sender_id m)) as [Heq|Hne].
      * rewrite edit_by_sender in E; try assumption. discriminate.
      * rewrite edit_by_other in E; try assumption. discriminate.
  - intros Heq. rewrite (sendMessage_editing env s w uid rid m); try assumption.
    2:{ rewrite H2. now apply truthy_true. }
    unfold Chat.sendMessage_edit. rewrite H2.
    rewrite edit_by_sender; try assumption. reflexivity.
  - intros Hne. rewrite (sendMessage_editing env s w uid rid m); try assumption.
    2:{ rewrite H2. now apply truthy_true. }
    unfold Chat.sendMessage_edit. rewrite H2.
    rewrite edit_by_other; try assumption. reflexivity.
  - apply markAsRead_alerts.
  - assert (Hids : Chat.ids s = Some (uid, sender_id m)).
    { unfold Chat.ids. rewrite Hu, H.
      assert (Ht : truthy (sender_id m) = true) by now apply truthy_true.
      now rewrite Ht. }
    rewrite (markAsRead_table s w uid (sender_id m) Hids Hv).
    apply in_map_iff. exists m. split; [|exact Hm].
    unfold unread_from. rewrite H2, String.eqb_refl, H1. now rewrite String.eqb_refl.
  - assert (Hids : Chat.ids s = Some (uid, sender_id m)).
    { unfold Chat.ids. rewrite Hu, H.
      assert (Ht : truthy (sender_id m) = true) by now apply truthy_true.
      now rewrite Ht. }
    rewrite (markAsRead_table s w uid (sender_id m) Hids Hv).
    intros Hin. apply in_map_iff in Hin. destruct Hin as (x & Hx & Hxin).
    destruct (unread_from (sender_id m) uid x) eqn:E.
    + apply (f_equal read) in Hx. simpl in Hx. congruence.
    + subst x. unfold unread_from in E.
      rewrite H2, String.eqb_refl, H1 in E. rewrite String.eqb_refl in E.
      discriminate.
  - intros Hne.
    assert (Hids : Chat.ids s = Some (uid, sender_id m)).
    { unfold Chat.ids. rewrite Hu, H.
      assert (Ht : truthy (sender_id m) = true) by now apply truthy_true.
      now rewrite Ht. }
    rewrite (markAsRead_table s w uid (sender_id m) Hids Hv).
    apply in_map_iff. exists m. split; [|exact Hm].
    unfold unread_from.
    destruct (recipient_id m =? uid)%string eqn:E.
    + apply String.eqb_eq in E. congruence.
    + now rewrite andb_false_r.
Qed.

Ltac distinct_ids :=
  repeat (constructor; [simpl; intuition discriminate|]); constructor.

Example screen_requests_of_alice_and_bob :
  (Chat.table (snd (Chat.deleteMessage Sample.hello Sample.alice_editing
                      (Sample.world [Sample.hello; Sample.reply])))
   = [Sample.reply]
   /\ Chat.table (snd (Chat.sendMessage (Sample.env None true) Sample.alice_editing
                         (Sample.world [Sample.hello; Sample.reply])))
      = [with_content "hello again" Sample.hello; Sample.reply])
  /\ (Chat.table (snd (Chat.deleteMessage Sample.hello Sample.bob_reading
                         (Sample.world [Sample.hello; Sample.reply])))
      = [Sample.hello; Sample.reply]
      /\ In (with_read true Sample.hello)
            (Chat.table (Chat.markAsRead Sample.bob_reading
                           (Sample.world [Sample.hello; Sample.reply])))).
Proof.
  assert (Hnd : NoDup (map id [Sample.hello; Sample.reply])) by distinct_ids.
  destruct (screen_requests_go_by_owner (Sample.env None true) Sample.alice_editing
              (Sample.world [Sample.hello; Sample.reply]) Sample.hello Sample.alice
              eq_refl (or_introl eq_refl) Hnd eq_refl)
    as (_ & (_ & Hdel & _) & Hedit & _).
  destruct (screen_requests_go_by_owner (Sample.env None true) Sample.bob_reading
              (Sample.world [Sample.hello; Sample.reply]) Sample.hello Sample.bob
              eq_refl (or_introl eq_refl) Hnd eq_refl)
    as (_ & (_ & _ & Hkeep) & _ & Hread).
  split; split.
  - exact (proj1 (Hdel eq_refl)).
  - assert (Hlen : String.length "hello again" <= 1000) by (simpl; lia).
    assert (Hne : "hello again"%string <> ""%string) by discriminate.
    exact (proj1 (proj2 (Hedit Sample.bob "hello again"%string
                           eq_refl eq_refl eq_refl eq_refl Hne Hlen)) eq_refl).
  - apply Hkeep. discriminate.
  - assert (Hne : sender_id Sample.hello <> ""%string) by discriminate.
    exact (proj1 (proj1 (proj2 (Hread eq_refl Hne eq_refl)) eq_refl)).
Qed.

(** Were [deleteMessage] called on a message of the counterpart, which
    the long-press menu does not offer, no alert would be raised and the
    message would leave the cache, as for a delete of one's own. *)
Example delete_by_recipient_is_not_refused :
  ~ (delete_reported_done Sample.hello
       (Sample.session Sample.bob Sample.alice [Sample.hello])
       (Sample.world [Sample.hello])
     <-> Chat.user (Sample.session Sample.bob Sample.alice [Sample.hello])
         = Some (sender_id Sample.hello)).
Proof.
  intros [H _].
  assert (Hdone : delete_reported_done Sample.hello
                    (Sample.session Sample.bob Sample.alice [Sample.hello])
                    (Sample.world [Sample.hello])).
  { split; [reflexivity | simpl; tauto]. }
  specialize (H Hdone). discriminate H.
Qed.

(** C2.  At the table, the recipient of a message edits it, and its
    sender marks it read.  The two update policies, "Recipients can mark
    messages read" and "Senders can update messages", are permissive and
    name no column, so each lets its party set any column of the row.
    Bob, the recipient of Alice's message m1, issues
    [update messages set content = 'changed' where id = 'm1']: the
    statement is accepted and the stored content is his.  Alice, the
    sender, issues [update messages set read = true where id = 'm1']: the
    statement is accepted and her own message is marked read. *)
Theorem C2_recipient_rewrites_content_at_the_store :
  Sample.bob <> sender_id Sample.hello
  /\ Db.update Sample.bob (fun x => (id x =? "m1")%string) (Db.set_content "changed")
               [Sample.hello; Sample.reply]
     = Db.Ok [with_content "changed" Sample.hello; Sample.reply]
  /\ content (with_content "changed" Sample.hello) <> content Sample.hello
  /\ Sample.alice <> recipient_id Sample.hello
  /\ Db.update Sample.alice (fun x => (id x =? "m1")%string) (Db.set_read true)
               [Sample.hello; Sample.reply]
     = Db.Ok [with_read true Sample.hello; Sample.reply]
  /\ read (with_read true Sample.hello) <> read Sample.hello.
Proof. repeat split; discriminate. Qed.

(** ** Upload first, then create *)

Lemma update_attachment_urls uid f a tbl t :
  Db.update uid f a tbl = Db.Ok t ->
  forall x, In x t -> exists m, In m tbl /\ attachment_url x = attachment_url m.
Proof.
  unfold Db.update. intros H x Hx.
  destruct (negb _) in H; [discriminate|].
  destruct (negb _) in H; [discriminate|].
  injection H as <-. apply in_map_iff in Hx. destruct Hx as (m & <- & Hm).
  exists m. split; [exact Hm|].
  destruct (Db.targets uid f m); [destruct a|]; reflexivity.
Qed.

Lemma insert_rows uid row tbl t :
  Db.insert uid row tbl = Db.Ok t -> t = tbl ++ [row].
Proof.
  unfold Db.insert. intros H.
  destruct (negb _) in H; [discriminate|].
  destruct (negb _) in H; [discriminate|].
  destruct (existsb _ _) in H; [discriminate|].
  now injection H as <-.
Qed.

(** What [uploadAttachment] leaves behind, by its result. *)
Lemma uploadAttachment_spec env a s w r s' w' :
  Chat.uploadAttachment env a s w = (r, s', w') ->
  Chat.table w' = Chat.table w
  /\ Chat.pendingAttachment s' = Chat.pendingAttachment s
  /\ Chat.newMessage s' = Chat.newMessage s
  /\ Chat.messages s' = Chat.messages s
  /\ Chat.sending s' = Chat.sending s
  /\ Chat.editingMessage s' = Chat.editingMessage s
  /\ (forall p, In p (Chat.bucket w) -> In p (Chat.bucket w'))
  /\ exists evs, Chat.trace w' = Chat.trace w ++ evs
       /\ (forall row ok, ~ In (Chat.messages_insert row ok) evs)
       /\ match r with
          | Some payload =>
              exists p, evs = [Chat.storage_upload p true]
                        /\ In p (Chat.bucket w')
                        /\ Chat.getPublicUrl env p = Some (Chat.payload_url payload)
          | None => True
          end.
Proof.
  unfold Chat.uploadAttachment. intros H.
  destruct (Chat.user s) as [uid|].
  2:{ injection H as <- <- <-. repeat split; try reflexivity; try tauto.
      exists []. rewrite app_nil_r. repeat split; tauto. }
  destruct (Chat.fetched env) as [n|].
  2:{ injection H as <- <- <-. repeat split; try reflexivity; try tauto.
      eexists. split; [reflexivity|]. split; [|exact I].
      intros row ok [Hf|[]]. discriminate. }
  destruct (Storage.upload _ _ _) as [b|] eqn:Eb.
  2:{ injection H as <- <- <-. repeat split; try reflexivity; try tauto.
      exists [Chat.storage_upload
                {| Storage.owner := uid; Storage.stamp := Chat.date_now env;
                   Storage.safeFileName :=
                     replace_space_runs false (PendingAttachment.fileName a) |} false;
              Chat.alert "Upload failed"].
      simpl. rewrite <- app_assoc. split; [reflexivity|]. split; [|exact I].
      intros row ok [Hf|[Hf|[]]]; discriminate. }
  assert (Hb : b = Chat.bucket w ++
                 [{| Storage.owner := uid; Storage.stamp := Chat.date_now env;
                     Storage.safeFileName :=
                       replace_space_runs false (PendingAttachment.fileName a) |}]).
  { unfold Storage.upload in Eb. destruct (negb _) in Eb; [discriminate|].
    destruct (existsb _ _) in Eb; [discriminate|]. now injection Eb as <-. }
  destruct (Chat.getPublicUrl env _) as [url|] eqn:Eu.
  - destruct (truthy url).
    + injection H as <- <- <-. repeat split; try reflexivity.
      * simpl. intros p Hp. rewrite Hb. apply in_or_app. now left.
      * eexists. split; [reflexivity|]. split.
        -- intros row ok [Hf|[]]. discriminate.
        -- eexists. split; [reflexivity|]. split; [|exact Eu].
           simpl. rewrite Hb. apply in_or_app. right. now left.
    + injection H as <- <- <-. repeat split; try reflexivity.
      * simpl. intros p Hp. rewrite Hb. apply in_or_app. now left.
      * eexists. simpl. rewrite <- app_assoc. split; [reflexivity|].
        split; [|exact I]. intros row ok [Hf|[Hf|[]]]; discriminate.
  - injection H as <- <- <-. repeat split; try reflexivity.
    + simpl. intros p Hp. rewrite Hb. apply in_or_app. now left.
    + eexists. simpl. rewrite <- app_assoc. split; [reflexivity|].
      split; [|exact I]. intros row ok [Hf|[Hf|[]]]; discriminate.
Qed.

Ltac no_insert H :=
  let Hin := fresh "Hin" in
  match type of H with
  | ?evs = ?pre ++ ?e :: ?post =>
      assert (Hin : In e evs) by (rewrite H; apply in_elt);
      simpl in Hin; intuition (try discriminate)
  end.

(** In one [sendMessage], a row with an attachment URL is inserted only
    after the upload of the object with that public URL has come back
    without error, and the object is in the bucket.  When the upload of the
    pending attachment fails, no insert is issued, the table is as before,
    and the pending attachment, the typed text and the cache are kept, with
    [sending] back to false.  Hence, if every attachment URL of the table
    was the URL of a stored object before the send, it is so after it. *)
Lemma send_inserts_after_upload (env : Chat.Env) (s : Chat.Session) (w : Chat.World) :
  exists evs,
    Chat.trace (snd (Chat.sendMessage env s w)) = Chat.trace w ++ evs
    /\ (forall pre post row u,
          evs = pre ++ Chat.messages_insert row true :: post ->
          attachment_url row = Some u ->
          exists p, In (Chat.storage_upload p true) pre
                    /\ Chat.getPublicUrl env p = Some u
                    /\ In p (Chat.bucket (snd (Chat.sendMessage env s w))))
    /\ (forall uid rid a,
          Chat.ids s = Some (uid, rid) -> Chat.sending s = false ->
          Chat.editingMessage s = None -> Chat.pendingAttachment s = Some a ->
          fst (fst (Chat.uploadAttachment env a (Chat.setSending true s) w)) = None ->
          (forall row ok, ~ In (Chat.messages_insert row ok) evs)
          /\ Chat.table (snd (Chat.sendMessage env s w)) = Chat.table w
          /\ Chat.pendingAttachment (fst (Chat.sendMessage env s w)) = Some a
          /\ Chat.newMessage (fst (Chat.sendMessage env s w)) = Chat.newMessage s
          /\ Chat.messages (fst (Chat.sendMessage env s w)) = Chat.messages s
          /\ Chat.sending (fst (Chat.sendMessage env s w)) = false)
    /\ (attachments_uploaded (Chat.getPublicUrl env) w ->
        attachments_uploaded (Chat.getPublicUrl env) (snd (Chat.sendMessage env s w))).
Proof.
  unfold Chat.sendMessage.
  destruct (Chat.ids s) as [[uid rid]|] eqn:Hids.
  2:{ exists []. simpl. split; [now rewrite app_nil_r|].
      split; [intros pre post row u H; destruct pre; discriminate H|].
      split; [intros; discriminate | intros Hinv; exact Hinv]. }
  destruct (Chat.sending s) eqn:Hs.
  { exists []. simpl. split; [now rewrite app_nil_r|].
    split; [intros pre post row u H; destruct pre; discriminate H|].
    split; [intros; discriminate | intros Hinv; exact Hinv]. }
  destruct (negb (truthy (trim (Chat.newMessage s)))
            && negb (isSome (Chat.pendingAttachment s))) eqn:G1.
  { exists []. simpl. split; [now rewrite app_nil_r|].
    split; [intros pre post row u H; destruct pre; discriminate H|].
    split; [|intros Hinv; exact Hinv].
    intros ? ? ? _ _ _ Hp. rewrite Hp in G1. simpl in G1.
    rewrite andb_false_r in G1. discriminate. }
  destruct (isSome (Chat.editingMessage s)
            && negb (truthy (trim (Chat.newMessage s)))) eqn:G2.
  { exists []. simpl. split; [now rewrite app_nil_r|].
    split; [intros pre post row u H; destruct pre; discriminate H|].
    split; [|intros Hinv; exact Hinv].
    intros ? ? ? _ _ He. rewrite He in G2. discriminate. }
  destruct (Chat.editingMessage s) as [em|] eqn:He.
  { unfold Chat.sendMessage_edit.
    destruct (Db.update _ _ _ _) as [t|e] eqn:Eu; simpl.
    - eexists. split; [reflexivity|]. split; [|split].
      + intros pre post row u H. no_insert H.
      + intros; discriminate.
      + intros Hinv m u Hm Hu. simpl in *.
        destruct (update_attachment_urls _ _ _ _ _ Eu m Hm) as (m0 & Hm0 & Hsame).
        rewrite Hsame in Hu. exact (Hinv m0 u Hm0 Hu).
    - eexists. rewrite <- app_assoc. split; [reflexivity|]. split; [|split].
      + intros pre post row u H. no_insert H.
      + intros; discriminate.
      + intros Hinv. exact Hinv. }
  destruct (Chat.pendingAttachment s) as [pending|] eqn:Hp.
  - destruct (Chat.uploadAttachment env pending (Chat.setSending true s) w)
      as [[r s2] w2] eqn:Eup.
    destruct (uploadAttachment_spec _ _ _ _ _ _ _ Eup)
      as (Ht & Hpa & Hnm & Hms & Hsd & Hed & Hbk & evs & Htr & Hni & Hr).
    destruct r as [payload|].
    + destruct Hr as (fp & -> & Hfp & Hurl).
      unfold Chat.sendMessage_insert.
      destruct (Db.insert _ _ _) as [t|e] eqn:Ei; simpl.
      * eexists. rewrite Htr, <- app_assoc. split; [reflexivity|].
        split; [|split].
        -- intros pre post row u H Hu.
           destruct pre as [|e1 pre]; simpl in H; [discriminate|].
           injection H as <- H.
           destruct pre as [|e2 pre]; simpl in H.
           ++ injection H as <- _. simpl in Hu. injection Hu as <-.
              exists fp. repeat split; [now left | exact Hurl | exact Hfp].
           ++ injection H as _ H. destruct pre; discriminate H.
        -- intros ? ? a _ _ _ Ha Hnone. injection Ha as <-.
           rewrite Eup in Hnone. discriminate Hnone.
        -- intros Hinv m u Hm Hu. simpl in *.
           apply insert_rows in Ei. subst t. rewrite Ht in Hm.
           apply in_app_or in Hm. destruct Hm as [Hm|[<-|[]]].
           ++ destruct (Hinv m u Hm Hu) as (p & Hpin & Hpu).
              exists p. split; [now apply Hbk | exact Hpu].
           ++ simpl in Hu. injection Hu as <-. exists fp. now split.
      * eexists. rewrite Htr, <- !app_assoc. split; [reflexivity|].
        split; [|split].
        -- intros pre post row u H. no_insert H.
        -- intros ? ? a _ _ _ Ha Hnone. injection Ha as <-.
           rewrite Eup in Hnone. discriminate Hnone.
        -- intros Hinv m u Hm Hu. simpl in *. rewrite Ht in Hm.
           destruct (Hinv m u Hm Hu) as (p & Hpin & Hpu).
           exists p. split; [now apply Hbk | exact Hpu].
    + simpl. exists evs. split; [exact Htr|]. split; [|split].
      * intros pre post row u H. exfalso. apply (Hni row true).
        rewrite H. apply in_elt.
      * intros ? ? a _ _ _ Ha _. injection Ha as <-.
        split; [exact Hni|]. split; [exact Ht|].
        split; [rewrite Hpa; simpl; congruence|].
        split; [rewrite Hnm; reflexivity|].
        split; [rewrite Hms; reflexivity | reflexivity].
      * intros Hinv m u Hm Hu. rewrite Ht in Hm.
        destruct (Hinv m u Hm Hu) as (p & Hpin & Hpu).
        exists p. split; [now apply Hbk | exact Hpu].
  - unfold Chat.sendMessage_insert.
    destruct (Db.insert _ _ _) as [t|e] eqn:Ei; simpl.
    + eexists. split; [reflexivity|]. split; [|split].
      * intros pre post row u H Hu.
        destruct pre as [|e1 pre]; simpl in H.
        -- injection H as <- _. discriminate Hu.
        -- injection H as _ H. destruct pre; discriminate H.
      * intros; discriminate.
      * intros Hinv m u Hm Hu. simpl in *.
        apply insert_rows in Ei. subst t.
        apply in_app_or in Hm. destruct Hm as [Hm|[<-|[]]].
        -- exact (Hinv m u Hm Hu).
        -- discriminate Hu.
    + eexists. rewrite <- app_assoc. split; [reflexivity|]. split; [|split].
      * intros pre post row u H. no_insert H.
      * intros; discriminate.
      * intros Hinv. exact Hinv.
Qed.

Example send_photo_calls :
  alerts (Chat.trace (snd (Chat.sendMessage (Sample.env (Some 2048%N) true)
                             Sample.alice_attaching
                             (Sample.world [Sample.hello; Sample.reply])))) = []
  /\ map attachment_url
       (Chat.table (snd (Chat.sendMessage (Sample.env (Some 2048%N) true)
                           Sample.alice_attaching
                           (Sample.world [Sample.hello; Sample.reply]))))
     = [None; None; Some "https://cdn.example/alice/cat-picture.jpg"%string]
  /\ map Storage.safeFileName
       (Chat.bucket (snd (Chat.sendMessage (Sample.env (Some 2048%N) true)
                            Sample.alice_attaching
                            (Sample.world [Sample.hello; Sample.reply]))))
     = ["cat-picture.jpg"%string].
Proof. repeat split. Qed.

(** A send with a pending attachment, past the guards, is the upload
    followed, when it has given a payload, by the insert. *)
Lemma sendMessage_attaching env s w uid rid a :
  Chat.ids s = Some (uid, rid) -> Chat.sending s = false ->
  Chat.editingMessage s = None -> Chat.pendingAttachment s = Some a ->
  Chat.sendMessage env s w
  = match Chat.uploadAttachment env a (Chat.setSending true s) w with
    | (None, s2, w2) => (Chat.setSending false s2, w2)
    | (Some p, s2, w2) =>
        Chat.sendMessage_insert env uid rid (trim (Chat.newMessage s)) (Some p) s2 w2
    end.
Proof.
  intros Hids Hs He Hp. unfold Chat.sendMessage. rewrite Hids, Hs, He, Hp.
  simpl. now rewrite andb_false_r.
Qed.

Lemma failed_upload_alerts env a s w s' w' uid :
  Chat.user s = Some uid ->
  Chat.uploadAttachment env a s w = (None, s', w') ->
  alerts (Chat.trace w') = alerts (Chat.trace w) ++ ["Upload failed"%string].
Proof.
  unfold Chat.uploadAttachment. intros Hu H. rewrite Hu in H.
  destruct (Chat.fetched env) as [n|].
  2:{ injection H as <- <-. simpl. now rewrite alerts_app. }
  destruct (Storage.upload _ _ _) as [b|].
  2:{ injection H as <- <-. simpl. rewrite !alerts_app. simpl.
      now rewrite app_nil_r. }
  destruct (Chat.getPublicUrl env _) as [url|].
  - destruct (truthy url); [discriminate|].
    injection H as <- <-. simpl. rewrite !alerts_app. simpl.
    now rewrite app_nil_r.
  - injection H as <- <-. simpl. rewrite !alerts_app. simpl.
    now rewrite app_nil_r.
Qed.

(** C3.  A send with a pending attachment uploads first and creates the
    message afterwards, with the attachment.  When the upload gives a
    payload, the send is exactly: the accepted upload of an object, which
    the bucket then holds, followed by the insert of a row whose attachment
    URL is the public URL of that object; the row is stored when the table
    takes it, and "Message failed" is raised when it does not.  When the
    upload fails, "Upload failed" is raised, no insert is issued, the table
    is as before, and the pending attachment, the typed text and the cache
    are kept, with [sending] back to false.  In any send, a row with an
    attachment URL is inserted only after the accepted upload of the object
    with that URL; so if every attachment URL of the table was the URL of a
    stored object before the send, it is so after it. *)
Theorem C3_upload_before_create (env : Chat.Env) (s : Chat.Session) (w : Chat.World) :
  (exists evs,
     Chat.trace (snd (Chat.sendMessage env s w)) = Chat.trace w ++ evs
     /\ (forall pre post row u,
           evs = pre ++ Chat.messages_insert row true :: post ->
           attachment_url row = Some u ->
           exists p, In (Chat.storage_upload p true) pre
                     /\ Chat.getPublicUrl env p = Some u
                     /\ In p (Chat.bucket (snd (Chat.sendMessage env s w))))
     /\ (forall uid rid a,
           Chat.ids s = Some (uid, rid) -> Chat.sending s = false ->
           Chat.editingMessage s = None -> Chat.pendingAttachment s = Some a ->
           fst (fst (Chat.uploadAttachment env a (Chat.setSending true s) w)) = None ->
           (forall row ok, ~ In (Chat.messages_insert row ok) evs)
           /\ Chat.table (snd (Chat.sendMessage env s w)) = Chat.table w
           /\ Chat.pendingAttachment (fst (Chat.sendMessage env s w)) = Some a
           /\ Chat.newMessage (fst (Chat.sendMessage env s w)) = Chat.newMessage s
           /\ Chat.messages (fst (Chat.sendMessage env s w)) = Chat.messages s
           /\ Chat.sending (fst (Chat.sendMessage env s w)) = false)
     /\ (attachments_uploaded (Chat.getPublicUrl env) w ->
         attachments_uploaded (Chat.getPublicUrl env) (snd (Chat.sendMessage env s w))))
  /\ (forall uid rid a,
        Chat.ids s = Some (uid, rid) -> Chat.sending s = false ->
        Chat.editingMessage s = None -> Chat.pendingAttachment s = Some a ->
        (fst (fst (Chat.uploadAttachment env a (Chat.setSending true s) w)) = None ->
         alerts (Chat.trace (snd (Chat.sendMessage env s w)))
         = alerts (Chat.trace w) ++ ["Upload failed"%string])
        /\ (forall payload,
              fst (fst (Chat.uploadAttachment env a (Chat.setSending true s) w))
              = Some payload ->
              exists p ok,
                Chat.trace (snd (Chat.sendMessage env s w))
                = Chat.trace w
                  ++ Chat.storage_upload p true
                  :: Chat.messages_insert
                       (Chat.new_row env uid rid (trim (Chat.newMessage s))
                          (Some payload)) ok
                  :: (if ok then [] else [Chat.alert "Message failed"])
                /\ In p (Chat.bucket (snd (Chat.sendMessage env s w)))
                /\ Chat.getPublicUrl env p = Some (Chat.payload_url payload)
                /\ attachment_url
                     (Chat.new_row env uid rid (trim (Chat.newMessage s)) (Some payload))
                   = Some (Chat.payload_url payload)
                /\ (ok = true
                    <-> Db.insert uid
                          (Chat.new_row env uid rid (trim (Chat.newMessage s))
                             (Some payload))
                          (Chat.table w)
                        = Db.Ok (Chat.table w
                                 ++ [Chat.new_row env uid rid (trim (Chat.newMessage s))
                                       (Some payload)]))
                /\ Chat.table (snd (Chat.sendMessage env s w))
                   = (if ok
                      then Chat.table w
                           ++ [Chat.new_row env uid rid (trim (Chat.newMessage s))
                                 (Some payload)]
                      else Chat.table w))).
Proof.
  split; [apply send_inserts_after_upload|].
  intros uid rid a Hids Hs He Hp.
  rewrite (sendMessage_attaching env s w uid rid a Hids Hs He Hp).
  assert (Hu : Chat.user (Chat.setSending true s) = Some uid).
  { unfold Chat.ids in Hids. simpl. destruct (Chat.user s) as [u|]; [|discriminate].
    destruct (Chat.route_id s) as [r|]; [|discriminate].
    destruct (truthy r); [|discriminate]. now injection Hids as <- _. }
  destruct (Chat.uploadAttachment env a (Chat.setSending true s) w)
    as [[[payload|] s2] w2] eqn:Hup; simpl; split.
  - discriminate.
  - intros payload' Hpay. injection Hpay as <-.
    destruct (uploadAttachment_spec _ _ _ _ _ _ _ Hup)
      as (Htb & _ & _ & _ & _ & _ & _ & evs & Htr & _ & p & -> & Hin & Hurl).
    set (row := Chat.new_row env uid rid (trim (Chat.newMessage s)) (Some payload)).
    unfold Chat.sendMessage_insert. fold row. rewrite Htb.
    destruct (Db.insert uid row (Chat.table w)) as [t|e] eqn:Hi.
    + exists p, true. simpl. rewrite (insert_rows _ _ _ _ Hi) in *.
      rewrite Htr, <- app_assoc. simpl.
      repeat split; auto.
    + exists p, false. simpl. rewrite Htr, <- !app_assoc. simpl.
      repeat split; auto; discriminate.
  - intros _. exact (failed_upload_alerts _ _ _ _ _ _ uid Hu Hup).
  - discriminate.
Qed.

Lemma C3_witness :
  (Chat.table (snd (Chat.sendMessage (Sample.env None true) Sample.alice_attaching
                      (Sample.world [Sample.hello; Sample.reply])))
   = [Sample.hello; Sample.reply]
   /\ Chat.pendingAttachment
        (fst (Chat.sendMessage (Sample.env None true) Sample.alice_attaching
                (Sample.world [Sample.hello; Sample.reply])))
      = Some Sample.photo
   /\ Chat.newMessage
        (fst (Chat.sendMessage (Sample.env None true) Sample.alice_attaching
                (Sample.world [Sample.hello; Sample.reply])))
      = "look at this "%string
   /\ alerts (Chat.trace
                (snd (Chat.sendMessage (Sample.env None true) Sample.alice_attaching
                        (Sample.world [Sample.hello; Sample.reply]))))
      = ["Upload failed"%string])
  /\ (exists p,
        Chat.trace (snd (Chat.sendMessage (Sample.env (Some 2048%N) true)
                           Sample.alice_attaching
                           (Sample.world [Sample.hello; Sample.reply])))
        = [Chat.storage_upload p true; Chat.messages_insert Sample.sent_photo true]
        /\ Chat.getPublicUrl (Sample.env (Some 2048%N) true) p
           = attachment_url Sample.sent_photo
        /\ Chat.table (snd (Chat.sendMessage (Sample.env (Some 2048%N) true)
                              Sample.alice_attaching
                              (Sample.world [Sample.hello; Sample.reply])))
           = [Sample.hello; Sample.reply; Sample.sent_photo]).
Proof.
  split.
  - destruct (C3_upload_before_create (Sample.env None true) Sample.alice_attaching
                (Sample.world [Sample.hello; Sample.reply]))
      as ((evs & _ & _ & Habort & _) & Hsend).
    destruct (Habort Sample.alice Sample.bob Sample.photo
                eq_refl eq_refl eq_refl eq_refl eq_refl)
      as (_ & Ht & Hp & Hn & _).
    destruct (Hsend Sample.alice Sample.bob Sample.photo
                eq_refl eq_refl eq_refl eq_refl) as (Hal & _).
    split; [exact Ht | split; [exact Hp | split; [exact Hn | exact (Hal eq_refl)]]].
  - destruct (C3_upload_before_create (Sample.env (Some 2048%N) true)
                Sample.alice_attaching (Sample.world [Sample.hello; Sample.reply]))
      as (_ & Hsend).
    destruct (Hsend Sample.alice Sample.bob Sample.photo
                eq_refl eq_refl eq_refl eq_refl) as (_ & Hok).
    destruct (Hok _ eq_refl) as (p & ok & Htr & _ & Hurl & _ & Hiff & Htb).
    assert (Ht : ok = true) by (apply Hiff; reflexivity).
    subst ok. exists p. split; [exact Htr | split; [exact Hurl | exact Htb]].
Defined.

(** ** The change feed *)

Lemma ids_setMessages f s : Chat.ids (Chat.setMessages f s) = Chat.ids s.
Proof. reflexivity. Qed.

Lemma isRelevant_setMessages f s m :
  Chat.isRelevantMessage (Chat.setMessages f s) m = Chat.isRelevantMessage s m.
Proof. reflexivity. Qed.

Lemma fetchMessages_messages s w uid rid :
  Chat.ids s = Some (uid, rid) ->
  Chat.messages (Chat.fetchMessages s w)
  = Db.select uid (Chat.between uid rid) Db.ascending (Chat.table w).
Proof.
  intros H. unfold Chat.fetchMessages. now rewrite H.
Qed.

Lemma isRelevant_fetchMessages s w m :
  Chat.isRelevantMessage (Chat.fetchMessages s w) m = Chat.isRelevantMessage s m.
Proof.
  unfold Chat.fetchMessages. destruct (Chat.ids s) as [[uid rid]|]; reflexivity.
Qed.

Lemma fetchMessages_In s w m :
  In m (Chat.messages (Chat.fetchMessages s w)) ->
  Chat.ids s = None \/ In m (Chat.table w).
Proof.
  unfold Chat.fetchMessages. destruct (Chat.ids s) as [[uid rid]|]; [|now left].
  simpl. intros H. apply select_In in H. right. apply H.
Qed.

Lemma relevant_between s m uid rid :
  Chat.ids s = Some (uid, rid) ->
  Chat.isRelevantMessage s m = Chat.between uid rid m.
Proof.
  intros H. unfold Chat.isRelevantMessage, Chat.between. now rewrite H.
Qed.

Lemma between_can_read uid rid m :
  Chat.between uid rid m = true -> Db.participants_can_read uid m = true.
Proof.
  unfold Chat.between, Db.participants_can_read. intros H.
  apply orb_true_iff in H. apply orb_true_iff.
  destruct H as [H|H]; apply andb_true_iff in H; destruct H as [H1 H2].
  - left. now rewrite String.eqb_sym.
  - right. now rewrite String.eqb_sym.
Qed.

Lemma map_fixed {A : Type} (h : A -> A) (l : list A) :
  (forall x, In x l -> h x = x) -> map h l = l.
Proof.
  intros H. induction l as [|x r IH]; simpl; [reflexivity|].
  rewrite (H x (or_introl eq_refl)), IH; [reflexivity|].
  intros y Hy. apply H. now right.
Qed.

Lemma unread_after_mark rid uid tbl :
  stored_unread rid uid
    (map (fun m => if unread_from rid uid m then with_read true m else m) tbl) = 0.
Proof.
  unfold stored_unread. induction tbl as [|m r IH]; simpl; [reflexivity|].
  destruct (unread_from rid uid m) eqn:E.
  - unfold unread_from at 1. simpl. rewrite andb_false_r. exact IH.
  - rewrite E. exact IH.
Qed.

(** An insert event that is not relevant to the conversation changes
    nothing.  A relevant one is appended to the cache, with no look at the
    ids the cache holds; when its sender is the counterpart, [markAsRead]
    runs, after which the table holds no unread message of the counterpart
    to the user; otherwise the table is not touched. *)
Lemma insert_event (s : Chat.Session) (w : Chat.World) (newMsg : Message) :
  (Chat.isRelevantMessage s newMsg = false ->
   Chat.postgres_changes (Chat.INSERT newMsg) s w = (s, w))
  /\ (Chat.isRelevantMessage s newMsg = true ->
      Chat.messages (fst (Chat.postgres_changes (Chat.INSERT newMsg) s w))
      = Chat.messages s ++ [newMsg]
      /\ (Chat.route_id s = Some (sender_id newMsg) ->
          snd (Chat.postgres_changes (Chat.INSERT newMsg) s w) = Chat.markAsRead s w
          /\ (forall uid, Chat.user s = Some uid ->
                forallb Db.checks (Chat.table w) = true ->
                stored_unread (sender_id newMsg) uid
                  (Chat.table (snd (Chat.postgres_changes (Chat.INSERT newMsg) s w)))
                = 0))
      /\ (Chat.route_id s <> Some (sender_id newMsg) ->
          snd (Chat.postgres_changes (Chat.INSERT newMsg) s w) = w)).
Proof.
  split.
  - intros H. simpl. now rewrite H.
  - intros H. simpl. rewrite H. simpl. split; [reflexivity|]. split.
    + intros Hr. rewrite Hr, String.eqb_refl. split; [reflexivity|].
      intros uid Hu Hv.
      assert (Hids : Chat.ids s = Some (uid, sender_id newMsg)).
      { unfold Chat.isRelevantMessage in H. unfold Chat.ids in *.
        rewrite Hu, Hr in *. destruct (truthy (sender_id newMsg));
          [reflexivity | discriminate]. }
      rewrite (markAsRead_table s w uid (sender_id newMsg) Hids Hv).
      apply unread_after_mark.
    + intros Hr. destruct (Chat.route_id s) as [rid|]; [|reflexivity].
      destruct (sender_id newMsg =? rid)%string eqn:E; [|reflexivity].
      apply String.eqb_eq in E. congruence.
Qed.

Example insert_event_of_the_counterpart :
  Chat.messages (fst (Chat.postgres_changes (Chat.INSERT Sample.reply)
                        (Sample.session Sample.alice Sample.bob [Sample.hello])
                        (Sample.world [Sample.hello; Sample.reply])))
  = [Sample.hello; Sample.reply]
  /\ stored_unread Sample.bob Sample.alice
       (Chat.table (snd (Chat.postgres_changes (Chat.INSERT Sample.reply)
                           (Sample.session Sample.alice Sample.bob [Sample.hello])
                           (Sample.world [Sample.hello; Sample.reply]))))
     = 0.
Proof.
  destruct (insert_event (Sample.session Sample.alice Sample.bob [Sample.hello])
              (Sample.world [Sample.hello; Sample.reply]) Sample.reply)
    as (_ & H).
  destruct (H eq_refl) as (Happ & Hmark & _).
  split; [exact Happ|].
  exact (proj2 (Hmark eq_refl) Sample.alice eq_refl eq_refl).
Qed.

(** C4.  The insert handler appends a message whose id the cache already
    holds.  Alice sends "see you" to Bob: [sendMessage] stores the row and
    appends it to her cache.  The change feed then delivers the insert
    event of that very row to her open screen, where it is relevant, and
    the handler appends it a second time: the cache, which the list draws
    keyed by id, holds the ids m1, m9, m9.  The update and delete handlers
    beside it go by id. *)
Theorem C4_own_send_is_doubled_by_its_echo :
  Chat.table (snd (Chat.sendMessage (Sample.env None true) Sample.alice_typing
                     (Sample.world [Sample.hello])))
  = [Sample.hello; Sample.sent]
  /\ Chat.messages (fst (Chat.sendMessage (Sample.env None true) Sample.alice_typing
                           (Sample.world [Sample.hello])))
     = [Sample.hello; Sample.sent]
  /\ Chat.isRelevantMessage
       (fst (Chat.sendMessage (Sample.env None true) Sample.alice_typing
               (Sample.world [Sample.hello])))
       Sample.sent = true
  /\ present Sample.sent
       (Chat.messages (fst (Chat.sendMessage (Sample.env None true) Sample.alice_typing
                              (Sample.world [Sample.hello])))) = true
  /\ Chat.messages
       (fst (Chat.postgres_changes (Chat.INSERT Sample.sent)
               (fst (Chat.sendMessage (Sample.env None true) Sample.alice_typing
                       (Sample.world [Sample.hello])))
               (snd (Chat.sendMessage (Sample.env None true) Sample.alice_typing
                       (Sample.world [Sample.hello])))))
     = [Sample.hello; Sample.sent; Sample.sent]
  /\ map id
       (Chat.messages
          (fst (Chat.postgres_changes (Chat.INSERT Sample.sent)
                  (fst (Chat.sendMessage (Sample.env None true) Sample.alice_typing
                          (Sample.world [Sample.hello])))
                  (snd (Chat.sendMessage (Sample.env None true) Sample.alice_typing
                          (Sample.world [Sample.hello]))))))
     = ["m1"; "m9"; "m9"]%string.
Proof. repeat split. Qed.

Lemma irrelevant_without_ids s m :
  Chat.ids s = None -> Chat.isRelevantMessage s m = false.
Proof.
  intros H. unfold Chat.isRelevantMessage. now rewrite H.
Qed.



Lemma irrelevant_old_without_ids s o :
  Chat.ids s = None -> Chat.isRelevantOld s o = false.
Proof.
  intros H. unfold Chat.isRelevantOld. now rewrite H.
Qed.

Lemma isRelevantOld_fetchMessages s w o :
  Chat.isRelevantOld (Chat.fetchMessages s w) o = Chat.isRelevantOld s o.
Proof.
  unfold Chat.fetchMessages. destruct (Chat.ids s) as [[uid rid]|]; reflexivity.
Qed.

Lemma postgres_changes_cache payload s w :
  exists f, fst (Chat.postgres_changes payload s w) = Chat.setMessages f s
            /\ (Chat.ids s = None -> fst (Chat.postgres_changes payload s w) = s).
Proof.
  assert (Hid : s = Chat.setMessages (fun l => l) s) by now destruct s.
  destruct payload as [m|m|[o|]]; simpl.
  - destruct (Chat.isRelevantMessage s m) eqn:E; simpl.
    + eexists. split; [reflexivity|]. intros H.
      rewrite irrelevant_without_ids in E by exact H. discriminate.
    + exists (fun l => l). split; [exact Hid | reflexivity].
  - destruct (Chat.isRelevantMessage s m) eqn:E; simpl.
    + eexists. split; [reflexivity|]. intros H.
      rewrite irrelevant_without_ids in E by exact H. discriminate.
    + exists (fun l => l). split; [exact Hid | reflexivity].
  - destruct (Chat.old_id o) as [i|];
      [|exists (fun l => l); split; [exact Hid | reflexivity]].
    destruct (Chat.isRelevantOld s o) eqn:E; simpl.
    + destruct (truthy i); simpl.
      * eexists. split; [reflexivity|]. intros H.
        rewrite irrelevant_old_without_ids in E by exact H. discriminate.
      * exists (fun l => l). split; [exact Hid | reflexivity].
    + rewrite andb_false_r. exists (fun l => l). split; [exact Hid | reflexivity].
  - exists (fun l => l). split; [exact Hid | reflexivity].
Qed.

(** A poll after a feed event gives what the poll alone gives, for every
    event.  A feed event that comes after the poll which already shows it
    changes nothing when it is an update whose row is the stored one, or a
    delete whose id no stored row has, given the primary key.  An insert
    event that comes after a poll which already holds the message appends
    it again. *)
Lemma feed_and_poll (s : Chat.Session) (w : Chat.World) :
  (forall payload w0 w1,
     Chat.fetchMessages (fst (Chat.postgres_changes payload s w0)) w1
     = Chat.fetchMessages s w1)
  /\ (forall u, NoDup (map id (Chat.table w)) -> In u (Chat.table w) ->
        Chat.messages (fst (Chat.postgres_changes (Chat.UPDATE u)
                              (Chat.fetchMessages s w) w))
        = Chat.messages (Chat.fetchMessages s w))
  /\ (forall o, (forall x, In x (Chat.table w) -> Chat.old_id o <> Some (id x)) ->
        Chat.messages (fst (Chat.postgres_changes (Chat.DELETE (Some o))
                              (Chat.fetchMessages s w) w))
        = Chat.messages (Chat.fetchMessages s w))
  /\ (forall m, In m (Chat.table w) -> Chat.isRelevantMessage s m = true ->
        In m (Chat.messages (Chat.fetchMessages s w))
        /\ Chat.messages (fst (Chat.postgres_changes (Chat.INSERT m)
                                 (Chat.fetchMessages s w) w))
           = Chat.messages (Chat.fetchMessages s w) ++ [m]).
Proof.
  split; [|split; [|split]].
  - intros payload w0 w1.
    destruct (postgres_changes_cache payload s w0) as (f & Hf & Hnone).
    destruct (Chat.ids s) as [[uid rid]|] eqn:Hids.
    + rewrite Hf. unfold Chat.fetchMessages. rewrite ids_setMessages, Hids.
      reflexivity.
    + now rewrite (Hnone eq_refl).
  - intros u Hnd Hu. simpl. rewrite isRelevant_fetchMessages.
    destruct (Chat.isRelevantMessage s u) eqn:E; [|reflexivity].
    simpl. apply map_fixed. intros x Hx.
    destruct (id x =? id u)%string eqn:Ex; [|reflexivity].
    apply String.eqb_eq in Ex. unfold Chat.spread. symmetry.
    destruct (fetchMessages_In s w x Hx) as [Hn|Hin].
    + rewrite irrelevant_without_ids in E by exact Hn. discriminate.
    + eapply same_id_same_row; eassumption.
  - intros o Hgone. simpl. destruct (Chat.old_id o) as [i|] eqn:Hi; [|reflexivity].
    rewrite isRelevantOld_fetchMessages.
    destruct (truthy i && Chat.isRelevantOld s o) eqn:E; [|reflexivity].
    simpl. apply filter_all. intros x Hx.
    destruct (fetchMessages_In s w x Hx) as [Hn|Hin].
    + rewrite irrelevant_old_without_ids in E by exact Hn.
      rewrite andb_false_r in E. discriminate.
    + apply negb_true_iff, String.eqb_neq. intros Heq.
      apply (Hgone x Hin). now rewrite Heq.
  - intros m Hm Hrel. split.
    + destruct (Chat.ids s) as [[uid rid]|] eqn:Hids.
      * rewrite (fetchMessages_messages s w uid rid Hids).
        rewrite (relevant_between s m uid rid Hids) in Hrel.
        apply select_In. split; [exact Hm|]. split; [|exact Hrel].
        eapply between_can_read; eassumption.
      * rewrite irrelevant_without_ids in Hrel by exact Hids. discriminate.
    + simpl. rewrite isRelevant_fetchMessages, Hrel. reflexivity.
Qed.

Example update_and_delete_after_the_poll :
  Chat.messages
    (fst (Chat.postgres_changes (Chat.UPDATE Sample.hello)
            (Chat.fetchMessages (Sample.session Sample.alice Sample.bob [])
               (Sample.world [Sample.hello; Sample.reply]))
            (Sample.world [Sample.hello; Sample.reply])))
  = [Sample.hello; Sample.reply]
  /\ Chat.messages
       (fst (Chat.postgres_changes (Chat.DELETE (Some (Chat.old_row Sample.aside)))
               (Chat.fetchMessages (Sample.session Sample.alice Sample.bob [])
                  (Sample.world [Sample.hello; Sample.reply]))
               (Sample.world [Sample.hello; Sample.reply])))
     = [Sample.hello; Sample.reply].
Proof. split; reflexivity. Qed.

(** C5.  The poll has fetched a new message, then the insert event of that
    message arrives at the handler: the cache holds the message twice,
    where the poll alone, one application of the event, holds it once.
    The insert handler appends without the look at the id that the update
    and delete handlers beside it take. *)
Theorem C5_insert_after_poll_is_doubled :
  Chat.messages (Chat.fetchMessages (Sample.session Sample.alice Sample.bob [])
                   (Sample.world [Sample.hello]))
  = [Sample.hello]
  /\ Chat.messages
       (fst (Chat.postgres_changes (Chat.INSERT Sample.hello)
               (Chat.fetchMessages (Sample.session Sample.alice Sample.bob [])
                  (Sample.world [Sample.hello]))
               (Sample.world [Sample.hello])))
     = [Sample.hello; Sample.hello].
Proof. split; reflexivity. Qed.

(** ** What [fetchMessages] lists *)

Lemma between_iff a b m :
  Chat.between a b m = true
  <-> (sender_id m = a /\ recipient_id m = b) \/ (sender_id m = b /\ recipient_id m = a).
Proof.
  unfold Chat.between. rewrite orb_true_iff, !andb_true_iff, !String.eqb_eq.
  tauto.
Qed.

Lemma sorted_ascending l :
  StronglySorted by_created_at (Db.order_by Db.ascending l).
Proof.
  pose proof (order_by_sorted Db.ascending l) as H.
  induction H as [|x r Hs IH Hall]; constructor; [exact IH|].
  eapply Forall_impl; [|exact Hall].
  intros y Hy. simpl in Hy. unfold by_created_at. now apply Z.leb_le.
Qed.

(** C6, as the code has it.  The fetch of the chat screen returns the
    stored messages of the pair, in either direction, each as often as the
    table holds it and no other, in non-decreasing [created_at] order.  No
    second sort key is given. *)
Theorem C6_fetchMessages_lists_the_pair (s : Chat.Session) (w : Chat.World)
    (a b : string) :
  Chat.ids s = Some (a, b) ->
  (forall m, In m (Chat.messages (Chat.fetchMessages s w))
             <-> In m (Chat.table w)
                 /\ ((sender_id m = a /\ recipient_id m = b)
                     \/ (sender_id m = b /\ recipient_id m = a)))
  /\ Permutation (Chat.messages (Chat.fetchMessages s w))
                 (List.filter (Chat.between a b) (Chat.table w))
  /\ StronglySorted by_created_at (Chat.messages (Chat.fetchMessages s w)).
Proof.
  intros Hids. rewrite (fetchMessages_messages s w a b Hids).
  split; [|split].
  - intros m. rewrite select_In, <- between_iff. split.
    + tauto.
    + intros [Hm Hb]. split; [exact Hm|]. split; [|exact Hb].
      eapply between_can_read; eassumption.
  - unfold Db.select. eapply Permutation_trans; [apply order_by_perm|].
    erewrite filter_ext_in; [apply Permutation_refl|].
    intros m _. simpl. destruct (Chat.between a b m) eqn:E.
    + now rewrite (between_can_read a b m E).
    + apply andb_false_r.
  - apply sorted_ascending.
Qed.

Lemma C6_witness :
  Permutation
    (Chat.messages (Chat.fetchMessages (Sample.session Sample.alice Sample.bob [])
                      (Sample.world [Sample.aside; Sample.reply; Sample.hello])))
    [Sample.reply; Sample.hello]
  /\ StronglySorted by_created_at
       (Chat.messages (Chat.fetchMessages (Sample.session Sample.alice Sample.bob [])
                         (Sample.world [Sample.aside; Sample.reply; Sample.hello]))).
Proof.
  destruct (C6_fetchMessages_lists_the_pair
              (Sample.session Sample.alice Sample.bob [])
              (Sample.world [Sample.aside; Sample.reply; Sample.hello])
              Sample.alice Sample.bob eq_refl)
    as (_ & Hperm & Hsorted).
  split; [exact Hperm | exact Hsorted].
Defined.

Example fetch_sorts_by_time :
  Chat.messages (Chat.fetchMessages (Sample.session Sample.alice Sample.bob [])
                   (Sample.world [Sample.aside; Sample.reply; Sample.hello]))
  = [Sample.hello; Sample.reply].
Proof. reflexivity. Qed.

(** C6 as stated fails on the tie-break: two messages of the pair with the
    same [created_at] come back in table order, the greater id first. *)
Lemma C6_ties_are_not_ordered_by_id :
  ~ StronglySorted by_created_at_then_id
      (Chat.messages (Chat.fetchMessages (Sample.session Sample.alice Sample.bob [])
                        (Sample.world [Sample.tie_b; Sample.tie_a]))).
Proof.
  intros H. change (StronglySorted by_created_at_then_id [Sample.tie_b; Sample.tie_a]) in H.
  inversion H as [|x l _ Hall]; subst.
  inversion Hall as [|y l' Hba _]; subst.
  destruct Hba as [Hlt|[_ Hle]].
  - simpl in Hlt. lia.
  - discriminate Hle.
Qed.

(** ** The map of conversations *)

Section MapFacts.

Context {V : Type}.

Lemma get_app_new k k' (v : V) (m : Inbox.JsMap V) :
  Inbox.get k (m ++ [(k', v)])
  = match Inbox.get k m with
    | Some c => Some c
    | None => if (k' =? k)%string then Some v else None
    end.
Proof.
  induction m as [|[k0 v0] r IH]; simpl; [reflexivity|].
  destruct (k0 =? k)%string; [reflexivity | exact IH].
Qed.

Lemma set_absent k (v : V) (m : Inbox.JsMap V) :
  Inbox.has k m = false -> Inbox.set k v m = m ++ [(k, v)].
Proof.
  unfold Inbox.has. induction m as [|[k0 v0] r IH]; simpl; [reflexivity|].
  destruct (k0 =? k)%string; [discriminate|].
  intros H. now rewrite IH.
Qed.

Lemma get_modify k k' (f : V -> V) (m : Inbox.JsMap V) :
  Inbox.get k (Inbox.modify k' f m)
  = if (k' =? k)%string then option_map f (Inbox.get k m) else Inbox.get k m.
Proof.
  induction m as [|[k0 v0] r IH]; simpl.
  - now destruct (k' =? k)%string.
  - destruct (k0 =? k')%string eqn:E0; simpl.
    + apply String.eqb_eq in E0. subst k0.
      destruct (k' =? k)%string; reflexivity.
    + destruct (k0 =? k)%string eqn:E1; [|exact IH].
      destruct (k' =? k)%string eqn:E2; [|reflexivity].
      apply String.eqb_eq in E1, E2. subst. rewrite String.eqb_refl in E0.
      discriminate.
Qed.

Lemma keys_modify k (f : V -> V) (m : Inbox.JsMap V) :
  keys (Inbox.modify k f m) = keys m.
Proof.
  unfold keys. induction m as [|[k0 v0] r IH]; simpl; [reflexivity|].
  destruct (k0 =? k)%string; simpl; [reflexivity | now rewrite IH].
Qed.

Lemma has_keys k (m : Inbox.JsMap V) : Inbox.has k m = true <-> In k (keys m).
Proof.
  unfold Inbox.has, keys. induction m as [|[k0 v0] r IH]; simpl.
  - split; [discriminate | tauto].
  - destruct (k0 =? k)%string eqn:E.
    + apply String.eqb_eq in E. split; [now left | reflexivity].
    + apply String.eqb_neq in E. rewrite IH. split; [now right|].
      intros [H|H]; [contradiction | exact H].
Qed.

Lemma In_get k (v : V) (m : Inbox.JsMap V) :
  NoDup (keys m) -> In (k, v) m -> Inbox.get k m = Some v.
Proof.
  unfold keys. induction m as [|[k0 v0] r IH]; simpl; [tauto|].
  intros Hnd [H|H]; inversion Hnd as [|? ? Hk Hr]; subst.
  - injection H as -> ->. now rewrite String.eqb_refl.
  - destruct (k0 =? k)%string eqn:E; [|now apply IH].
    apply String.eqb_eq in E. subst k0. exfalso. apply Hk.
    apply (in_map fst) in H. exact H.
Qed.

End MapFacts.

Lemma times_modify_bump k (m : Inbox.JsMap Conversation.t) :
  times (Inbox.modify k Conversation.bump m) = times m.
Proof.
  unfold times. induction m as [|[k0 v0] r IH]; simpl; [reflexivity|].
  destruct (k0 =? k)%string; simpl; [reflexivity | now rewrite IH].
Qed.

Section Loop.

Variable uid : string.
Variable names : Inbox.JsMap string.

Lemma unread_from_other k x : unread_from k uid x = true -> Inbox.other uid x = k.
Proof.
  unfold unread_from, Inbox.other. intros H.
  apply andb_true_iff in H. destruct H as [H _].
  apply andb_true_iff in H. destruct H as [H1 H2].
  apply String.eqb_eq in H1, H2.
  destruct (sender_id x =? uid)%string eqn:E; [|exact H1].
  apply String.eqb_eq in E. congruence.
Qed.

Lemma visit_bumps x :
  ((sender_id x =? Inbox.other uid x)%string && (recipient_id x =? uid)%string
   && negb (read x))
  = unread_from (Inbox.other uid x) uid x.
Proof. reflexivity. Qed.

(** The entry of one key after one turn of the loop. *)
Lemma get_visit k cm x :
  Inbox.get k (Inbox.visit uid names cm x)
  = if (Inbox.other uid x =? k)%string
    then Some (let c := match Inbox.get k cm with
                        | Some c => c
                        | None => Inbox.opened names k x
                        end in
               if unread_from k uid x then Conversation.bump c else c)
    else Inbox.get k cm.
Proof.
  unfold Inbox.visit. rewrite visit_bumps.
  destruct (Inbox.other uid x =? k)%string eqn:E.
  - apply String.eqb_eq in E. rewrite E.
    destruct (Inbox.has k cm) eqn:Hh; simpl.
    + unfold Inbox.has in Hh. destruct (Inbox.get k cm) as [c|] eqn:G; [|discriminate].
      destruct (unread_from k uid x).
      * now rewrite get_modify, String.eqb_refl, G.
      * exact G.
    + rewrite set_absent by exact Hh.
      unfold Inbox.has in Hh. destruct (Inbox.get k cm) as [c|] eqn:G; [discriminate|].
      destruct (unread_from k uid x).
      * now rewrite get_modify, String.eqb_refl, get_app_new, G, String.eqb_refl.
      * now rewrite get_app_new, G, String.eqb_refl.
  - assert (Hm1 : Inbox.get k
                    (if negb (Inbox.has (Inbox.other uid x) cm)
                     then Inbox.set (Inbox.other uid x)
                            (Inbox.opened names (Inbox.other uid x) x) cm
                     else cm) = Inbox.get k cm).
    { destruct (Inbox.has (Inbox.other uid x) cm) eqn:Hh; simpl; [reflexivity|].
      rewrite set_absent by exact Hh. rewrite get_app_new, E.
      now destruct (Inbox.get k cm). }
    destruct (unread_from (Inbox.other uid x) uid x).
    + now rewrite get_modify, E.
    + exact Hm1.
Qed.

Lemma get_fold k l cm :
  Inbox.get k (fold_left (Inbox.visit uid names) l cm)
  = summary uid names k l (Inbox.get k cm).
Proof.
  revert cm. induction l as [|x r IH]; intros cm; simpl; [reflexivity|].
  rewrite IH, get_visit. reflexivity.
Qed.

Lemma add_unread_0 c : add_unread 0 c = c.
Proof. destruct c. unfold add_unread. simpl. now rewrite Nat.add_0_r. Qed.

Lemma add_unread_bump n c :
  add_unread n (Conversation.bump c) = add_unread (S n) c.
Proof.
  unfold add_unread, Conversation.bump. simpl. f_equal. lia.
Qed.

Lemma stored_unread_cons k x r :
  stored_unread k uid (x :: r)
  = (if unread_from k uid x then 1 else 0) + stored_unread k uid r.
Proof.
  unfold stored_unread. simpl. now destruct (unread_from k uid x).
Qed.

Lemma summary_started k l c0 :
  summary uid names k l (Some c0) = Some (add_unread (stored_unread k uid l) c0).
Proof.
  revert c0. induction l as [|x r IH]; intros c0; simpl.
  - now rewrite add_unread_0.
  - rewrite stored_unread_cons.
    destruct (Inbox.other uid x =? k)%string eqn:E.
    + destruct (unread_from k uid x); rewrite IH; simpl.
      * now rewrite add_unread_bump.
      * reflexivity.
    + destruct (unread_from k uid x) eqn:U.
      * apply unread_from_other in U. apply String.eqb_neq in E. contradiction.
      * now rewrite IH.
Qed.

Lemma summary_fresh k l :
  summary uid names k l None
  = match find (fun x => (Inbox.other uid x =? k)%string) l with
    | Some m => Some (add_unread (stored_unread k uid l) (Inbox.opened names k m))
    | None => None
    end.
Proof.
  induction l as [|x r IH]; simpl; [reflexivity|].
  rewrite stored_unread_cons.
  destruct (Inbox.other uid x =? k)%string eqn:E.
  - rewrite summary_started.
    destruct (unread_from k uid x); simpl.
    + now rewrite add_unread_bump.
    + reflexivity.
  - destruct (unread_from k uid x) eqn:U.
    + apply unread_from_other in U. apply String.eqb_neq in E. contradiction.
    + exact IH.
Qed.

Lemma keys_visit cm x :
  keys (Inbox.visit uid names cm x)
  = if Inbox.has (Inbox.other uid x) cm then keys cm
    else keys cm ++ [Inbox.other uid x].
Proof.
  unfold Inbox.visit. rewrite visit_bumps.
  destruct (unread_from _ _ _); [rewrite keys_modify|];
    destruct (Inbox.has (Inbox.other uid x) cm) eqn:Hh; simpl; try reflexivity;
    rewrite set_absent by exact Hh; unfold keys; now rewrite map_app.
Qed.

Lemma keys_fold_NoDup l cm :
  NoDup (keys cm) -> NoDup (keys (fold_left (Inbox.visit uid names) l cm)).
Proof.
  revert cm. induction l as [|x r IH]; intros cm Hnd; simpl; [exact Hnd|].
  apply IH. rewrite keys_visit.
  destruct (Inbox.has (Inbox.other uid x) cm) eqn:Hh; [exact Hnd|].
  apply NoDup_app; [exact Hnd | repeat constructor; simpl; tauto |].
  intros k Hk [<-|[]]. apply has_keys in Hk. congruence.
Qed.

Lemma times_visit cm x :
  times (Inbox.visit uid names cm x)
  = if Inbox.has (Inbox.other uid x) cm then times cm
    else times cm ++ [created_at x].
Proof.
  unfold Inbox.visit. rewrite visit_bumps.
  destruct (unread_from _ _ _); [rewrite times_modify_bump|];
    destruct (Inbox.has (Inbox.other uid x) cm) eqn:Hh; simpl; try reflexivity;
    rewrite set_absent by exact Hh; unfold times; now rewrite map_app.
Qed.

Lemma sorted_snoc (ts : list Z) (t : Z) :
  StronglySorted Z.ge ts -> Forall (fun u => (u >= t)%Z) ts ->
  StronglySorted Z.ge (ts ++ [t]).
Proof.
  induction 1 as [|u r Hs IH Hall]; intros Hge; simpl.
  - repeat constructor.
  - inversion Hge as [|? ? Hu Hr]; subst. constructor; [now apply IH|].
    apply Forall_app. split; [exact Hall | now repeat constructor].
Qed.

Lemma times_fold_sorted l cm :
  StronglySorted (fun a b => Db.precedes Db.descending a b = true) l ->
  StronglySorted Z.ge (times cm) ->
  (forall t x, In t (times cm) -> In x l -> (t >= created_at x)%Z) ->
  StronglySorted Z.ge (times (fold_left (Inbox.visit uid names) l cm)).
Proof.
  revert cm. induction l as [|x r IH]; intros cm Hl Hs Hge; simpl; [exact Hs|].
  inversion Hl as [|? ? Hr Hx]; subst.
  apply IH; [exact Hr | |]; rewrite times_visit;
    destruct (Inbox.has (Inbox.other uid x) cm).
  - exact Hs.
  - apply sorted_snoc; [exact Hs|]. apply Forall_forall. intros t Ht.
    apply (Hge t x Ht). now left.
  - intros t y Ht Hy. apply (Hge t y Ht). now right.
  - intros t y Ht Hy. apply in_app_or in Ht. destruct Ht as [Ht|[<-|[]]].
    + apply (Hge t y Ht). now right.
    + rewrite Forall_forall in Hx. specialize (Hx y Hy). simpl in Hx.
      apply Z.leb_le in Hx. lia.
Qed.

End Loop.

(** ** The inbox *)

Lemma find_first {A : Type} (p : A -> bool) (l : list A) (m : A) :
  find p l = Some m ->
  exists l1 l2, l = l1 ++ m :: l2 /\ p m = true /\ forall x, In x l1 -> p x = false.
Proof.
  induction l as [|x r IH]; simpl; [discriminate|].
  destruct (p x) eqn:E.
  - intros H. injection H as <-. exists [], r. simpl. repeat split; tauto.
  - intros H. destruct (IH H) as (l1 & l2 & -> & Hm & Hl1).
    exists (x :: l1), l2. repeat split; [exact Hm|].
    intros y [<-|Hy]; [exact E | now apply Hl1].
Qed.

Lemma find_none_iff {A : Type} (p : A -> bool) (l : list A) :
  find p l = None <-> forall x, In x l -> p x = false.
Proof.
  split; [apply find_none|].
  induction l as [|x r IH]; simpl; [reflexivity|].
  intros H. rewrite (H x (or_introl eq_refl)). apply IH.
  intros y Hy. apply H. now right.
Qed.

Lemma filter_perm {A : Type} (p : A -> bool) (l l' : list A) :
  Permutation l l' -> Permutation (List.filter p l) (List.filter p l').
Proof.
  induction 1 as [|x l l' _ IH|x y l|l l' l'' _ IH1 _ IH2]; simpl.
  - constructor.
  - destruct (p x); [now constructor | exact IH].
  - destruct (p x), (p y); try apply Permutation_refl. apply perm_swap.
  - eapply Permutation_trans; eassumption.
Qed.

Lemma filter_narrow {A : Type} (p q : A -> bool) (l : list A) :
  (forall x, p x = true -> q x = true) ->
  List.filter p (List.filter q l) = List.filter p l.
Proof.
  intros H. induction l as [|x r IH]; simpl; [reflexivity|].
  destruct (q x) eqn:Q; simpl.
  - now rewrite IH.
  - destruct (p x) eqn:P; [|exact IH].
    rewrite (H x P) in Q. discriminate.
Qed.

Lemma mine_can_read uid m : Db.participants_can_read uid m = Inbox.mine uid m.
Proof.
  unfold Db.participants_can_read, Inbox.mine.
  now rewrite (String.eqb_sym uid (sender_id m)), (String.eqb_sym uid (recipient_id m)).
Qed.

Lemma unread_from_mine k uid m : unread_from k uid m = true -> Inbox.mine uid m = true.
Proof.
  unfold unread_from, Inbox.mine. intros H.
  apply andb_true_iff in H. destruct H as [H _].
  apply andb_true_iff in H. destruct H as [_ H]. rewrite H. apply orb_true_r.
Qed.

(** The unread messages of a counterpart are all among the fetched ones. *)
Lemma stored_unread_select k uid o tbl :
  stored_unread k uid (Db.select uid (Inbox.mine uid) o tbl) = stored_unread k uid tbl.
Proof.
  unfold stored_unread, Db.select.
  rewrite (Permutation_length (filter_perm _ _ _ (order_by_perm o _))).
  rewrite filter_narrow; [reflexivity|].
  intros x Hx. rewrite mine_can_read, (unread_from_mine k uid x Hx). reflexivity.
Qed.

Lemma select_mine_In uid o tbl m :
  In m (Db.select uid (Inbox.mine uid) o tbl) <-> In m tbl /\ Inbox.mine uid m = true.
Proof.
  rewrite select_In, mine_can_read. tauto.
Qed.

Section Grouping.

Variable uid : string.
Variable names : Inbox.JsMap string.
Variable l : list Message.

Let M := fold_left (Inbox.visit uid names) l [].

Lemma entry_of_fold k c :
  In (k, c) M ->
  exists m, find (fun x => (Inbox.other uid x =? k)%string) l = Some m
            /\ c = add_unread (stored_unread k uid l) (Inbox.opened names k m).
Proof.
  intros Hin.
  assert (Hg : Inbox.get k M = Some c).
  { apply In_get; [|exact Hin]. apply keys_fold_NoDup. constructor. }
  unfold M in Hg. rewrite get_fold in Hg. simpl in Hg. rewrite summary_fresh in Hg.
  destruct (find _ l) as [m|]; [|discriminate].
  injection Hg as <-. now exists m.
Qed.

Lemma entry_of_group c :
  In c (Inbox.group uid names l) ->
  exists m, find (fun x => (Inbox.other uid x =? Conversation.otherUserId c)%string) l
            = Some m
            /\ c = add_unread (stored_unread (Conversation.otherUserId c) uid l)
                     (Inbox.opened names (Conversation.otherUserId c) m).
Proof.
  unfold Inbox.group, Inbox.values. fold M. intros Hc.
  apply in_map_iff in Hc. destruct Hc as ([k c'] & Hsnd & Hin).
  simpl in Hsnd. subst c'.
  destruct (entry_of_fold k c Hin) as (m & Hf & Hcm).
  assert (Hk : Conversation.otherUserId c = k) by now rewrite Hcm.
  rewrite Hk. now exists m.
Qed.

Lemma group_keys : map Conversation.otherUserId (Inbox.group uid names l) = keys M.
Proof.
  unfold Inbox.group, Inbox.values, keys. fold M. rewrite map_map.
  apply map_ext_in. intros [k c] Hin. simpl.
  destruct (entry_of_fold k c Hin) as (m & _ & ->). reflexivity.
Qed.

Lemma group_times : map Conversation.lastMessageTime (Inbox.group uid names l) = times M.
Proof.
  unfold Inbox.group, Inbox.values, times. fold M. now rewrite map_map.
Qed.

Lemma key_of_fold k :
  In k (keys M) <-> exists m, In m l /\ Inbox.other uid m = k.
Proof.
  rewrite <- has_keys. unfold Inbox.has, M. rewrite get_fold. simpl.
  rewrite summary_fresh.
  destruct (find _ l) as [m|] eqn:F; simpl.
  - split; [|reflexivity]. intros _. apply find_some in F.
    exists m. split; [apply F|]. now apply String.eqb_eq.
  - split; [discriminate|]. intros (m & Hm & Hk).
    rewrite find_none_iff in F. specialize (F m Hm). simpl in F.
    rewrite Hk, String.eqb_refl in F. discriminate.
Qed.

End Grouping.

Lemma sorted_suffix {A : Type} (R : A -> A -> Prop) (l1 l2 : list A) :
  StronglySorted R (l1 ++ l2) -> StronglySorted R l2.
Proof.
  induction l1 as [|x r IH]; simpl; intros H; [exact H|].
  inversion H; subst. now apply IH.
Qed.

Lemma sorted_by_time (cs : list Conversation.t) :
  StronglySorted Z.ge (map Conversation.lastMessageTime cs) ->
  StronglySorted newest_first cs.
Proof.
  induction cs as [|c r IH]; simpl; intros H; [constructor|].
  inversion H as [|? ? Hr Hc]; subst. constructor; [now apply IH|].
  rewrite Forall_map in Hc. eapply Forall_impl; [|exact Hc].
  intros d Hd. unfold newest_first. cbv beta in Hd. apply Z.ge_le. exact Hd.
Qed.

(** C7.  The [unreadCount] of every conversation that [fetchConversations]
    lists for a viewer is the number of stored messages from that
    counterpart to the viewer with [read = false]; a counterpart that has no
    conversation row has no such message.  After [markAsRead] for a
    conversation, on a table that meets its CHECK constraints, that number
    is 0, in the table and in the listed conversation. *)
Theorem C7_unread_count (uid : string)
    (startupData investorData : option (list (string * string)))
    (tbl : Db.Table) (sc : Inbox.Screen) :
  (forall c,
     In c (Inbox.conversations
             (Inbox.fetchConversations (Some uid) startupData investorData tbl sc)) ->
     Conversation.unreadCount c = stored_unread (Conversation.otherUserId c) uid tbl)
  /\ (forall k,
        ~ In k (map Conversation.otherUserId
                  (Inbox.conversations
                     (Inbox.fetchConversations (Some uid) startupData investorData
                        tbl sc))) ->
        stored_unread k uid tbl = 0)
  /\ (forall s w counterpart,
        Chat.ids s = Some (uid, counterpart) -> Chat.table w = tbl ->
        forallb Db.checks tbl = true ->
        stored_unread counterpart uid (Chat.table (Chat.markAsRead s w)) = 0
        /\ forall c,
             In c (Inbox.conversations
                     (Inbox.fetchConversations (Some uid) startupData investorData
                        (Chat.table (Chat.markAsRead s w)) sc)) ->
             Conversation.otherUserId c = counterpart ->
             Conversation.unreadCount c = 0).
Proof.
  assert (Hcount : forall t c,
            In c (Inbox.conversations
                    (Inbox.fetchConversations (Some uid) startupData investorData t sc)) ->
            Conversation.unreadCount c = stored_unread (Conversation.otherUserId c) uid t).
  { intros t c Hc. simpl in Hc.
    destruct (entry_of_group _ _ _ c Hc) as (m & _ & Hcm).
    rewrite stored_unread_select in Hcm. rewrite Hcm at 1. reflexivity. }
  split; [|split].
  - apply Hcount.
  - intros k Hk. simpl in Hk. rewrite group_keys, key_of_fold in Hk.
    unfold stored_unread.
    destruct (List.filter (unread_from k uid) tbl) as [|m r] eqn:F; [reflexivity|].
    exfalso. apply Hk.
    assert (Hm : In m (List.filter (unread_from k uid) tbl)) by (rewrite F; now left).
    apply filter_In in Hm. destruct Hm as [Hm Hu].
    exists m. split; [|now apply (unread_from_other uid)].
    apply select_mine_In. split; [exact Hm|]. eapply unread_from_mine; eassumption.
  - intros s w counterpart Hids Ht Hv. subst tbl.
    assert (H0 : stored_unread counterpart uid (Chat.table (Chat.markAsRead s w)) = 0).
    { rewrite (markAsRead_table s w uid counterpart Hids Hv).
      apply unread_after_mark. }
    split; [exact H0|].
    intros c Hc Hk. rewrite (Hcount _ c Hc), Hk. exact H0.
Qed.

(** C8.  [fetchConversations] lists one conversation per counterpart of
    the viewer and no other; the preview and [lastMessageTime] of each are
    those of a message exchanged with that counterpart whose [created_at]
    no other such message exceeds; the list is in non-increasing
    [lastMessageTime] order. *)
Theorem C8_one_row_per_counterpart (uid : string)
    (startupData investorData : option (list (string * string)))
    (tbl : Db.Table) (sc : Inbox.Screen) :
  NoDup (map Conversation.otherUserId
           (Inbox.conversations
              (Inbox.fetchConversations (Some uid) startupData investorData tbl sc)))
  /\ (forall k,
        In k (map Conversation.otherUserId
                (Inbox.conversations
                   (Inbox.fetchConversations (Some uid) startupData investorData
                      tbl sc)))
        <-> exists m, In m tbl /\ Inbox.mine uid m = true /\ Inbox.other uid m = k)
  /\ (forall c,
        In c (Inbox.conversations
                (Inbox.fetchConversations (Some uid) startupData investorData tbl sc)) ->
        exists m,
          In m tbl /\ Inbox.mine uid m = true
          /\ Inbox.other uid m = Conversation.otherUserId c
          /\ Conversation.lastMessage c = Inbox.getMessagePreview m
          /\ Conversation.lastMessageTime c = created_at m
          /\ forall m', In m' tbl -> Inbox.mine uid m' = true ->
                        Inbox.other uid m' = Conversation.otherUserId c ->
                        (created_at m' <= created_at m)%Z)
  /\ StronglySorted newest_first
       (Inbox.conversations
          (Inbox.fetchConversations (Some uid) startupData investorData tbl sc)).
Proof.
  simpl. split; [|split; [|split]].
  - rewrite group_keys. apply keys_fold_NoDup. constructor.
  - intros k. rewrite group_keys, key_of_fold. split.
    + intros (m & Hm & Hk). apply select_mine_In in Hm. exists m. tauto.
    + intros (m & Hm & Hmine & Hk). exists m. split; [|exact Hk].
      apply select_mine_In. tauto.
  - intros c Hc. destruct (entry_of_group _ _ _ c Hc) as (m & Hf & Hcm).
    destruct (find_first _ _ _ Hf) as (l1 & l2 & Hl & Hm & Hl1).
    apply String.eqb_eq in Hm.
    assert (Hin : In m (Db.select uid (Inbox.mine uid) Db.descending tbl)).
    { rewrite Hl. apply in_elt. }
    apply select_mine_In in Hin. destruct Hin as [Hin Hmine].
    exists m. split; [exact Hin|]. split; [exact Hmine|]. split; [exact Hm|].
    split; [now rewrite Hcm|]. split; [now rewrite Hcm|].
    intros m' Hm' Hmine' Hk'.
    assert (Hin' : In m' (Db.select uid (Inbox.mine uid) Db.descending tbl)).
    { apply select_mine_In. tauto. }
    pose proof (order_by_sorted Db.descending
                  (List.filter (fun x => Db.participants_can_read uid x
                                         && Inbox.mine uid x) tbl)) as Hs.
    fold (Db.select uid (Inbox.mine uid) Db.descending tbl) in Hs.
    rewrite Hl in Hs, Hin'.
    apply in_app_or in Hin'. destruct Hin' as [Hin'|[<-|Hin']].
    + specialize (Hl1 m' Hin'). simpl in Hl1. rewrite Hk', String.eqb_refl in Hl1.
      discriminate.
    + lia.
    + apply sorted_suffix in Hs.
      inversion Hs as [|? ? _ Hall]; subst.
      rewrite Forall_forall in Hall. specialize (Hall m' Hin'). simpl in Hall.
      apply Z.leb_le in Hall. exact Hall.
  - apply sorted_by_time. rewrite group_times.
    apply times_fold_sorted.
    + apply order_by_sorted.
    + constructor.
    + intros t x [].
Qed.

Example inbox_of_alice :
  map (fun c => (Conversation.otherUserId c, Conversation.lastMessage c,
                 Conversation.lastMessageTime c, Conversation.unreadCount c))
      (Inbox.conversations
         (Inbox.fetchConversations (Some Sample.alice) None None
            [Sample.hello; Sample.reply; Sample.aside]
            {| Inbox.conversations := []; Inbox.loading := true |}))
  = [(Sample.carol, "ping"%string, 30%Z, 1); (Sample.bob, "hi there"%string, 20%Z, 1)].
Proof. reflexivity. Qed.

Lemma C7_witness :
  stored_unread Sample.bob Sample.alice
    (Chat.table (Chat.markAsRead (Sample.session Sample.alice Sample.bob [])
                   (Sample.world [Sample.hello; Sample.reply; Sample.aside])))
  = 0.
Proof.
  destruct (C7_unread_count Sample.alice None None
              [Sample.hello; Sample.reply; Sample.aside]
              {| Inbox.conversations := []; Inbox.loading := true |})
    as (_ & _ & H).
  exact (proj1 (H (Sample.session Sample.alice Sample.bob [])
                  (Sample.world [Sample.hello; Sample.reply; Sample.aside])
                  Sample.bob eq_refl eq_refl eq_refl)).
Defined.

(** ** Marking read again *)

Lemma none_unread rid uid tbl :
  stored_unread rid uid tbl = 0 ->
  forall m, In m tbl -> unread_from rid uid m = false.
Proof.
  unfold stored_unread. intros H m Hm.
  destruct (unread_from rid uid m) eqn:E; [|reflexivity].
  assert (Hin : In m (List.filter (unread_from rid uid) tbl))
    by (apply filter_In; now split).
  destruct (List.filter (unread_from rid uid) tbl); [destruct Hin | discriminate H].
Qed.

Lemma mark_filter_unread rid uid m :
  ((sender_id m =? rid)%string && (recipient_id m =? uid)%string
   && Bool.eqb (read m) false)
  = unread_from rid uid m.
Proof.
  unfold unread_from. now destruct (read m).
Qed.

Lemma markAsRead_nothing_to_do s w uid rid :
  Chat.ids s = Some (uid, rid) ->
  stored_unread rid uid (Chat.table w) = 0 ->
  Chat.markAsRead s w
  = Chat.emit (Chat.messages_update uid (Db.set_read true) true) w.
Proof.
  intros Hids H0. unfold Chat.markAsRead. rewrite Hids.
  assert (Hno : forall m, In m (Chat.table w) ->
            Db.targets uid (fun m => (sender_id m =? rid)%string
                                     && (recipient_id m =? uid)%string
                                     && Bool.eqb (read m) false) m = false).
  { intros m Hm. unfold Db.targets. rewrite mark_filter_unread.
    now rewrite (none_unread rid uid _ H0 m Hm). }
  rewrite update_ok.
  - rewrite map_untouched by exact Hno. now destruct w.
  - intros m Hm Ht. rewrite (Hno m Hm) in Ht. discriminate.
Qed.

Lemma markAsRead_table_only s w1 w2 :
  Chat.table w1 = Chat.table w2 ->
  Chat.table (Chat.markAsRead s w1) = Chat.table (Chat.markAsRead s w2).
Proof.
  intros H. unfold Chat.markAsRead.
  destruct (Chat.ids s) as [[uid rid]|]; [|exact H].
  rewrite H. now destruct (Db.update _ _ _ _).
Qed.

Lemma markAsRead_refused_or_marked s w uid rid :
  Chat.ids s = Some (uid, rid) ->
  Chat.table (Chat.markAsRead s w) = Chat.table w
  \/ Chat.table (Chat.markAsRead s w)
     = map (fun m => if unread_from rid uid m then with_read true m else m)
           (Chat.table w).
Proof.
  intros Hids. unfold Chat.markAsRead. rewrite Hids.
  destruct (Db.update _ _ _ _) as [t|e] eqn:E; simpl; [|now left].
  right. unfold Db.update in E.
  destruct (negb _) in E; [discriminate|].
  destruct (negb _) in E; [discriminate|].
  injection E as <-. apply map_ext. intros m.
  unfold Db.targets. rewrite mark_filter_unread.
  destruct (unread_from rid uid m) eqn:U; [|reflexivity].
  simpl. unfold unread_from in U.
  apply andb_true_iff in U. destruct U as [U _].
  apply andb_true_iff in U. destruct U as [_ U].
  unfold Db.update_policy, Db.recipients_can_mark_read.
  now rewrite String.eqb_sym, U.
Qed.

(** C9.  [markAsRead] leaves every message that is already read in the
    table as it is.  When no unread message of the counterpart is left, it
    returns the world with the table unchanged and the update answered
    without error.  Hence a second [markAsRead] after a first changes
    nothing more, and no alert is raised. *)
Theorem C9_markAsRead_idempotent (s : Chat.Session) (w : Chat.World) :
  (forall m, In m (Chat.table w) -> read m = true ->
             In m (Chat.table (Chat.markAsRead s w)))
  /\ (forall uid rid,
        Chat.ids s = Some (uid, rid) ->
        stored_unread rid uid (Chat.table w) = 0 ->
        Chat.markAsRead s w
        = Chat.emit (Chat.messages_update uid (Db.set_read true) true) w)
  /\ (forall uid rid,
        Chat.ids s = Some (uid, rid) ->
        forallb Db.checks (Chat.table w) = true ->
        Chat.markAsRead s (Chat.markAsRead s w)
        = Chat.emit (Chat.messages_update uid (Db.set_read true) true)
            (Chat.markAsRead s w))
  /\ Chat.table (Chat.markAsRead s (Chat.markAsRead s w))
     = Chat.table (Chat.markAsRead s w)
  /\ alerts (Chat.trace (Chat.markAsRead s (Chat.markAsRead s w)))
     = alerts (Chat.trace w).
Proof.
  assert (Htwice : forall uid rid,
            Chat.ids s = Some (uid, rid) ->
            forallb Db.checks (Chat.table w) = true ->
            Chat.markAsRead s (Chat.markAsRead s w)
            = Chat.emit (Chat.messages_update uid (Db.set_read true) true)
                (Chat.markAsRead s w)).
  { intros uid rid Hids Hv. apply (markAsRead_nothing_to_do _ _ uid rid Hids).
    rewrite (markAsRead_table s w uid rid Hids Hv). apply unread_after_mark. }
  split; [|split; [|split; [|split]]].
  - intros m Hm Hr. unfold Chat.markAsRead.
    destruct (Chat.ids s) as [[uid rid]|]; [|exact Hm].
    destruct (Db.update _ _ _ _) as [t|e] eqn:E; simpl; [|exact Hm].
    unfold Db.update in E.
    destruct (negb _) in E; [discriminate|].
    destruct (negb _) in E; [discriminate|].
    injection E as <-. apply in_map_iff. exists m. split; [|exact Hm].
    unfold Db.targets. rewrite Hr. simpl. now rewrite !andb_false_r.
  - apply markAsRead_nothing_to_do.
  - exact Htwice.
  - destruct (Chat.ids s) as [[uid rid]|] eqn:Hids.
    + destruct (markAsRead_refused_or_marked s w uid rid Hids) as [H|H].
      * rewrite (markAsRead_table_only s _ w H). reflexivity.
      * rewrite (markAsRead_nothing_to_do s _ uid rid Hids); [reflexivity|].
        rewrite H. apply unread_after_mark.
    + unfold Chat.markAsRead. now rewrite Hids.
  - now rewrite !markAsRead_alerts.
Qed.

Lemma C9_witness :
  Chat.table (Chat.markAsRead (Sample.session Sample.alice Sample.bob [])
                (Sample.world [Sample.hello; with_read true Sample.reply]))
  = [Sample.hello; with_read true Sample.reply]
  /\ alerts (Chat.trace
               (Chat.markAsRead (Sample.session Sample.alice Sample.bob [])
                  (Chat.markAsRead (Sample.session Sample.alice Sample.bob [])
                     (Sample.world [Sample.hello; Sample.reply]))))
     = [].
Proof.
  destruct (C9_markAsRead_idempotent (Sample.session Sample.alice Sample.bob [])
              (Sample.world [Sample.hello; with_read true Sample.reply]))
    as (_ & Hnone & _).
  destruct (C9_markAsRead_idempotent (Sample.session Sample.alice Sample.bob [])
              (Sample.world [Sample.hello; Sample.reply]))
    as (_ & _ & Htwice & _).
  split.
  - rewrite (Hnone Sample.alice Sample.bob eq_refl eq_refl). reflexivity.
  - rewrite (Htwice Sample.alice Sample.bob eq_refl eq_refl). reflexivity.
Defined.

(** ** Empty edits *)

Lemma empty_content_is_refused uid f tbl x :
  In x tbl -> Db.targets uid f x = true -> attachment_url x = None ->
  exists e, Db.update uid f (Db.set_content "") tbl = Db.Err e.
Proof.
  intros Hx Ht Hu. unfold Db.update.
  destruct (negb (forallb (fun m => negb (Db.targets uid f m)
                                    || Db.update_policy uid
                                         (Db.assign (Db.set_content "") m)) tbl));
    [now eexists|].
  assert (Hc : forallb (fun m => negb (Db.targets uid f m)
                                 || Db.checks (Db.assign (Db.set_content "") m)) tbl
               = false).
  { destruct (forallb _ tbl) eqn:E; [|reflexivity].
    rewrite forallb_forall in E. specialize (E x Hx). rewrite Ht in E.
    unfold Db.checks, Db.messages_content_check in E. simpl in E.
    rewrite Hu in E. discriminate E. }
  rewrite Hc. now eexists.
Qed.

Lemma empty_content_is_taken uid tbl x :
  In x tbl -> NoDup (map id tbl) -> uid = sender_id x -> attachment_url x <> None ->
  Db.update uid (fun y => (id y =? id x)%string) (Db.set_content "") tbl
  = Db.Ok (map (fun y => if (id y =? id x)%string then with_content "" y else y) tbl).
Proof.
  intros Hx Hnd Hu Ha.
  assert (Hx' : forall y, In y tbl -> (id y =? id x)%string = true -> y = x).
  { intros y Hy E. apply String.eqb_eq in E. eapply same_id_same_row; eassumption. }
  rewrite update_ok.
  - f_equal. apply map_ext_in. intros y Hy. unfold Db.targets.
    destruct (id y =? id x)%string eqn:E; [|reflexivity].
    rewrite (Hx' y Hy E). simpl. unfold Db.update_policy, Db.senders_can_update.
    now rewrite Hu, String.eqb_refl, orb_true_r.
  - intros y Hy Ht. unfold Db.targets in Ht. apply andb_true_iff in Ht.
    destruct Ht as (E & _). rewrite (Hx' y Hy E). simpl. split.
    + unfold Db.update_policy, Db.senders_can_update. simpl.
      now rewrite Hu, String.eqb_refl, orb_true_r.
    + unfold Db.checks, Db.messages_content_check, Db.messages_content_length_check.
      simpl. destruct (attachment_url x); [reflexivity | contradiction].
Qed.

(** C10, as the code has it.  While a message is being edited, a send
    whose text is empty after trimming is dropped by the screen: no request
    is made and no error is reported, so the stored message is as before,
    whether or not it carries an attachment, and the session stays in edit
    mode; the send button is disabled.  The refusal is the screen's.  Asked
    directly, the table refuses empty content for a message without an
    attachment and takes it from the sender for a message with one. *)
Theorem C10_empty_edit_is_dropped (env : Chat.Env) (s : Chat.Session)
    (w : Chat.World) (m : Message) :
  Chat.editingMessage s = Some m ->
  trim (Chat.newMessage s) = ""%string ->
  Chat.sendMessage env s w = (s, w)
  /\ Chat.canSend s = false
  /\ ~ send_reports_error env s w
  /\ (forall uid f tbl x,
        In x tbl -> Db.targets uid f x = true -> attachment_url x = None ->
        exists e, Db.update uid f (Db.set_content "") tbl = Db.Err e)
  /\ (forall uid tbl x,
        In x tbl -> NoDup (map id tbl) -> uid = sender_id x ->
        attachment_url x <> None ->
        Db.update uid (fun y => (id y =? id x)%string) (Db.set_content "") tbl
        = Db.Ok (map (fun y => if (id y =? id x)%string then with_content "" y else y)
                     tbl)).
Proof.
  intros He Ht.
  assert (Hsend : Chat.sendMessage env s w = (s, w)).
  { unfold Chat.sendMessage. rewrite He, Ht. simpl.
    destruct (Chat.ids s) as [[uid rid]|]; [|reflexivity].
    destruct (Chat.sending s); [reflexivity|].
    now destruct (Chat.pendingAttachment s). }
  split; [exact Hsend|]. split.
  { unfold Chat.canSend. now rewrite He, Ht. }
  split.
  { unfold send_reports_error. rewrite Hsend. intros H. now apply H. }
  split.
  - intros uid f tbl x. apply empty_content_is_refused.
  - intros uid tbl x. apply empty_content_is_taken.
Qed.

Lemma C10_witness :
  Chat.sendMessage (Sample.env None true) Sample.alice_blanking
    (Sample.world [Sample.hello; Sample.snapshot])
  = (Sample.alice_blanking, Sample.world [Sample.hello; Sample.snapshot])
  /\ Chat.canSend Sample.alice_blanking = false.
Proof.
  destruct (C10_empty_edit_is_dropped (Sample.env None true) Sample.alice_blanking
              (Sample.world [Sample.hello; Sample.snapshot]) Sample.snapshot
              eq_refl eq_refl) as (H1 & H2 & _).
  split; [exact H1 | exact H2].
Defined.

(** C10 as stated fails.  Alice blanks the text of her photo while she
    edits it and sends: no error is reported, the send is dropped without a
    word.  And the same edit put to the table directly is not refused: the
    stored content becomes empty, as the content check allows for a message
    with an attachment. *)
Lemma C10_empty_edit_raises_no_error :
  ~ send_reports_error (Sample.env None true) Sample.alice_blanking
      (Sample.world [Sample.hello; Sample.snapshot])
  /\ Chat.trace (snd (Chat.sendMessage (Sample.env None true) Sample.alice_blanking
                        (Sample.world [Sample.hello; Sample.snapshot])))
     = []
  /\ Db.update Sample.alice (fun x => (id x =? "m4")%string) (Db.set_content "")
               [Sample.hello; Sample.snapshot]
     = Db.Ok [Sample.hello; with_content "" Sample.snapshot]
  /\ content (with_content "" Sample.snapshot) <> content Sample.snapshot.
Proof.
  split; [|split; [reflexivity | split; [reflexivity | discriminate]]].
  intros H. now apply H.
Qed.

(** The table refuses the empty content for a message without an
    attachment. *)
Example table_refuses_empty_content_without_attachment :
  Db.update Sample.alice (fun x => (id x =? "m1")%string) (Db.set_content "")
            [Sample.hello; Sample.snapshot]
  = Db.Err Db.check_violation.
Proof. reflexivity. Qed.

(** ** The screen only issues statements of the table *)

Lemma sendMessage_reachable env s w :
  Db.reachable (Chat.table w) ->
  Db.reachable (Chat.table (snd (Chat.sendMessage env s w))).
Proof.
  intros Hr. unfold Chat.sendMessage.
  destruct (Chat.ids s) as [[uid rid]|]; [|exact Hr].
  destruct (Chat.sending s); [exact Hr|].
  destruct (_ && _); [exact Hr|].
  destruct (_ && _); [exact Hr|].
  destruct (Chat.editingMessage s) as [em|].
  - unfold Chat.sendMessage_edit.
    destruct (Db.update _ _ _ _) as [t|e] eqn:E; simpl; [|exact Hr].
    eapply Db.reachable_step; [exact Hr|]. eapply Db.step_update. exact E.
  - destruct (Chat.pendingAttachment s) as [pending|].
    + destruct (Chat.uploadAttachment env pending (Chat.setSending true s) w)
        as [[r s2] w2] eqn:Eup.
      destruct (uploadAttachment_spec _ _ _ _ _ _ _ Eup) as (Ht & _).
      destruct r as [payload|]; simpl; [|now rewrite Ht].
      unfold Chat.sendMessage_insert.
      destruct (Db.insert _ _ _) as [t|e] eqn:E; simpl; [|now rewrite Ht].
      eapply Db.reachable_step; [rewrite <- Ht in Hr; exact Hr|].
      eapply Db.step_insert. exact E.
    + unfold Chat.sendMessage_insert.
      destruct (Db.insert _ _ _) as [t|e] eqn:E; simpl; [|exact Hr].
      eapply Db.reachable_step; [exact Hr|]. eapply Db.step_insert. exact E.
Qed.

Lemma deleteMessage_reachable m s w :
  Db.reachable (Chat.table w) ->
  Db.reachable (Chat.table (snd (Chat.deleteMessage m s w))).
Proof.
  intros Hr. unfold Chat.deleteMessage.
  destruct (Chat.user s) as [uid|]; [|exact Hr].
  destruct (Db.delete _ _ _) as [t|e] eqn:E; simpl; [|exact Hr].
  eapply Db.reachable_step; [exact Hr|]. eapply Db.step_delete. exact E.
Qed.

Lemma markAsRead_reachable s w :
  Db.reachable (Chat.table w) -> Db.reachable (Chat.table (Chat.markAsRead s w)).
Proof.
  intros Hr. unfold Chat.markAsRead.
  destruct (Chat.ids s) as [[uid rid]|]; [|exact Hr].
  destruct (Db.update _ _ _ _) as [t|e] eqn:E; simpl; [|exact Hr].
  eapply Db.reachable_step; [exact Hr|]. eapply Db.step_update. exact E.
Qed.

(** ** Further checks on the sample data *)

Lemma C8_witness :
  StronglySorted newest_first
    (Inbox.conversations
       (Inbox.fetchConversations (Some Sample.alice) None None
          [Sample.hello; Sample.reply; Sample.aside]
          {| Inbox.conversations := []; Inbox.loading := true |}))
  /\ exists m,
       In m [Sample.hello; Sample.reply; Sample.aside]
       /\ Inbox.other Sample.alice m = Sample.bob
       /\ Inbox.getMessagePreview m = "hi there"%string
       /\ created_at m = 20%Z
       /\ (created_at Sample.hello <= created_at m)%Z.
Proof.
  destruct (C8_one_row_per_counterpart Sample.alice None None
              [Sample.hello; Sample.reply; Sample.aside]
              {| Inbox.conversations := []; Inbox.loading := true |})
    as (_ & _ & Hrow & Hsorted).
  split; [exact Hsorted|].
  destruct (Hrow (add_unread 1 (Inbox.opened [] Sample.bob Sample.reply))
              (or_intror (or_introl eq_refl)))
    as (m & Hin & _ & Hother & Hprev & Htime & Hmax).
  exists m. split; [exact Hin|]. split; [exact Hother|].
  split; [symmetry; exact Hprev|]. split; [symmetry; exact Htime|].
  apply Hmax; [now left | reflexivity | reflexivity].
Defined.

Example trim_examples :
  trim "  hello again " = "hello again"%string
  /\ trim "   " = ""%string
  /\ replace_space_runs false "cat   picture.jpg" = "cat-picture.jpg"%string.
Proof. repeat split. Qed.

(* ================================================================== *)
(** * Further properties of the code *)
(* ================================================================== *)

(** ** The table under any statements *)

Lemma existsb_id_false (row : Message) (tbl : Db.Table) :
  existsb (fun m => (id m =? id row)%string) tbl = false ->
  ~ In (id row) (map id tbl).
Proof.
  intros H Hin. apply in_map_iff in Hin. destruct Hin as (m & He & Hm).
  assert (Ht : existsb (fun m => (id m =? id row)%string) tbl = true).
  { apply existsb_exists. exists m. split; [exact Hm | now apply String.eqb_eq]. }
  congruence.
Qed.

Lemma filter_ids_NoDup (p : Message -> bool) (tbl : Db.Table) :
  NoDup (map id tbl) -> NoDup (map id (List.filter p tbl)).
Proof.
  induction tbl as [|m r IH]; simpl; intros H; [constructor|].
  inversion H as [|? ? Hm Hr]; subst.
  destruct (p m); simpl; [|now apply IH].
  constructor; [|now apply IH].
  intros Hin. apply Hm. apply in_map_iff in Hin. destruct Hin as (x & He & Hx).
  apply filter_In in Hx. apply in_map_iff. exists x. tauto.
Qed.

Lemma assign_id a m : id (Db.assign a m) = id m.
Proof. now destruct a. Qed.

Lemma update_rows uid f a tbl t :
  Db.update uid f a tbl = Db.Ok t ->
  t = map (fun m => if Db.targets uid f m then Db.assign a m else m) tbl.
Proof.
  unfold Db.update. intros H.
  destruct (negb _) in H; [discriminate|].
  destruct (negb _) in H; [discriminate|].
  now injection H as <-.
Qed.

Lemma step_unique_ids tbl tbl' :
  Db.step tbl tbl' -> NoDup (map id tbl) -> NoDup (map id tbl').
Proof.
  intros [uid row t t' H|uid f a t t' H|uid f t t' H] Hnd.
  - pose proof (insert_rows _ _ _ _ H) as ->.
    unfold Db.insert in H.
    destruct (negb _) in H; [discriminate|].
    destruct (negb _) in H; [discriminate|].
    destruct (existsb _ t) eqn:E; [discriminate|].
    rewrite map_app. simpl. apply NoDup_app; [exact Hnd | repeat constructor; simpl; tauto |].
    intros k Hk [<-|[]]. now apply (existsb_id_false row t E).
  - pose proof (update_rows _ _ _ _ _ H) as ->.
    rewrite map_map. erewrite map_ext; [exact Hnd|].
    intros m. simpl. destruct (Db.targets uid f m); [apply assign_id | reflexivity].
  - unfold Db.delete in H. injection H as <-. now apply filter_ids_NoDup.
Qed.

(** X1.  The primary key holds in every table that inserts, updates and
    deletes can build: no two rows have the same [id]. *)
Theorem X1_primary_key_holds (tbl : Db.Table) :
  Db.reachable tbl -> NoDup (map id tbl).
Proof.
  induction 1 as [|tbl tbl' _ IH Hs]; [constructor|].
  eapply step_unique_ids; eassumption.
Qed.

Lemma X1_witness : NoDup (map id [Sample.hello; Sample.reply]).
Proof.
  apply (X1_primary_key_holds [Sample.hello; Sample.reply]).
  eapply Db.reachable_step.
  - eapply Db.reachable_step; [apply Db.reachable_empty|].
    apply (Db.step_insert Sample.alice Sample.hello [] [Sample.hello]).
    reflexivity.
  - apply (Db.step_insert Sample.bob Sample.reply [Sample.hello]).
    reflexivity.
Defined.

(** X2.  Whatever the filter and the assignment: a user who is not the
    sender of a message cannot delete it; a user who is neither its sender
    nor its recipient cannot change it and does not see it. *)
Theorem X2_outsiders_have_no_hold (uid : string) (m : Message) (tbl : Db.Table) :
  In m tbl ->
  (uid <> sender_id m ->
   forall f t, Db.delete uid f tbl = Db.Ok t -> In m t)
  /\ (uid <> sender_id m -> uid <> recipient_id m ->
      (forall f a t, Db.update uid f a tbl = Db.Ok t -> In m t)
      /\ (forall f o, ~ In m (Db.select uid f o tbl))).
Proof.
  intros Hm. split.
  - intros Hs f t H. unfold Db.delete in H. injection H as <-.
    apply filter_In. split; [exact Hm|].
    unfold Db.senders_can_delete.
    destruct (uid =? sender_id m)%string eqn:E.
    + apply String.eqb_eq in E. contradiction.
    + now rewrite andb_false_r.
  - intros Hs Hr.
    assert (Hp : Db.update_policy uid m = false).
    { unfold Db.update_policy, Db.recipients_can_mark_read, Db.senders_can_update.
      apply orb_false_iff. split; now apply String.eqb_neq. }
    split.
    + intros f a t H. rewrite (update_rows _ _ _ _ _ H).
      apply in_map_iff. exists m. split; [|exact Hm].
      unfold Db.targets. now rewrite Hp, andb_false_r.
    + intros f o Hin. apply select_In in Hin. destruct Hin as (_ & Hread & _).
      unfold Db.participants_can_read in Hread.
      apply orb_true_iff in Hread. destruct Hread as [E|E];
        apply String.eqb_eq in E; contradiction.
Qed.

Lemma X2_witness :
  In Sample.hello
     (List.filter (fun m => negb (true && Db.senders_can_delete Sample.carol m))
                  [Sample.hello; Sample.reply]).
Proof.
  destruct (X2_outsiders_have_no_hold Sample.carol Sample.hello
              [Sample.hello; Sample.reply] (or_introl eq_refl)) as (Hdel & _).
  assert (Hne : Sample.carol <> sender_id Sample.hello) by discriminate.
  exact (Hdel Hne (fun _ => true) _ eq_refl).
Defined.

(** X3.  The two update policies are permissive and name no column: the
    sender or the recipient of a message, addressing it by its id, may set
    its content or its read flag alike, as long as the new row meets the
    CHECK constraints.  So the recipient can rewrite the text and the
    sender can mark the message read. *)
Theorem X3_either_party_updates_any_column (uid : string) (a : Db.Assignment)
    (m : Message) (tbl : Db.Table) :
  In m tbl -> NoDup (map id tbl) ->
  uid = sender_id m \/ uid = recipient_id m ->
  Db.checks (Db.assign a m) = true ->
  Db.update uid (fun x => (id x =? id m)%string) a tbl
  = Db.Ok (map (fun x => if (id x =? id m)%string then Db.assign a x else x) tbl).
Proof.
  intros Hm Hnd Hu Hc.
  assert (Hp : Db.update_policy uid m = true).
  { unfold Db.update_policy, Db.recipients_can_mark_read, Db.senders_can_update.
    apply orb_true_iff. destruct Hu as [->| ->]; [right | left]; apply String.eqb_refl. }
  assert (Hsame : forall x, In x tbl -> (id x =? id m)%string = true -> x = m).
  { intros x Hx E. apply String.eqb_eq in E. eapply same_id_same_row; eassumption. }
  rewrite update_ok.
  - f_equal. apply map_ext_in. intros x Hx. unfold Db.targets.
    destruct (id x =? id m)%string eqn:E; [|reflexivity].
    rewrite (Hsame x Hx E). now rewrite Hp.
  - intros x Hx Ht. unfold Db.targets in Ht. apply andb_true_iff in Ht.
    destruct Ht as [E _]. rewrite (Hsame x Hx E). split; [|exact Hc].
    destruct a; exact Hp.
Qed.

Lemma X3_witness :
  Db.update Sample.bob (fun x => (id x =? "m1")%string) (Db.set_content "rewritten")
            [Sample.hello; Sample.reply]
  = Db.Ok [with_content "rewritten" Sample.hello; Sample.reply].
Proof.
  assert (Hnd : NoDup (map id [Sample.hello; Sample.reply])) by distinct_ids.
  exact (X3_either_party_updates_any_column Sample.bob (Db.set_content "rewritten")
           Sample.hello [Sample.hello; Sample.reply]
           (or_introl eq_refl) Hnd (or_intror eq_refl) eq_refl).
Defined.

(** ** [trim] *)

Lemma trimStart_no_lead s : starts_with_space (trimStart s) = false.
Proof.
  induction s as [|c r IH]; simpl; [reflexivity|].
  destruct (is_space c) eqn:E; [exact IH | simpl; exact E].
Qed.

Lemma trimEnd_no_trail s : ends_with_space (trimEnd s) = false.
Proof.
  induction s as [|c r IH]; simpl; [reflexivity|].
  destruct (trimEnd r) as [|c' r'] eqn:E; simpl.
  - destruct (is_space c) eqn:Ec; simpl; [reflexivity | exact Ec].
  - rewrite andb_false_r. simpl. simpl in IH. exact IH.
Qed.

Lemma trimEnd_keeps_lead s :
  starts_with_space s = false -> starts_with_space (trimEnd s) = false.
Proof.
  destruct s as [|c r]; simpl; [reflexivity|].
  intros E. rewrite E. simpl. exact E.
Qed.

Lemma trim_no_edge_space s :
  starts_with_space (trim s) = false /\ ends_with_space (trim s) = false.
Proof.
  unfold trim. split.
  - apply trimEnd_keeps_lead, trimStart_no_lead.
  - apply trimEnd_no_trail.
Qed.

Lemma trimStart_fixed s : starts_with_space s = false -> trimStart s = s.
Proof.
  destruct s as [|c r]; simpl; [reflexivity|]. now intros ->.
Qed.

Lemma trimEnd_fixed s : ends_with_space s = false -> trimEnd s = s.
Proof.
  induction s as [|c r IH]; simpl; [reflexivity|].
  destruct r as [|c' r'].
  - simpl. intros ->. reflexivity.
  - intros H. rewrite (IH H). simpl. now rewrite andb_false_r.
Qed.

Lemma trim_fixed s :
  starts_with_space s = false -> ends_with_space s = false -> trim s = s.
Proof.
  intros H1 H2. unfold trim. rewrite (trimStart_fixed s H1). now apply trimEnd_fixed.
Qed.

(** ** The branches of [sendMessage] *)

Lemma canSend_guards s :
  Chat.canSend s
  = negb ((negb (truthy (trim (Chat.newMessage s)))
           && negb (isSome (Chat.pendingAttachment s)))
          || (isSome (Chat.editingMessage s)
              && negb (truthy (trim (Chat.newMessage s))))).
Proof.
  unfold Chat.canSend.
  destruct (Chat.editingMessage s), (truthy (trim (Chat.newMessage s))),
    (Chat.pendingAttachment s); reflexivity.
Qed.

Lemma sendMessage_outcome env s w : send_outcome env s w (Chat.sendMessage env s w).
Proof.
  unfold Chat.sendMessage.
  destruct (Chat.ids s) as [[uid rid]|] eqn:Hids; [|apply send_ignored; now left].
  destruct (Chat.sending s) eqn:Hs; [apply send_ignored; right; now left|].
  pose proof (canSend_guards s) as Hc.
  destruct (negb (truthy (trim (Chat.newMessage s)))
            && negb (isSome (Chat.pendingAttachment s))) eqn:G1.
  { apply send_ignored. right. right. exact Hc. }
  destruct (isSome (Chat.editingMessage s)
            && negb (truthy (trim (Chat.newMessage s)))) eqn:G2.
  { apply send_ignored. right. right. exact Hc. }
  destruct (Chat.editingMessage s) as [em|] eqn:He.
  - simpl in G2. apply negb_false_iff in G2.
    eapply send_edit; eassumption.
  - destruct (Chat.pendingAttachment s) as [pending|] eqn:Hp.
    + destruct (Chat.uploadAttachment env pending (Chat.setSending true s) w)
        as [[[payload|] s2] w2] eqn:Eup.
      * eapply send_with_attachment; eassumption.
      * eapply send_upload_failed; eassumption.
    + simpl in G1. rewrite andb_true_r in G1. apply negb_false_iff in G1.
      eapply send_text; eassumption.
Qed.

Lemma user_of_ids s uid rid : Chat.ids s = Some (uid, rid) -> Chat.user s = Some uid.
Proof.
  unfold Chat.ids. destruct (Chat.user s) as [u|]; [|discriminate].
  destruct (Chat.route_id s) as [r|]; [|discriminate].
  destruct (truthy r); [|discriminate]. now intros [= -> _].
Qed.

Lemma route_of_ids s uid rid :
  Chat.ids s = Some (uid, rid) -> Chat.route_id s = Some rid /\ rid <> ""%string.
Proof.
  unfold Chat.ids. destruct (Chat.user s) as [u|]; [|discriminate].
  destruct (Chat.route_id s) as [r|]; [|discriminate].
  destruct (truthy r) eqn:E; [|discriminate]. intros [= _ ->].
  split; [reflexivity | now apply truthy_true].
Qed.

(** A finished upload, in full. *)
Lemma uploadAttachment_stored env a s w payload s' w' :
  Chat.uploadAttachment env a s w = (Some payload, s', w') ->
  exists uid n,
    Chat.user s = Some uid /\ Chat.fetched env = Some n
    /\ Chat.upload_accepted env = true
    /\ existsb (Storage.path_eqb
                  {| Storage.owner := uid; Storage.stamp := Chat.date_now env;
                     Storage.safeFileName :=
                       replace_space_runs false (PendingAttachment.fileName a) |})
               (Chat.bucket w) = false
    /\ Chat.bucket w'
       = Chat.bucket w
           ++ [{| Storage.owner := uid; Storage.stamp := Chat.date_now env;
                  Storage.safeFileName :=
                    replace_space_runs false (PendingAttachment.fileName a) |}]
    /\ Chat.getPublicUrl env
         {| Storage.owner := uid; Storage.stamp := Chat.date_now env;
            Storage.safeFileName :=
              replace_space_runs false (PendingAttachment.fileName a) |}
       = Some (Chat.payload_url payload)
    /\ truthy (Chat.payload_url payload) = true
    /\ Chat.payload_type payload = PendingAttachment.type a
    /\ Chat.payload_metadata payload
       = {| file_name := PendingAttachment.fileName a;
            file_size := match PendingAttachment.size a with
                         | Some k => k
                         | None => n
                         end;
            mime_type := PendingAttachment.mimeType a |}.
Proof.
  unfold Chat.uploadAttachment. intros H.
  destruct (Chat.user s) as [uid|]; [|discriminate].
  destruct (Chat.fetched env) as [n|]; [|discriminate].
  destruct (Storage.upload _ _ _) as [b|] eqn:Eb; [|discriminate].
  unfold Storage.upload in Eb.
  destruct (Chat.upload_accepted env); simpl in Eb; [|discriminate].
  destruct (existsb _ _) eqn:Ex; [discriminate|]. injection Eb as <-.
  destruct (Chat.getPublicUrl env _) as [url|] eqn:Eu; [|discriminate].
  destruct (truthy url) eqn:Et; [|discriminate].
  injection H as <- <- <-. exists uid, n. simpl.
  repeat split; try reflexivity; assumption.
Qed.

Lemma uploadAttachment_flag env a s w r s' w' :
  Chat.uploadAttachment env a s w = (r, s', w') ->
  Chat.uploadingAttachment s = false -> Chat.uploadingAttachment s' = false.
Proof.
  unfold Chat.uploadAttachment. intros H Hu.
  destruct (Chat.user s) as [uid|]; [|now injection H as <- <- <-].
  destruct (Chat.fetched env) as [n|]; [|now injection H as <- <- <-].
  destruct (Storage.upload _ _ _) as [b|]; [|now injection H as <- <- <-].
  destruct (Chat.getPublicUrl env _) as [url|]; [|now injection H as <- <- <-].
  destruct (truthy url); now injection H as <- <- <-.
Qed.

Lemma uploadAttachment_speaks env a s w r s' w' uid :
  Chat.uploadAttachment env a s w = (r, s', w') -> Chat.user s = Some uid ->
  exists e evs, Chat.trace w' = Chat.trace w ++ e :: evs.
Proof.
  unfold Chat.uploadAttachment. intros H Hu. rewrite Hu in H.
  destruct (Chat.fetched env) as [n|].
  2:{ injection H as <- <- <-. simpl. eexists; exists []; reflexivity. }
  destruct (Storage.upload _ _ _) as [b|].
  2:{ injection H as <- <- <-. simpl. rewrite <- app_assoc. simpl.
      eexists; eexists; reflexivity. }
  destruct (Chat.getPublicUrl env _) as [url|].
  - destruct (truthy url); injection H as <- <- <-; simpl;
      try rewrite <- app_assoc; simpl; eexists; eexists; reflexivity.
  - injection H as <- <- <-. simpl. rewrite <- app_assoc. simpl.
    eexists; eexists; reflexivity.
Qed.

Lemma edit_speaks uid c em s w :
  exists e evs,
    Chat.trace (snd (Chat.sendMessage_edit uid c em s w)) = Chat.trace w ++ e :: evs.
Proof.
  unfold Chat.sendMessage_edit. destruct (Db.update _ _ _ _); simpl;
    try rewrite <- app_assoc; simpl; eexists; eexists; reflexivity.
Qed.

Lemma insert_speaks env uid rid c p s w :
  exists e evs,
    Chat.trace (snd (Chat.sendMessage_insert env uid rid c p s w))
    = Chat.trace w ++ e :: evs.
Proof.
  unfold Chat.sendMessage_insert. destruct (Db.insert _ _ _); simpl;
    try rewrite <- app_assoc; simpl; eexists; eexists; reflexivity.
Qed.

(** X4.  The send button and [sendMessage] agree: when [canSend] is false,
    or a send is in flight, or an id is missing, [sendMessage] does nothing
    at all; when [canSend] holds and nothing is in flight, it makes a
    request or raises an alert. *)
Theorem X4_send_button_gate (env : Chat.Env) (s : Chat.Session) (w : Chat.World) :
  (Chat.canSend s = false \/ Chat.sending s = true \/ Chat.ids s = None ->
   Chat.sendMessage env s w = (s, w))
  /\ (Chat.canSend s = true -> Chat.sending s = false -> Chat.ids s <> None ->
      exists e evs,
        Chat.trace (snd (Chat.sendMessage env s w)) = Chat.trace w ++ e :: evs).
Proof.
  split.
  - intros H. unfold Chat.sendMessage.
    destruct (Chat.ids s) as [[uid rid]|]; [|reflexivity].
    destruct (Chat.sending s); [reflexivity|].
    destruct H as [H|[H|H]]; try discriminate.
    rewrite canSend_guards in H. apply negb_false_iff in H.
    destruct (negb (truthy (trim (Chat.newMessage s)))
              && negb (isSome (Chat.pendingAttachment s))); [reflexivity|].
    simpl in H. now rewrite H.
  - intros Hc Hs Hi.
    destruct (sendMessage_outcome env s w)
      as [H|uid rid em _ _ _ _|uid rid p s2 w2 Hids _ _ _ Hup
          |uid rid p pl s2 w2 Hids _ _ _ Hup|uid rid _ _ _ _ _].
    + destruct H as [H|[H|H]]; congruence.
    + apply edit_speaks.
    + simpl. eapply uploadAttachment_speaks; [exact Hup|].
      simpl. eapply user_of_ids; eassumption.
    + destruct (uploadAttachment_speaks _ _ _ _ _ _ _ uid Hup) as (e & evs & Ht).
      { simpl. eapply user_of_ids; eassumption. }
      destruct (insert_speaks env uid rid (trim (Chat.newMessage s)) (Some pl) s2 w2)
        as (e' & evs' & Ht').
      rewrite Ht', Ht, <- app_assoc. simpl. eexists; eexists; reflexivity.
    + apply insert_speaks.
Qed.

Lemma X4_witness :
  exists e evs,
    Chat.trace (snd (Chat.sendMessage (Sample.env None true) Sample.alice_attaching
                       (Sample.world [Sample.hello])))
    = [] ++ e :: evs.
Proof.
  destruct (X4_send_button_gate (Sample.env None true) Sample.alice_attaching
              (Sample.world [Sample.hello])) as (_ & H).
  apply H; [reflexivity | reflexivity | discriminate].
Defined.

(** ** The composer *)

Lemma edit_at_rest uid c em s w :
  Chat.uploadingAttachment s = false ->
  (Chat.editingMessage s <> None -> Chat.pendingAttachment s = None) ->
  composer_at_rest (fst (Chat.sendMessage_edit uid c em s w)).
Proof.
  intros Hu Hp. unfold Chat.sendMessage_edit, composer_at_rest.
  destruct (Db.update _ _ _ _); simpl; repeat split; auto.
Qed.

Lemma insert_at_rest env uid rid c p s w :
  Chat.uploadingAttachment s = false -> Chat.editingMessage s = None ->
  composer_at_rest (fst (Chat.sendMessage_insert env uid rid c p s w)).
Proof.
  intros Hu He. unfold Chat.sendMessage_insert, composer_at_rest.
  destruct (Db.insert _ _ _); simpl; repeat split; auto.
  intros H. congruence.
Qed.

Lemma sendMessage_at_rest env s w :
  composer_at_rest s -> composer_at_rest (fst (Chat.sendMessage env s w)).
Proof.
  intros (Hs & Hu & Hp).
  destruct (sendMessage_outcome env s w)
    as [H|uid rid em _ _ _ _|uid rid p s2 w2 _ _ He _ Hup
        |uid rid p pl s2 w2 _ _ He _ Hup|uid rid _ _ He _ _].
  - simpl. repeat split; assumption.
  - apply edit_at_rest; assumption.
  - destruct (uploadAttachment_spec _ _ _ _ _ _ _ Hup) as (_ & _ & _ & _ & _ & Hed & _).
    unfold composer_at_rest. simpl. split; [reflexivity|]. split.
    + exact (uploadAttachment_flag _ _ _ _ _ _ _ Hup Hu).
    + intros H. rewrite Hed in H. simpl in H. congruence.
  - destruct (uploadAttachment_spec _ _ _ _ _ _ _ Hup) as (_ & _ & _ & _ & _ & Hed & _).
    apply insert_at_rest.
    + exact (uploadAttachment_flag _ _ _ _ _ _ _ Hup Hu).
    + rewrite Hed. exact He.
  - apply insert_at_rest; assumption.
Qed.

Lemma handlePickMedia_at_rest kind penv s w :
  composer_at_rest s -> composer_at_rest (fst (Composer.handlePickMedia kind penv s w)).
Proof.
  intros (Hs & Hu & Hp). unfold Composer.handlePickMedia.
  destruct (Chat.editingMessage s) as [em|] eqn:He; simpl.
  { repeat split; try assumption. now rewrite He. }
  assert (Hset : forall a, composer_at_rest (Chat.setPendingAttachment (Some a) s)).
  { intros a. repeat split; try assumption. simpl. intros E. now elim E. }
  assert (Hsame : composer_at_rest s).
  { repeat split; try assumption. now rewrite He. }
  destruct (Picker.web penv); simpl; [exact Hsame|].
  destruct kind.
  - destruct (Picker.granted penv); simpl; [|exact Hsame].
    destruct (Picker.library_asset penv); simpl; [apply Hset | exact Hsame].
  - destruct (Picker.granted penv); simpl; [|exact Hsame].
    destruct (Picker.library_asset penv); simpl; [apply Hset | exact Hsame].
  - destruct (Picker.document_asset penv); simpl; [apply Hset | exact Hsame].
Qed.

Lemma deleteMessage_at_rest m s w :
  composer_at_rest s -> composer_at_rest (fst (Chat.deleteMessage m s w)).
Proof.
  intros (Hs & Hu & Hp). unfold Chat.deleteMessage.
  destruct (Chat.user s); [|now repeat split].
  destruct (Db.delete _ _ _); simpl; [|now repeat split].
  destruct (Chat.editing_this s m); simpl; repeat split; auto.
Qed.

Lemma act_at_rest a s w :
  composer_at_rest s -> composer_at_rest (fst (Composer.act a (s, w))).
Proof.
  intros H. pose proof H as (Hs & Hu & Hp). destruct a; simpl.
  - repeat split; assumption.
  - now apply handlePickMedia_at_rest.
  - now repeat split.
  - destruct (Chat.handleMessageLongPress message s); simpl; [|exact H].
    now repeat split.
  - destruct (Chat.handleMessageLongPress message s); [|exact H].
    now apply deleteMessage_at_rest.
  - repeat split; try assumption. intros E. now elim E.
  - now apply sendMessage_at_rest.
  - unfold Chat.fetchMessages. destruct (Chat.ids s) as [[uid rid]|]; [|exact H].
    repeat split; assumption.
  - destruct (postgres_changes_cache payload s w) as (f & -> & _).
    repeat split; assumption.
Qed.

(** X5.  Whatever the user, the poll and the change feed do to an open
    chat screen, in any order, the composer comes to rest after each step:
    [sending] and [uploadingAttachment] are false again, and a message is
    never being edited while an attachment is pending. *)
Theorem X5_composer_comes_to_rest (l : list Composer.Action)
    (user route_id : option string) (w : Chat.World) :
  composer_at_rest (fst (Composer.run l (Composer.mounted user route_id, w))).
Proof.
  assert (H : forall l sw, composer_at_rest (fst sw) ->
                           composer_at_rest (fst (Composer.run l sw))).
  { clear. induction l as [|a r IH]; intros [s w] H; [exact H|].
    unfold Composer.run in *. cbn [fold_left]. apply IH.
    now apply act_at_rest. }
  apply H. simpl. unfold composer_at_rest. simpl.
  split; [reflexivity|]. split; [reflexivity|]. intros E. now elim E.
Qed.

(** ** What a send stores *)

Lemma sendMessage_insert_grows env uid rid c p s w :
  Chat.table (snd (Chat.sendMessage_insert env uid rid c p s w)) <> Chat.table w ->
  Db.insert uid (Chat.new_row env uid rid c p) (Chat.table w)
  = Db.Ok (Chat.table w ++ [Chat.new_row env uid rid c p])
  /\ Chat.sendMessage_insert env uid rid c p s w
     = (Chat.setSending false
          (Chat.resetComposer
             (Chat.setMessages (fun prev => prev ++ [Chat.new_row env uid rid c p]) s)),
        Chat.emit (Chat.messages_insert (Chat.new_row env uid rid c p) true)
          (Chat.setTable (Chat.table w ++ [Chat.new_row env uid rid c p]) w)).
Proof.
  unfold Chat.sendMessage_insert. intros H.
  destruct (Db.insert _ _ _) as [t|e] eqn:E; simpl in H; [|now elim H].
  pose proof (insert_rows _ _ _ _ E) as ->. split; reflexivity.
Qed.

Lemma insert_passes_checks uid row tbl t :
  Db.insert uid row tbl = Db.Ok t -> Db.checks row = true.
Proof.
  unfold Db.insert. destruct (negb _); [discriminate|].
  destruct (Db.checks row); [reflexivity | discriminate].
Qed.

(** The row a send has stored, and the state it leaves. *)
Lemma sent_row env s w :
  Chat.editingMessage s = None ->
  Chat.table (snd (Chat.sendMessage env s w)) <> Chat.table w ->
  exists uid rid payload,
    Chat.ids s = Some (uid, rid)
    /\ (payload = None <-> Chat.pendingAttachment s = None)
    /\ (forall p, payload = Some p -> truthy (Chat.payload_url p) = true)
    /\ (payload = None -> truthy (trim (Chat.newMessage s)) = true)
    /\ Db.checks (Chat.new_row env uid rid (trim (Chat.newMessage s)) payload) = true
    /\ Chat.table (snd (Chat.sendMessage env s w))
       = Chat.table w ++ [Chat.new_row env uid rid (trim (Chat.newMessage s)) payload]
    /\ Chat.messages (fst (Chat.sendMessage env s w))
       = Chat.messages s ++ [Chat.new_row env uid rid (trim (Chat.newMessage s)) payload]
    /\ Chat.newMessage (fst (Chat.sendMessage env s w)) = ""%string
    /\ Chat.pendingAttachment (fst (Chat.sendMessage env s w)) = None.
Proof.
  intros He Hgrow.
  destruct (sendMessage_outcome env s w)
    as [H|uid rid em _ _ He' _|uid rid p s2 w2 _ _ _ _ Hup
        |uid rid p pl s2 w2 Hids _ _ Hp Hup|uid rid Hids _ _ Hp Ht].
  - now elim Hgrow.
  - congruence.
  - destruct (uploadAttachment_spec _ _ _ _ _ _ _ Hup) as (Htb & _).
    simpl in Hgrow. congruence.
  - destruct (uploadAttachment_spec _ _ _ _ _ _ _ Hup)
      as (Htb & _ & _ & Hms & _).
    destruct (uploadAttachment_stored _ _ _ _ _ _ _ Hup)
      as (u & n & _ & _ & _ & _ & _ & _ & Hurl & _).
    rewrite <- Htb in Hgrow.
    destruct (sendMessage_insert_grows _ _ _ _ _ _ _ Hgrow) as (Hins & Heq).
    exists uid, rid, (Some pl). rewrite Heq. simpl. rewrite Htb, Hms. simpl.
    repeat split; try congruence.
    eapply insert_passes_checks. exact Hins.
  - destruct (sendMessage_insert_grows _ _ _ _ _ _ _ Hgrow) as (Hins & Heq).
    exists uid, rid, None. rewrite Heq. simpl.
    repeat split; try congruence.
    eapply insert_passes_checks. exact Hins.
Qed.

(** X6.  When a send (not an edit) has changed the table, it has added
    exactly one row at its end: from the user to the counterpart, unread,
    with the typed text trimmed as content, which has no white space at
    either end, with an attachment exactly when one was pending, and
    meeting the CHECK constraints.  The cache ends with the same row and
    the composer is empty. *)
Theorem X6_what_a_send_stores (env : Chat.Env) (s : Chat.Session) (w : Chat.World) :
  Chat.editingMessage s = None ->
  Chat.table (snd (Chat.sendMessage env s w)) <> Chat.table w ->
  exists uid rid row,
    Chat.ids s = Some (uid, rid)
    /\ Chat.table (snd (Chat.sendMessage env s w)) = Chat.table w ++ [row]
    /\ Chat.messages (fst (Chat.sendMessage env s w)) = Chat.messages s ++ [row]
    /\ sender_id row = uid /\ recipient_id row = rid /\ read row = false
    /\ content row = trim (Chat.newMessage s)
    /\ starts_with_space (content row) = false
    /\ ends_with_space (content row) = false
    /\ (attachment_url row = None <-> Chat.pendingAttachment s = None)
    /\ Db.checks row = true
    /\ Chat.newMessage (fst (Chat.sendMessage env s w)) = ""%string
    /\ Chat.pendingAttachment (fst (Chat.sendMessage env s w)) = None.
Proof.
  intros He Hgrow.
  destruct (sent_row env s w He Hgrow)
    as (uid & rid & payload & Hids & Hpay & _ & _ & Hck & Htb & Hms & Hnm & Hpa).
  exists uid, rid, (Chat.new_row env uid rid (trim (Chat.newMessage s)) payload).
  destruct (trim_no_edge_space (Chat.newMessage s)) as (Hl & Ht).
  repeat split; try assumption.
  - simpl. intros H. apply Hpay. now destruct payload.
  - simpl. intros H. apply Hpay in H. now subst payload.
Qed.

Lemma X6_witness :
  exists uid rid row,
    Chat.ids Sample.alice_attaching = Some (uid, rid)
    /\ Chat.table (snd (Chat.sendMessage (Sample.env (Some 2048%N) true)
                          Sample.alice_attaching (Sample.world [Sample.hello])))
       = [Sample.hello] ++ [row]
    /\ content row = "look at this"%string.
Proof.
  destruct (X6_what_a_send_stores (Sample.env (Some 2048%N) true)
              Sample.alice_attaching (Sample.world [Sample.hello]) eq_refl)
    as (uid & rid & row & Hids & Htb & _ & _ & _ & _ & Hc & _).
  { discriminate. }
  exists uid, rid, row. split; [exact Hids|]. split; [exact Htb | exact Hc].
Defined.

(** X7.  When the upload has succeeded and the insert is then refused, the
    send ends with the "Message failed" alert: the table is unchanged, the
    typed text, the pending attachment and the cache are kept for a retry,
    and the uploaded object stays in the bucket. *)
Theorem X7_refused_insert_keeps_the_draft (env : Chat.Env) (s : Chat.Session)
    (w : Chat.World) (uid rid : string) (pending : PendingAttachment.t)
    (payload : Chat.AttachmentPayload) (s2 : Chat.Session) (w2 : Chat.World)
    (e : Db.error) :
  Chat.ids s = Some (uid, rid) -> Chat.sending s = false ->
  Chat.editingMessage s = None -> Chat.pendingAttachment s = Some pending ->
  Chat.uploadAttachment env pending (Chat.setSending true s) w = (Some payload, s2, w2) ->
  Db.insert uid (Chat.new_row env uid rid (trim (Chat.newMessage s)) (Some payload))
            (Chat.table w) = Db.Err e ->
  Chat.table (snd (Chat.sendMessage env s w)) = Chat.table w
  /\ Chat.pendingAttachment (fst (Chat.sendMessage env s w)) = Some pending
  /\ Chat.newMessage (fst (Chat.sendMessage env s w)) = Chat.newMessage s
  /\ Chat.messages (fst (Chat.sendMessage env s w)) = Chat.messages s
  /\ Chat.sending (fst (Chat.sendMessage env s w)) = false
  /\ alerts (Chat.trace (snd (Chat.sendMessage env s w)))
     = alerts (Chat.trace w) ++ ["Message failed"%string]
  /\ exists p, Chat.bucket (snd (Chat.sendMessage env s w)) = Chat.bucket w ++ [p]
               /\ Chat.getPublicUrl env p = Some (Chat.payload_url payload).
Proof.
  intros Hids Hs He Hp Hup Hins.
  destruct (uploadAttachment_spec _ _ _ _ _ _ _ Hup)
    as (Htb & Hpa & Hnm & Hms & _ & _ & _ & evs & Htr & _ & (fp & -> & _ & _)).
  destruct (uploadAttachment_stored _ _ _ _ _ _ _ Hup)
    as (u & n & _ & _ & _ & _ & Hbk & Hurl & _).
  unfold Chat.sendMessage. rewrite Hids, Hs, He, Hp. simpl.
  rewrite andb_false_r. simpl. rewrite Hup.
  unfold Chat.sendMessage_insert. rewrite Htb, Hins. simpl.
  rewrite Hpa, Hnm, Hms. simpl. repeat split; try assumption; try reflexivity.
  - rewrite Htr, !alerts_app. simpl. now rewrite !app_nil_r.
  - eexists. split; [exact Hbk | exact Hurl].
Qed.

Lemma X7_witness :
  Chat.table (snd (Chat.sendMessage
                     {| Chat.date_now := 1700000000000; Chat.fetched := Some 2048%N;
                        Chat.upload_accepted := true;
                        Chat.getPublicUrl := Sample.url_of;
                        Chat.gen_random_uuid := "m1"; Chat.now := 40 |}
                     Sample.alice_attaching (Sample.world [Sample.hello])))
  = [Sample.hello]
  /\ Chat.pendingAttachment
       (fst (Chat.sendMessage
               {| Chat.date_now := 1700000000000; Chat.fetched := Some 2048%N;
                  Chat.upload_accepted := true;
                  Chat.getPublicUrl := Sample.url_of;
                  Chat.gen_random_uuid := "m1"; Chat.now := 40 |}
               Sample.alice_attaching (Sample.world [Sample.hello])))
     = Some Sample.photo.
Proof.
  destruct (X7_refused_insert_keeps_the_draft
              {| Chat.date_now := 1700000000000; Chat.fetched := Some 2048%N;
                 Chat.upload_accepted := true;
                 Chat.getPublicUrl := Sample.url_of;
                 Chat.gen_random_uuid := "m1"; Chat.now := 40 |}
              Sample.alice_attaching (Sample.world [Sample.hello])
              Sample.alice Sample.bob Sample.photo _ _ _ Db.unique_violation
              eq_refl eq_refl eq_refl eq_refl eq_refl eq_refl)
    as (Ht & Hp & _).
  split; [exact Ht | exact Hp].
Defined.

(** ** Sorting commutes with what the screen does to its cache *)

Section SortFacts.

Variable o : Db.Order.






Lemma place_last x m l :
  Db.precedes o x m = true -> Db.place o x (l ++ [m]) = Db.place o x l ++ [m].
Proof.
  intros H. induction l as [|y r IH]; simpl.
  - now rewrite H.
  - destruct (Db.precedes o x y); simpl; [reflexivity | now rewrite IH].
Qed.

Lemma order_by_last m l :
  (forall x, In x l -> Db.precedes o x m = true) ->
  Db.order_by o (l ++ [m]) = Db.order_by o l ++ [m].
Proof.
  induction l as [|x r IH]; intros H; simpl; [reflexivity|].
  rewrite IH by (intros y Hy; apply H; now right).
  apply place_last. apply H. now left.
Qed.

End SortFacts.





Lemma select_last uid f o m tbl :
  Db.participants_can_read uid m = true -> f m = true ->
  (forall x, In x tbl -> Db.participants_can_read uid x = true -> f x = true ->
             Db.precedes o x m = true) ->
  Db.select uid f o (tbl ++ [m]) = Db.select uid f o tbl ++ [m].
Proof.
  intros Hr Hf H. unfold Db.select. rewrite filter_app. simpl.
  rewrite Hr, Hf. simpl. apply order_by_last.
  intros x Hx. apply filter_In in Hx. destruct Hx as (Hx & Hp).
  apply andb_true_iff in Hp. now apply H.
Qed.


Lemma in_sync_select s w uid rid :
  Chat.ids s = Some (uid, rid) ->
  (in_sync s w
   <-> Chat.messages s = Db.select uid (Chat.between uid rid) Db.ascending (Chat.table w)).
Proof.
  intros H. unfold in_sync. rewrite (fetchMessages_messages s w uid rid H). tauto.
Qed.






Lemma between_self_row uid rid (m : Message) :
  sender_id m = uid -> recipient_id m = rid -> Chat.between uid rid m = true.
Proof.
  intros <- <-. unfold Chat.between. now rewrite !String.eqb_refl.
Qed.

Lemma uploadAttachment_ids env a s w r s' w' :
  Chat.uploadAttachment env a s w = (r, s', w') -> Chat.ids s' = Chat.ids s.
Proof.
  unfold Chat.uploadAttachment. intros H.
  destruct (Chat.user s) as [uid|]; [|now injection H as <- <- <-].
  destruct (Chat.fetched env) as [n|]; [|now injection H as <- <- <-].
  destruct (Storage.upload _ _ _) as [b|]; [|now injection H as <- <- <-].
  destruct (Chat.getPublicUrl env _) as [url|]; [|now injection H as <- <- <-].
  destruct (truthy url); now injection H as <- <- <-.
Qed.

Lemma ids_of_sendMessage env s w :
  Chat.ids (fst (Chat.sendMessage env s w)) = Chat.ids s.
Proof.
  destruct (sendMessage_outcome env s w)
    as [H|uid rid em _ _ _ _|uid rid p s2 w2 _ _ _ _ Hup
        |uid rid p pl s2 w2 _ _ _ _ Hup|uid rid _ _ _ _ _].
  - reflexivity.
  - unfold Chat.sendMessage_edit. now destruct (Db.update _ _ _ _).
  - simpl. exact (uploadAttachment_ids _ _ _ _ _ _ _ Hup).
  - unfold Chat.sendMessage_insert.
    pose proof (uploadAttachment_ids _ _ _ _ _ _ _ Hup) as Hi.
    destruct (Db.insert _ _ _); simpl; exact Hi.
  - unfold Chat.sendMessage_insert. now destruct (Db.insert _ _ _).
Qed.

(** X10.  A send keeps the cache in step with the table, as long as the
    timestamp the database gives to the new row is not before those of the
    messages already in the conversation. *)
Theorem X10_send_keeps_cache_in_sync (env : Chat.Env) (s : Chat.Session)
    (w : Chat.World) (uid rid : string) :
  Chat.ids s = Some (uid, rid) -> Chat.editingMessage s = None ->
  (forall x, In x (Chat.table w) -> Chat.between uid rid x = true ->
             (created_at x <= Chat.now env)%Z) ->
  in_sync s w ->
  in_sync (fst (Chat.sendMessage env s w)) (snd (Chat.sendMessage env s w)).
Proof.
  intros Hids He Hnow Hsync.
  apply (in_sync_select _ _ uid rid); [now rewrite ids_of_sendMessage|].
  apply (in_sync_select _ _ uid rid Hids) in Hsync.
  assert (Hinsert : forall p s1 w1,
            Chat.messages s1 = Chat.messages s -> Chat.table w1 = Chat.table w ->
            Chat.messages (fst (Chat.sendMessage_insert env uid rid
                                  (trim (Chat.newMessage s)) p s1 w1))
            = Db.select uid (Chat.between uid rid) Db.ascending
                (Chat.table (snd (Chat.sendMessage_insert env uid rid
                                    (trim (Chat.newMessage s)) p s1 w1)))).
  { intros p s1 w1 Hms Htb. unfold Chat.sendMessage_insert.
    destruct (Db.insert _ _ _) as [t|e] eqn:E; simpl.
    - rewrite (insert_rows _ _ _ _ E), Hms, Htb, Hsync.
      symmetry. apply select_last.
      + unfold Db.participants_can_read. simpl. now rewrite String.eqb_refl.
      + now apply between_self_row.
      + intros x Hx _ Hb. simpl. apply Z.leb_le. now apply Hnow.
    - now rewrite Hms, Htb. }
  destruct (sendMessage_outcome env s w)
    as [H|uid' rid' em _ _ He' _|uid' rid' p s2 w2 Hids' _ _ _ Hup
        |uid' rid' p pl s2 w2 Hids' _ _ _ Hup|uid' rid' Hids' _ _ _ _].
  - exact Hsync.
  - congruence.
  - destruct (uploadAttachment_spec _ _ _ _ _ _ _ Hup) as (Htb & _ & _ & Hms & _).
    simpl. now rewrite Hms, Htb.
  - destruct (uploadAttachment_spec _ _ _ _ _ _ _ Hup) as (Htb & _ & _ & Hms & _).
    rewrite Hids in Hids'. injection Hids' as <- <-. now apply Hinsert.
  - rewrite Hids in Hids'. injection Hids' as <- <-. now apply Hinsert.
Qed.

Lemma X10_witness :
  in_sync (fst (Chat.sendMessage (Sample.env (Some 2048%N) true) Sample.alice_attaching
                  (Sample.world [Sample.hello; Sample.reply])))
          (snd (Chat.sendMessage (Sample.env (Some 2048%N) true) Sample.alice_attaching
                  (Sample.world [Sample.hello; Sample.reply]))).
Proof.
  apply (X10_send_keeps_cache_in_sync (Sample.env (Some 2048%N) true)
           Sample.alice_attaching (Sample.world [Sample.hello; Sample.reply])
           Sample.alice Sample.bob eq_refl eq_refl).
  - simpl. intros x [<-|[<-|[]]] _; simpl; lia.
  - reflexivity.
Defined.



(** X12.  The two participants of a conversation look at the same thing:
    a message is relevant to the screen of one exactly when it is relevant
    to the screen of the other, and their fetches return the same list in
    the same order. *)
Theorem X12_both_sides_see_the_same (s1 s2 : Chat.Session) (w : Chat.World)
    (a b : string) :
  Chat.ids s1 = Some (a, b) -> Chat.ids s2 = Some (b, a) ->
  (forall m, Chat.isRelevantMessage s1 m = Chat.isRelevantMessage s2 m)
  /\ Chat.messages (Chat.fetchMessages s1 w) = Chat.messages (Chat.fetchMessages s2 w).
Proof.
  intros H1 H2.
  assert (Hb : forall m, Chat.between a b m = Chat.between b a m).
  { intros m. unfold Chat.between. apply orb_comm. }
  split.
  - intros m. rewrite (relevant_between s1 m a b H1), (relevant_between s2 m b a H2).
    apply Hb.
  - rewrite (fetchMessages_messages s1 w a b H1), (fetchMessages_messages s2 w b a H2).
    unfold Db.select. f_equal. apply filter_ext. intros m. rewrite <- Hb.
    destruct (Chat.between a b m) eqn:E; [|now rewrite !andb_false_r].
    rewrite (between_can_read a b m E).
    rewrite Hb in E. now rewrite (between_can_read b a m E).
Qed.

Lemma X12_witness :
  Chat.messages (Chat.fetchMessages (Sample.session Sample.alice Sample.bob [])
                   (Sample.world [Sample.aside; Sample.reply; Sample.hello]))
  = Chat.messages (Chat.fetchMessages (Sample.session Sample.bob Sample.alice [])
                     (Sample.world [Sample.aside; Sample.reply; Sample.hello])).
Proof.
  exact (proj2 (X12_both_sides_see_the_same
                  (Sample.session Sample.alice Sample.bob [])
                  (Sample.session Sample.bob Sample.alice [])
                  (Sample.world [Sample.aside; Sample.reply; Sample.hello])
                  Sample.alice Sample.bob eq_refl eq_refl)).
Defined.

(** ** What the screen never does to a stored message *)

Lemma evolves_refl m : evolves m m.
Proof. unfold evolves. repeat split; auto. Qed.

Lemma evolves_with_content c m : evolves m (with_content c m).
Proof. unfold evolves. simpl. repeat split; auto. Qed.

Lemma evolves_with_read_true m : evolves m (with_read true m).
Proof. unfold evolves. simpl. repeat split; auto. Qed.

Lemma markAsRead_evolves s w new :
  In new (Chat.table (Chat.markAsRead s w)) ->
  exists old, In old (Chat.table w) /\ evolves old new.
Proof.
  intros H. destruct (Chat.ids s) as [[uid rid]|] eqn:Hids.
  - destruct (markAsRead_refused_or_marked s w uid rid Hids) as [E|E];
      rewrite E in H.
    + exists new. split; [exact H | apply evolves_refl].
    + apply in_map_iff in H. destruct H as (old & <- & Hold).
      exists old. split; [exact Hold|].
      destruct (unread_from rid uid old);
        [apply evolves_with_read_true | apply evolves_refl].
  - unfold Chat.markAsRead in H. rewrite Hids in H.
    exists new. split; [exact H | apply evolves_refl].
Qed.

Lemma deleteMessage_evolves m s w new :
  In new (Chat.table (snd (Chat.deleteMessage m s w))) ->
  exists old, In old (Chat.table w) /\ evolves old new.
Proof.
  intros H. exists new. split; [|apply evolves_refl].
  destruct (Chat.user s) as [uid|] eqn:Hu.
  - rewrite (deleteMessage_table m s w uid Hu) in H. apply filter_In in H. apply H.
  - unfold Chat.deleteMessage in H. now rewrite Hu in H.
Qed.

Lemma sendMessage_evolves env s w new :
  In new (Chat.table (snd (Chat.sendMessage env s w))) ->
  (exists old, In old (Chat.table w) /\ evolves old new)
  \/ (exists uid rid payload,
        Chat.ids s = Some (uid, rid)
        /\ new = Chat.new_row env uid rid (trim (Chat.newMessage s)) payload).
Proof.
  assert (Hinsert : forall uid rid p s1 w1,
            Chat.ids s = Some (uid, rid) -> Chat.table w1 = Chat.table w ->
            In new (Chat.table (snd (Chat.sendMessage_insert env uid rid
                                       (trim (Chat.newMessage s)) p s1 w1))) ->
            (exists old, In old (Chat.table w) /\ evolves old new)
            \/ (exists uid rid payload,
                  Chat.ids s = Some (uid, rid)
                  /\ new = Chat.new_row env uid rid (trim (Chat.newMessage s)) payload)).
  { intros uid rid p s1 w1 Hids Htb H. unfold Chat.sendMessage_insert in H.
    destruct (Db.insert _ _ _) as [t|e] eqn:E; simpl in H.
    - rewrite (insert_rows _ _ _ _ E), Htb in H.
      apply in_app_or in H. destruct H as [H|[<-|[]]].
      + left. exists new. split; [exact H | apply evolves_refl].
      + right. now exists uid, rid, p.
    - rewrite Htb in H. left. exists new. split; [exact H | apply evolves_refl]. }
  intros H.
  destruct (sendMessage_outcome env s w)
    as [H0|uid rid em _ _ _ _|uid rid p s2 w2 _ _ _ _ Hup
        |uid rid p pl s2 w2 Hids _ _ _ Hup|uid rid Hids _ _ _ _].
  - left. exists new. split; [exact H | apply evolves_refl].
  - left. unfold Chat.sendMessage_edit in H.
    destruct (Db.update _ _ _ _) as [t|e] eqn:E; simpl in H.
    + rewrite (update_rows _ _ _ _ _ E) in H. apply in_map_iff in H.
      destruct H as (old & <- & Hold). exists old. split; [exact Hold|].
      destruct (Db.targets _ _ old); [apply evolves_with_content | apply evolves_refl].
    + exists new. split; [exact H | apply evolves_refl].
  - destruct (uploadAttachment_spec _ _ _ _ _ _ _ Hup) as (Htb & _).
    simpl in H. rewrite Htb in H.
    left. exists new. split; [exact H | apply evolves_refl].
  - destruct (uploadAttachment_spec _ _ _ _ _ _ _ Hup) as (Htb & _).
    eapply Hinsert; eassumption.
  - eapply Hinsert; [eassumption | reflexivity | exact H].
Qed.

(** X13.  No step of the chat screen rewrites a stored message beyond its
    content and its read flag.  Every row of the table after a step is a
    row of the table before it with the same id, sender, recipient,
    timestamp and attachment, whose read flag has not gone back from true
    to false; or it is the row that this very send has inserted. *)
Theorem X13_rows_only_evolve (a : Composer.Action) (s : Chat.Session)
    (w : Chat.World) (new : Message) :
  In new (Chat.table (snd (Composer.act a (s, w)))) ->
  (exists old, In old (Chat.table w) /\ evolves old new)
  \/ (exists env uid rid payload,
        a = Composer.Send env /\ Chat.ids s = Some (uid, rid)
        /\ new = Chat.new_row env uid rid (trim (Chat.newMessage s)) payload).
Proof.
  assert (Hsame : In new (Chat.table w) ->
            (exists old, In old (Chat.table w) /\ evolves old new)
            \/ (exists env uid rid payload,
                  a = Composer.Send env /\ Chat.ids s = Some (uid, rid)
                  /\ new = Chat.new_row env uid rid (trim (Chat.newMessage s)) payload)).
  { intros H. left. exists new. split; [exact H | apply evolves_refl]. }
  destruct a; simpl; try exact Hsame.
  - unfold Composer.handlePickMedia.
    destruct (isSome (Chat.editingMessage s)); [exact Hsame|].
    destruct (Picker.web penv); [exact Hsame|].
    destruct kind.
    + destruct (Picker.granted penv); simpl; [|exact Hsame].
      destruct (Picker.library_asset penv); exact Hsame.
    + destruct (Picker.granted penv); simpl; [|exact Hsame].
      destruct (Picker.library_asset penv); exact Hsame.
    + destruct (Picker.document_asset penv); exact Hsame.
  - destruct (Chat.handleMessageLongPress message s); exact Hsame.
  - destruct (Chat.handleMessageLongPress message s); [|exact Hsame].
    intros H. left. eapply deleteMessage_evolves. exact H.
  - intros H. destruct (sendMessage_evolves env s w new H) as [H1|(uid & rid & p & H1)].
    + now left.
    + right. exists env, uid, rid, p. tauto.
  - destruct payload as [m|m|[m|]]; simpl.
    + destruct (Chat.isRelevantMessage s m); simpl; [|exact Hsame].
      destruct (Chat.route_id s) as [rid|]; [|exact Hsame].
      destruct (sender_id m =? rid)%string; [|exact Hsame].
      intros H. left. now apply (markAsRead_evolves s w).
    + destruct (Chat.isRelevantMessage s m); exact Hsame.
    + destruct (Chat.old_id m) as [i|]; [|exact Hsame].
      destruct (truthy i && Chat.isRelevantOld s m); exact Hsame.
    + exact Hsame.
Qed.

Lemma X13_witness :
  (exists old, In old [Sample.hello; Sample.reply]
               /\ evolves old (with_content "hello again" Sample.hello))
  \/ (exists env uid rid payload,
        Composer.Send (Sample.env None true) = Composer.Send env
        /\ Chat.ids Sample.alice_editing = Some (uid, rid)
        /\ with_content "hello again" Sample.hello
           = Chat.new_row env uid rid (trim (Chat.newMessage Sample.alice_editing))
               payload).
Proof.
  apply (X13_rows_only_evolve (Composer.Send (Sample.env None true))
           Sample.alice_editing (Sample.world [Sample.hello; Sample.reply])
           (with_content "hello again" Sample.hello)).
  now left.
Defined.

(** ** Drawing a message *)

(** X14.  The long press on a bubble is enabled exactly when the menu with
    Edit and Delete would open, and a read receipt is drawn on exactly
    those bubbles.  A message that the screen has just sent is never drawn
    as an empty bubble, whoever looks at it: its text or its attachment is
    shown. *)
Theorem X14_bubbles (env : Chat.Env) (s viewer : Chat.Session) (w : Chat.World)
    (item : Message) :
  Composer.longPressDisabled (Composer.renderMessage viewer item)
  = negb (Chat.handleMessageLongPress item viewer)
  /\ (Composer.readReceipt (Composer.renderMessage viewer item) <> None
      <-> Chat.handleMessageLongPress item viewer = true)
  /\ (Chat.editingMessage s = None ->
      Chat.table (snd (Chat.sendMessage env s w)) <> Chat.table w ->
      exists row,
        Chat.table (snd (Chat.sendMessage env s w)) = Chat.table w ++ [row]
        /\ (Composer.textShown (Composer.renderMessage viewer row) <> None
            \/ Composer.attachmentShown (Composer.renderMessage viewer row) <> None)).
Proof.
  split; [|split].
  - unfold Composer.renderMessage, Chat.handleMessageLongPress. simpl.
    now destruct (Chat.user viewer).
  - unfold Composer.renderMessage, Chat.handleMessageLongPress. simpl.
    destruct (Chat.user viewer) as [uid|].
    + destruct (sender_id item =? uid)%string; split; congruence.
    + split; congruence.
  - intros He Hgrow.
    destruct (sent_row env s w He Hgrow)
      as (uid & rid & payload & _ & _ & Hurl & Htext & _ & Htb & _).
    eexists. split; [exact Htb|].
    destruct payload as [p|].
    + right. simpl. rewrite (Hurl p eq_refl). discriminate.
    + left. simpl. rewrite (Htext eq_refl). discriminate.
Qed.

Lemma X14_witness :
  exists row,
    Chat.table (snd (Chat.sendMessage (Sample.env (Some 2048%N) true)
                       Sample.alice_attaching (Sample.world [Sample.hello])))
    = [Sample.hello] ++ [row]
    /\ (Composer.textShown (Composer.renderMessage Sample.bob_reading row) <> None
        \/ Composer.attachmentShown (Composer.renderMessage Sample.bob_reading row)
           <> None).
Proof.
  destruct (X14_bubbles (Sample.env (Some 2048%N) true) Sample.alice_attaching
              Sample.bob_reading (Sample.world [Sample.hello]) Sample.hello)
    as (_ & _ & H).
  apply H; [reflexivity | discriminate].
Defined.

(** ** Names of uploaded objects *)

Lemma replace_space_runs_no_space b s : has_space (replace_space_runs b s) = false.
Proof.
  revert b. induction s as [|c r IH]; intros b; simpl; [reflexivity|].
  destruct (is_space c) eqn:E.
  - destruct b; [apply IH|]. simpl. apply IH.
  - simpl. rewrite E. apply IH.
Qed.

Lemma path_eqb_refl p : Storage.path_eqb p p = true.
Proof.
  unfold Storage.path_eqb. now rewrite !String.eqb_refl, Z.eqb_refl.
Qed.

Lemma path_eqb_eq p q : Storage.path_eqb p q = true -> p = q.
Proof.
  unfold Storage.path_eqb. intros H.
  apply andb_true_iff in H. destruct H as [H H3].
  apply andb_true_iff in H. destruct H as [H1 H2].
  apply String.eqb_eq in H1, H3. apply Z.eqb_eq in H2.
  destruct p, q. simpl in *. congruence.
Qed.

(** X15.  An upload that succeeds adds exactly one object to the bucket:
    under a name the bucket did not hold, in the folder of the uploading
    user, with the time of the device as stamp and a file name without
    white space.  The payload carries the original file name, the type of
    the pending attachment and a non-empty public URL; no object of the
    bucket is replaced, so names that were distinct stay distinct. *)
Theorem X15_upload_names_the_object (env : Chat.Env) (a : PendingAttachment.t)
    (s s' : Chat.Session) (w w' : Chat.World) (payload : Chat.AttachmentPayload) :
  Chat.uploadAttachment env a s w = (Some payload, s', w') ->
  exists p,
    Chat.bucket w' = Chat.bucket w ++ [p]
    /\ ~ In p (Chat.bucket w)
    /\ Chat.user s = Some (Storage.owner p)
    /\ Storage.stamp p = Chat.date_now env
    /\ has_space (Storage.safeFileName p) = false
    /\ Chat.getPublicUrl env p = Some (Chat.payload_url payload)
    /\ Chat.payload_url payload <> ""%string
    /\ file_name (Chat.payload_metadata payload) = PendingAttachment.fileName a
    /\ Chat.payload_type payload = PendingAttachment.type a
    /\ (NoDup (Chat.bucket w) -> NoDup (Chat.bucket w')).
Proof.
  intros H.
  destruct (uploadAttachment_stored _ _ _ _ _ _ _ H)
    as (uid & n & Hu & _ & _ & Hex & Hbk & Hurl & Ht & Hty & Hmeta).
  eexists. split; [exact Hbk|].
  assert (Hnew : ~ In {| Storage.owner := uid; Storage.stamp := Chat.date_now env;
                         Storage.safeFileName :=
                           replace_space_runs false (PendingAttachment.fileName a) |}
                      (Chat.bucket w)).
  { intros Hin.
    assert (Hc : existsb (Storage.path_eqb
                   {| Storage.owner := uid; Storage.stamp := Chat.date_now env;
                      Storage.safeFileName :=
                        replace_space_runs false (PendingAttachment.fileName a) |})
                   (Chat.bucket w) = true).
    { apply existsb_exists. eexists. split; [exact Hin | apply path_eqb_refl]. }
    congruence. }
  split; [exact Hnew|]. split; [exact Hu|]. split; [reflexivity|].
  split; [apply replace_space_runs_no_space|]. split; [exact Hurl|].
  split; [now apply truthy_true|]. split; [now rewrite Hmeta|].
  split; [exact Hty|].
  intros Hnd. rewrite Hbk. apply NoDup_app; [exact Hnd | repeat constructor; simpl; tauto|].
  intros q Hq [<-|[]]. contradiction.
Qed.

Lemma X15_witness :
  exists p,
    Chat.bucket (snd (Chat.uploadAttachment (Sample.env (Some 2048%N) true) Sample.photo
                        Sample.alice_attaching (Sample.world [])))
    = [] ++ [p]
    /\ Storage.safeFileName p = "cat-picture.jpg"%string.
Proof.
  destruct (X15_upload_names_the_object (Sample.env (Some 2048%N) true) Sample.photo
              Sample.alice_attaching _ (Sample.world []) _ _ eq_refl)
    as (p & Hb & _).
  exists p. split; [exact Hb|].
  simpl in Hb. injection Hb as <-. reflexivity.
Defined.

(** ** Picking media *)

Lemma or_default_nonempty v d : d <> ""%string -> Composer.or_default v d <> ""%string.
Proof.
  intros Hd. unfold Composer.or_default. destruct v as [x|]; [|exact Hd].
  destruct (truthy x) eqn:E; [now apply truthy_true | exact Hd].
Qed.

Lemma handlePickMedia_cases kind penv s w :
  (exists title, Composer.handlePickMedia kind penv s w
                 = (s, Chat.emit (Chat.alert title) w))
  \/ Composer.handlePickMedia kind penv s w = (s, w)
  \/ exists a mime,
       Composer.handlePickMedia kind penv s w
       = (Chat.setPendingAttachment (Some a) s, w)
       /\ Chat.editingMessage s = None /\ Picker.web penv = false
       /\ PendingAttachment.type a = kind
       /\ PendingAttachment.mimeType a = Some mime /\ mime <> ""%string
       /\ (kind <> document ->
           Picker.granted penv = true /\ PendingAttachment.fileName a <> ""%string).
Proof.
  unfold Composer.handlePickMedia.
  destruct (Chat.editingMessage s) as [em|] eqn:He; simpl.
  { left. now eexists. }
  destruct (Picker.web penv) eqn:Hw; simpl.
  { left. now eexists. }
  destruct kind.
  - destruct (Picker.granted penv) eqn:Hg; simpl; [|left; now eexists].
    destruct (Picker.library_asset penv) as [asset|]; [|right; now left].
    right. right. eexists. eexists. split; [reflexivity|]. simpl.
    split; [reflexivity|]. split; [reflexivity|]. split; [reflexivity|].
    split; [reflexivity|]. split; [apply or_default_nonempty; discriminate|].
    intros _. split; [reflexivity | apply or_default_nonempty; discriminate].
  - destruct (Picker.granted penv) eqn:Hg; simpl; [|left; now eexists].
    destruct (Picker.library_asset penv) as [asset|]; [|right; now left].
    right. right. eexists. eexists. split; [reflexivity|]. simpl.
    split; [reflexivity|]. split; [reflexivity|]. split; [reflexivity|].
    split; [reflexivity|]. split; [apply or_default_nonempty; discriminate|].
    intros _. split; [reflexivity | apply or_default_nonempty; discriminate].
  - destruct (Picker.document_asset penv) as [asset|]; [|right; now left].
    right. right. eexists. eexists. split; [reflexivity|]. simpl.
    split; [reflexivity|]. split; [reflexivity|]. split; [reflexivity|].
    split; [reflexivity|]. split; [apply or_default_nonempty; discriminate|].
    intros Hk. now elim Hk.
Qed.

(** X16.  [handlePickMedia] touches nothing but the pending attachment and
    the alerts.  It sets a pending attachment only when no message is being
    edited, the platform is not the web and, for a photo or a video, access
    to the library is granted; the attachment then has the kind that was
    asked for and a non-empty MIME type, and a photo or a video has a
    non-empty file name.  While a message is being edited it raises the
    "Finish editing" alert and changes nothing. *)
Theorem X16_picking_media (kind : MessageAttachmentType) (penv : Picker.Env)
    (s : Chat.Session) (w : Chat.World) :
  Chat.table (snd (Composer.handlePickMedia kind penv s w)) = Chat.table w
  /\ Chat.bucket (snd (Composer.handlePickMedia kind penv s w)) = Chat.bucket w
  /\ (forall f, Chat.setPendingAttachment f (fst (Composer.handlePickMedia kind penv s w))
                = Chat.setPendingAttachment f s)
  /\ (Chat.editingMessage s <> None ->
      Composer.handlePickMedia kind penv s w
      = (s, Chat.emit (Chat.alert "Finish editing") w))
  /\ (Chat.pendingAttachment (fst (Composer.handlePickMedia kind penv s w))
      = Chat.pendingAttachment s
      \/ exists a mime,
           Chat.pendingAttachment (fst (Composer.handlePickMedia kind penv s w)) = Some a
           /\ Chat.editingMessage s = None /\ Picker.web penv = false
           /\ PendingAttachment.type a = kind
           /\ PendingAttachment.mimeType a = Some mime /\ mime <> ""%string
           /\ (kind <> document ->
               Picker.granted penv = true /\ PendingAttachment.fileName a <> ""%string)).
Proof.
  assert (Hedit : Chat.editingMessage s <> None ->
            Composer.handlePickMedia kind penv s w
            = (s, Chat.emit (Chat.alert "Finish editing") w)).
  { intros He. unfold Composer.handlePickMedia.
    destruct (Chat.editingMessage s); [reflexivity | now elim He]. }
  destruct (handlePickMedia_cases kind penv s w)
    as [(title & E)|[E|(a & mime & E & Hrest)]]; rewrite E in *; simpl.
  - split; [reflexivity|]. split; [reflexivity|]. split; [reflexivity|].
    split; [exact Hedit | now left].
  - split; [reflexivity|]. split; [reflexivity|]. split; [reflexivity|].
    split; [exact Hedit | now left].
  - split; [reflexivity|]. split; [reflexivity|]. split; [reflexivity|].
    split; [exact Hedit|]. right. exists a, mime. split; [reflexivity | exact Hrest].
Qed.

Lemma X16_witness :
  Composer.handlePickMedia image
    {| Picker.web := false; Picker.granted := true;
       Picker.document_asset := None; Picker.library_asset := None |}
    Sample.alice_editing (Sample.world [Sample.hello])
  = (Sample.alice_editing,
     Chat.emit (Chat.alert "Finish editing") (Sample.world [Sample.hello])).
Proof.
  destruct (X16_picking_media image
              {| Picker.web := false; Picker.granted := true;
                 Picker.document_asset := None; Picker.library_asset := None |}
              Sample.alice_editing (Sample.world [Sample.hello]))
    as (_ & _ & _ & H & _).
  apply H. discriminate.
Defined.

(** ** Previews and names of the inbox *)

Lemma trim_nonempty_source s : trim s <> ""%string -> s <> ""%string.
Proof.
  intros H E. subst s. now apply H.
Qed.

Lemma preview_takes_content msg :
  trim (content msg) <> ""%string -> Inbox.getMessagePreview msg = content msg.
Proof.
  intros H. unfold Inbox.getMessagePreview.
  assert (H1 : truthy (content msg) = true).
  { apply truthy_true. now apply trim_nonempty_source. }
  assert (H2 : (0 <? String.length (trim (content msg)))%nat = true).
  { apply Nat.ltb_lt. apply truthy_length. now apply truthy_true. }
  now rewrite H1, H2.
Qed.

(** X17.  The preview of a message in the inbox is never empty.  It is the
    content whenever the content is more than white space.  For blank
    content it is the "New message" fallback exactly when the message has
    no attachment type; so the fallback is used only for a message with
    blank content and no attachment type, which a message sent from the
    chat screen never is. *)
Theorem X17_previews (msg : Message) (env : Chat.Env) (s : Chat.Session)
    (w : Chat.World) :
  Inbox.getMessagePreview msg <> ""%string
  /\ (trim (content msg) <> ""%string -> Inbox.getMessagePreview msg = content msg)
  /\ (trim (content msg) = ""%string ->
      (Inbox.getMessagePreview msg = "New message"%string
       <-> attachment_type msg = None))
  /\ (Inbox.getMessagePreview msg = "New message"%string ->
      content msg = "New message"%string
      \/ (trim (content msg) = ""%string /\ attachment_type msg = None))
  /\ (Chat.editingMessage s = None ->
      Chat.table (snd (Chat.sendMessage env s w)) <> Chat.table w ->
      exists row,
        Chat.table (snd (Chat.sendMessage env s w)) = Chat.table w ++ [row]
        /\ (trim (content row) <> ""%string \/ attachment_type row <> None)).
Proof.
  assert (Hblank : trim (content msg) = ""%string ->
            (Inbox.getMessagePreview msg = "New message"%string
             <-> attachment_type msg = None)).
  { intros E. unfold Inbox.getMessagePreview. rewrite E. simpl.
    rewrite andb_false_r.
    destruct (attachment_type msg) as [[| |]|]; split; intros H;
      try reflexivity; discriminate H. }
  split; [|split; [|split; [|split]]].
  - unfold Inbox.getMessagePreview.
    destruct (truthy (content msg)) eqn:E; simpl.
    + destruct (0 <? String.length (trim (content msg)))%nat.
      * now apply truthy_true.
      * destruct (attachment_type msg) as [[| |]|]; discriminate.
    + destruct (attachment_type msg) as [[| |]|]; discriminate.
  - apply preview_takes_content.
  - exact Hblank.
  - intros H. destruct (string_dec (trim (content msg)) "") as [E|E].
    + right. split; [exact E|]. now apply Hblank.
    + left. now rewrite <- (preview_takes_content msg E).
  - intros He Hgrow.
    destruct (sent_row env s w He Hgrow)
      as (uid & rid & payload & _ & _ & _ & Htext & _ & Htb & _).
    eexists. split; [exact Htb|].
    destruct payload as [p|].
    + right. discriminate.
    + left. simpl.
      destruct (trim_no_edge_space (Chat.newMessage s)) as (H1 & H2).
      rewrite (trim_fixed _ H1 H2). apply truthy_true. now apply Htext.
Qed.

Lemma X17_witness :
  Inbox.getMessagePreview Sample.hello = "hello"%string
  /\ exists row,
       Chat.table (snd (Chat.sendMessage (Sample.env (Some 2048%N) true)
                          Sample.alice_attaching (Sample.world [Sample.hello])))
       = [Sample.hello] ++ [row]
       /\ (trim (content row) <> ""%string \/ attachment_type row <> None).
Proof.
  destruct (X17_previews Sample.hello (Sample.env (Some 2048%N) true)
              Sample.alice_attaching (Sample.world [Sample.hello]))
    as (_ & Hc & _ & _ & Hsent).
  split.
  - apply Hc. discriminate.
  - apply Hsent; [reflexivity | discriminate].
Defined.

Lemma get_set {V : Type} k k' (v : V) (m : Inbox.JsMap V) :
  Inbox.get k (Inbox.set k' v m)
  = if (k' =? k)%string then Some v else Inbox.get k m.
Proof.
  induction m as [|[k0 v0] r IH]; simpl.
  - reflexivity.
  - destruct (k0 =? k')%string eqn:E0; simpl.
    + apply String.eqb_eq in E0. subst k0.
      destruct (k' =? k)%string; reflexivity.
    + destruct (k0 =? k)%string eqn:E1; [|exact IH].
      destruct (k' =? k)%string eqn:E2; [|reflexivity].
      apply String.eqb_eq in E1, E2. subst. rewrite String.eqb_refl in E0.
      discriminate.
Qed.

Lemma get_startups k (l : list (string * string)) (m : Inbox.JsMap string) :
  Inbox.get k (fold_left (fun m p => Inbox.set (fst p) (snd p) m) l m)
  = match find (fun p => (fst p =? k)%string) (rev l) with
    | Some p => Some (snd p)
    | None => Inbox.get k m
    end.
Proof.
  induction l as [|x r IH] using rev_ind; [reflexivity|].
  rewrite fold_left_app, rev_app_distr. simpl. rewrite get_set.
  destruct (fst x =? k)%string; [reflexivity | exact IH].
Qed.

Lemma get_investors k (l : list (string * string)) (m : Inbox.JsMap string) :
  Inbox.get k (fold_left (fun m p => if Inbox.has (fst p) m then m
                                     else Inbox.set (fst p) (snd p) m) l m)
  = match Inbox.get k m with
    | Some v => Some v
    | None => option_map snd (find (fun p => (fst p =? k)%string) l)
    end.
Proof.
  revert m. induction l as [|x r IH]; intros m; simpl.
  - now destruct (Inbox.get k m).
  - rewrite IH. unfold Inbox.has.
    destruct (Inbox.get (fst x) m) as [v|] eqn:G; simpl.
    + destruct (Inbox.get k m) eqn:Gk; [reflexivity|].
      destruct (fst x =? k)%string eqn:E; [|reflexivity].
      apply String.eqb_eq in E. congruence.
    + rewrite get_set. destruct (fst x =? k)%string eqn:E.
      * apply String.eqb_eq in E. rewrite <- E, G. reflexivity.
      * reflexivity.
Qed.

(** X18.  The name shown for a counterpart is never empty: it is the name
    found for the id, or "User" when none is found or the name is empty.
    A company name wins over an investor name for the same id; among
    several startup rows of an id the last counts, among several investor
    rows the first. *)
Theorem X18_display_names (uid : string)
    (startups investors : list (string * string))
    (tbl : Db.Table) (sc : Inbox.Screen) :
  (forall k,
     Inbox.get k (Inbox.profileNames (Some startups) (Some investors))
     = match find (fun p => (fst p =? k)%string) (rev startups) with
       | Some p => Some (snd p)
       | None => option_map snd (find (fun p => (fst p =? k)%string) investors)
       end)
  /\ (forall c,
        In c (Inbox.conversations
                (Inbox.fetchConversations (Some uid) (Some startups) (Some investors)
                   tbl sc)) ->
        Conversation.otherUserName c <> ""%string
        /\ Conversation.otherUserName c
           = match Inbox.get (Conversation.otherUserId c)
                     (Inbox.profileNames (Some startups) (Some investors)) with
             | Some n => if truthy n then n else "User"%string
             | None => "User"%string
             end).
Proof.
  split.
  - intros k. unfold Inbox.profileNames. rewrite get_investors, get_startups. simpl.
    now destruct (find _ (rev startups)).
  - intros c Hc. simpl in Hc.
    destruct (entry_of_group _ _ _ c Hc) as (m & _ & Hcm).
    assert (Hn : Conversation.otherUserName c
                 = match Inbox.get (Conversation.otherUserId c)
                           (Inbox.profileNames (Some startups) (Some investors)) with
                   | Some n => if truthy n then n else "User"%string
                   | None => "User"%string
                   end).
    { rewrite Hcm at 1. reflexivity. }
    split; [|exact Hn]. rewrite Hn.
    destruct (Inbox.get _ _) as [n|]; [|discriminate].
    destruct (truthy n) eqn:E; [now apply truthy_true | discriminate].
Qed.

Lemma X18_witness :
  Conversation.otherUserName
    (add_unread 1 (Inbox.opened
                     (Inbox.profileNames (Some [("bob", "Bob Ltd")])
                                         (Some [("bob", "Robert"); ("carol", "")]))
                     Sample.bob Sample.reply))
  <> ""%string.
Proof.
  destruct (X18_display_names Sample.alice [("bob", "Bob Ltd")]
              [("bob", "Robert"); ("carol", "")]
              [Sample.hello; Sample.reply; Sample.aside]
              {| Inbox.conversations := []; Inbox.loading := true |}) as (_ & H).
  exact (proj1 (H _ (or_intror (or_introl eq_refl)))).
Defined.

Example inbox_names :
  map Conversation.otherUserName
      (Inbox.conversations
         (Inbox.fetchConversations (Some Sample.alice) (Some [("bob", "Bob Ltd")])
            (Some [("bob", "Robert"); ("carol", "")])
            [Sample.hello; Sample.reply; Sample.aside]
            {| Inbox.conversations := []; Inbox.loading := true |}))
  = ["User"%string; "Bob Ltd"%string].
Proof. reflexivity. Qed.

(** ** The badge of the tab bar *)

Lemma list_sum_map_add {A : Type} (f g : A -> nat) (l : list A) :
  list_sum (map (fun k => f k + g k) l) = list_sum (map f l) + list_sum (map g l).
Proof.
  induction l as [|x r IH]; simpl; [reflexivity | rewrite IH; lia].
Qed.

Lemma list_sum_zero {A : Type} (l : list A) : list_sum (map (fun _ => 0) l) = 0.
Proof. induction l; simpl; auto. Qed.

Lemma count_key_absent a (ks : list string) :
  ~ In a ks -> list_sum (map (fun k => if (a =? k)%string then 1 else 0) ks) = 0.
Proof.
  induction ks as [|k r IH]; simpl; [reflexivity|]. intros H.
  destruct (a =? k)%string eqn:E.
  - apply String.eqb_eq in E. exfalso. apply H. now left.
  - apply IH. intros Hin. apply H. now right.
Qed.

Lemma count_key_once a (ks : list string) :
  NoDup ks -> In a ks ->
  list_sum (map (fun k => if (a =? k)%string then 1 else 0) ks) = 1.
Proof.
  induction ks as [|k r IH]; simpl; [tauto|]. intros Hnd Hin.
  inversion Hnd as [|? ? Hk Hr]; subst.
  destruct (a =? k)%string eqn:E.
  - apply String.eqb_eq in E. subst k. now rewrite count_key_absent.
  - apply String.eqb_neq in E. destruct Hin as [Hin|Hin]; [congruence|].
    now apply IH.
Qed.

Lemma unread_from_sender k uid x :
  unread_from k uid x
  = (sender_id x =? k)%string && unread_from (sender_id x) uid x.
Proof.
  unfold unread_from. rewrite String.eqb_refl.
  now destruct (sender_id x =? k)%string, (recipient_id x =? uid)%string, (read x).
Qed.

Lemma count_senders uid x (ks : list string) :
  NoDup ks ->
  (unread_from (sender_id x) uid x = true -> In (sender_id x) ks) ->
  list_sum (map (fun k => if unread_from k uid x then 1 else 0) ks)
  = if unread_from (sender_id x) uid x then 1 else 0.
Proof.
  intros Hnd Hin.
  destruct (unread_from (sender_id x) uid x) eqn:U.
  - transitivity (list_sum (map (fun k => if (sender_id x =? k)%string then 1 else 0) ks)).
    + f_equal. apply map_ext. intros k. rewrite unread_from_sender, U.
      now rewrite andb_true_r.
    + apply count_key_once; [exact Hnd | now apply Hin].
  - transitivity (list_sum (map (fun _ : string => 0) ks)).
    + f_equal. apply map_ext. intros k.
      rewrite unread_from_sender, U. now rewrite andb_false_r.
    + apply list_sum_zero.
Qed.

(** Counting by sender, then adding up, is counting at once. *)
Lemma unread_by_sender uid (ks : list string) (tbl : Db.Table) :
  NoDup ks ->
  (forall x, In x tbl -> unread_from (sender_id x) uid x = true -> In (sender_id x) ks) ->
  list_sum (map (fun k => stored_unread k uid tbl) ks)
  = List.length (List.filter (fun x => unread_from (sender_id x) uid x) tbl).
Proof.
  intros Hnd. induction tbl as [|x r IH]; intros Hin.
  - unfold stored_unread. simpl. apply list_sum_zero.
  - erewrite map_ext; [|intros k; apply (stored_unread_cons uid k x r)].
    rewrite list_sum_map_add, IH by (intros y Hy; apply Hin; now right).
    rewrite count_senders; [|exact Hnd|apply Hin; now left].
    simpl. now destruct (unread_from (sender_id x) uid x).
Qed.

Lemma list_sum_positive (l : list nat) :
  0 < list_sum l <-> exists n, In n l /\ 0 < n.
Proof.
  induction l as [|x r IH]; simpl.
  - split; [lia | intros (n & [] & _)].
  - split.
    + intros H. destruct x as [|x'].
      * destruct (proj1 IH H) as (n & Hn & Hp). exists n. tauto.
      * exists (S x'). split; [now left | lia].
    + intros (n & [<-|Hn] & Hp); [lia|].
      assert (0 < list_sum r) by (apply IH; now exists n). lia.
Qed.

(** X19.  The number behind the dot of the Messages tab is the sum of the
    unread counts of the conversations the inbox lists for the same user
    and table; the dot is shown exactly when some listed conversation has
    an unread message. *)
Theorem X19_badge_counts_the_inbox (uid : string)
    (startupData investorData : option (list (string * string)))
    (tbl : Db.Table) (sc : Inbox.Screen) :
  Tabs.fetchUnread (Some uid) tbl
  = list_sum (map Conversation.unreadCount
                (Inbox.conversations
                   (Inbox.fetchConversations (Some uid) startupData investorData
                      tbl sc)))
  /\ (Tabs.badge (Tabs.fetchUnread (Some uid) tbl) = true
      <-> exists c,
            In c (Inbox.conversations
                    (Inbox.fetchConversations (Some uid) startupData investorData
                       tbl sc))
            /\ 0 < Conversation.unreadCount c).
Proof.
  assert (Hsum : Tabs.fetchUnread (Some uid) tbl
                 = list_sum (map Conversation.unreadCount
                               (Inbox.conversations
                                  (Inbox.fetchConversations (Some uid) startupData
                                     investorData tbl sc)))).
  { simpl.
    set (names := Inbox.profileNames startupData investorData).
    set (l := Db.select uid (Inbox.mine uid) Db.descending tbl).
    assert (Hc : map Conversation.unreadCount (Inbox.group uid names l)
                 = map (fun k => stored_unread k uid tbl)
                       (map Conversation.otherUserId (Inbox.group uid names l))).
    { rewrite map_map. apply map_ext_in. intros c Hc.
      destruct (entry_of_group _ _ _ c Hc) as (m & _ & Hcm).
      unfold l in Hcm. rewrite stored_unread_select in Hcm.
      rewrite Hcm at 1. reflexivity. }
    rewrite Hc, group_keys.
    rewrite unread_by_sender.
    - f_equal. apply filter_ext. intros x. unfold unread_from, Db.participants_can_read.
      rewrite String.eqb_refl. simpl.
      destruct (recipient_id x =? uid)%string eqn:E; simpl.
      + rewrite (String.eqb_sym uid (recipient_id x)), E, orb_true_r. simpl.
        now destruct (read x).
      + now rewrite andb_false_r.
    - apply keys_fold_NoDup. constructor.
    - intros x Hx U. apply key_of_fold. exists x. split.
      + apply select_mine_In. split; [exact Hx|]. eapply unread_from_mine; eassumption.
      + now apply (unread_from_other uid). }
  split; [exact Hsum|].
  rewrite Hsum. unfold Tabs.badge. rewrite Nat.ltb_lt, list_sum_positive. split.
  - intros (n & Hn & Hp). apply in_map_iff in Hn. destruct Hn as (c & <- & Hc).
    now exists c.
  - intros (c & Hc & Hp). exists (Conversation.unreadCount c). split; [|exact Hp].
    now apply in_map.
Qed.

Example badge_of_alice :
  Tabs.fetchUnread (Some Sample.alice) [Sample.hello; Sample.reply; Sample.aside] = 2
  /\ Tabs.fetchUnread None [Sample.hello; Sample.reply; Sample.aside] = 0.
Proof. split; reflexivity. Qed.

(** ** Relative times *)

(** X20.  What [formatTime] shows, by the age of the timestamp: "Just now"
    below one minute, also for a timestamp in the future; 1 to 59 whole
    minutes; 1 to 23 whole hours; "Yesterday" from 24 hours to below 48;
    2 to 6 whole days; the date itself from 7 days on.  The number shown is
    the age rounded down to the unit. *)
Theorem X20_relative_times (now timestamp : Z) :
  match InboxTime.formatTime now timestamp with
  | InboxTime.JustNow => (now - timestamp < 60000)%Z
  | InboxTime.MinutesAgo n =>
      (1 <= n <= 59 /\ n * 60000 <= now - timestamp < (n + 1) * 60000)%Z
  | InboxTime.HoursAgo n =>
      (1 <= n <= 23 /\ n * 3600000 <= now - timestamp < (n + 1) * 3600000)%Z
  | InboxTime.Yesterday =>
      (86400000 <= now - timestamp < 172800000)%Z
  | InboxTime.DaysAgo n =>
      (2 <= n <= 6 /\ n * 86400000 <= now - timestamp < (n + 1) * 86400000)%Z
  | InboxTime.LocaleDate t =>
      t = timestamp /\ (604800000 <= now - timestamp)%Z
  end.
Proof.
  unfold InboxTime.formatTime.
  set (d := (now - timestamp)%Z).
  pose proof (Z.div_mod d 60000 ltac:(lia)) as Hm.
  pose proof (Z.mod_pos_bound d 60000 ltac:(lia)) as Hm'.
  set (m := (d / 60000)%Z) in *.
  pose proof (Z.div_mod m 60 ltac:(lia)) as Hh.
  pose proof (Z.mod_pos_bound m 60 ltac:(lia)) as Hh'.
  set (h := (m / 60)%Z) in *.
  pose proof (Z.div_mod h 24 ltac:(lia)) as Hd.
  pose proof (Z.mod_pos_bound h 24 ltac:(lia)) as Hd'.
  set (dd := (h / 24)%Z) in *.
  destruct (m <? 1)%Z eqn:E1; [apply Z.ltb_lt in E1; lia|].
  apply Z.ltb_ge in E1.
  destruct (m <? 60)%Z eqn:E2; [apply Z.ltb_lt in E2; lia|].
  apply Z.ltb_ge in E2.
  destruct (h <? 24)%Z eqn:E3; [apply Z.ltb_lt in E3; lia|].
  apply Z.ltb_ge in E3.
  destruct (dd =? 1)%Z eqn:E4; [apply Z.eqb_eq in E4; lia|].
  apply Z.eqb_neq in E4.
  destruct (dd <? 7)%Z eqn:E5; [apply Z.ltb_lt in E5; lia|].
  apply Z.ltb_ge in E5. split; [reflexivity | lia].
Qed.

Example relative_times :
  InboxTime.formatTime 1000000 1000500 = InboxTime.JustNow
  /\ InboxTime.formatTime 10000000 (10000000 - 3599999) = InboxTime.MinutesAgo 59
  /\ InboxTime.formatTime 500000000 (500000000 - 86400000) = InboxTime.Yesterday
  /\ InboxTime.formatTime 500000000 (500000000 - 172800000) = InboxTime.DaysAgo 2.
Proof. repeat split. Qed.

(** ** Favorites *)

Lemma filter_twice {A : Type} (p : A -> bool) (l : list A) :
  List.filter p (List.filter p l) = List.filter p l.
Proof.
  induction l as [|x t IH]; simpl; [reflexivity|].
  destruct (p x) eqn:E; simpl; [rewrite E; now f_equal | exact IH].
Qed.

Lemma is_favorite_app uid sid tbl r :
  is_favorite uid sid (tbl ++ [r])
  = is_favorite uid sid tbl || Favorites.pair_filter uid sid r.
Proof.
  unfold is_favorite. rewrite existsb_app. simpl. now rewrite orb_false_r.
Qed.

Lemma pair_filter_iff uid sid r :
  Favorites.pair_filter uid sid r = true
  <-> Favorites.user_id r = uid /\ Favorites.startup_id r = sid.
Proof.
  unfold Favorites.pair_filter. now rewrite andb_true_iff, !String.eqb_eq.
Qed.

Lemma delete_own_pair uid sid tbl :
  Favorites.delete uid (Favorites.pair_filter uid sid) tbl
  = List.filter (fun r => negb (Favorites.pair_filter uid sid r)) tbl.
Proof.
  unfold Favorites.delete. apply filter_ext. intros r.
  unfold Favorites.users_manage.
  destruct (Favorites.pair_filter uid sid r) eqn:E; [|reflexivity].
  apply pair_filter_iff in E. destruct E as (-> & _). now rewrite String.eqb_refl.
Qed.

Lemma not_favorite_after_delete uid sid tbl :
  is_favorite uid sid
    (List.filter (fun r => negb (Favorites.pair_filter uid sid r)) tbl) = false.
Proof.
  unfold is_favorite. induction tbl as [|r t IH]; simpl; [reflexivity|].
  destruct (Favorites.pair_filter uid sid r) eqn:E; simpl; [exact IH|].
  now rewrite E.
Qed.

Lemma insert_own_pair startups uid sid fresh tbl :
  existsb (fun s => (s =? sid)%string) startups = true ->
  (forall r, In r tbl -> Favorites.id r <> fresh) ->
  Favorites.insert startups uid
    {| Favorites.id := fresh; Favorites.user_id := uid; Favorites.startup_id := sid |}
    tbl
  = if is_favorite uid sid tbl
    then Favorites.Refused Favorites.unique_violation
    else Favorites.Inserted
           (tbl ++ [{| Favorites.id := fresh; Favorites.user_id := uid;
                       Favorites.startup_id := sid |}]).
Proof.
  intros Hfk Hfresh. unfold Favorites.insert, Favorites.users_manage. simpl.
  rewrite String.eqb_refl. simpl.
  assert (Hid : existsb (fun r => (Favorites.id r =? fresh)%string) tbl = false).
  { destruct (existsb _ tbl) eqn:E; [|reflexivity].
    apply existsb_exists in E. destruct E as (r & Hr & E).
    apply String.eqb_eq in E. now elim (Hfresh r Hr). }
  rewrite Hid. clear Hid. unfold is_favorite, Favorites.pair_filter.
  destruct (existsb _ tbl); [reflexivity|]. now rewrite Hfk.
Qed.

(** X21.  After [toggleFavorite] the heart agrees with the table, whatever
    it showed before: the flag is flipped, and it is true exactly when the
    table holds the pair of the user and the startup.  This needs the
    startup to exist and the id of the new row to be new; rows of other
    users and of other startups are left as they are. *)
Theorem X21_toggle_settles_the_flag (startups : list string) (fresh uid : string)
    (sc : Favorites.Screen) (tbl : Favorites.Table) :
  Favorites.user sc = Some uid ->
  existsb (fun s => (s =? Favorites.route_id sc)%string) startups = true ->
  (forall r, In r tbl -> Favorites.id r <> fresh) ->
  Favorites.isFavorite (fst (Favorites.toggleFavorite startups fresh sc tbl))
  = negb (Favorites.isFavorite sc)
  /\ Favorites.isFavorite (fst (Favorites.toggleFavorite startups fresh sc tbl))
     = is_favorite uid (Favorites.route_id sc)
         (snd (Favorites.toggleFavorite startups fresh sc tbl))
  /\ List.filter (fun r => negb (Favorites.pair_filter uid (Favorites.route_id sc) r))
       (snd (Favorites.toggleFavorite startups fresh sc tbl))
     = List.filter (fun r => negb (Favorites.pair_filter uid (Favorites.route_id sc) r))
         tbl.
Proof.
  intros Hu Hfk Hfresh. unfold Favorites.toggleFavorite. rewrite Hu.
  destruct (Favorites.isFavorite sc) eqn:Hf; simpl.
  - rewrite delete_own_pair. split; [reflexivity|]. split.
    + now rewrite not_favorite_after_delete.
    + apply filter_twice.
  - rewrite (insert_own_pair startups uid (Favorites.route_id sc) fresh tbl Hfk Hfresh).
    destruct (is_favorite uid (Favorites.route_id sc) tbl) eqn:E.
    + split; [reflexivity|]. split; [now rewrite E | reflexivity].
    + split; [reflexivity|]. split.
      * rewrite is_favorite_app, E. simpl. unfold Favorites.pair_filter. simpl.
        now rewrite !String.eqb_refl.
      * rewrite filter_app. simpl. unfold Favorites.pair_filter at 2. simpl.
        rewrite !String.eqb_refl. simpl. apply app_nil_r.
Qed.

Lemma X21_witness :
  Favorites.isFavorite
    (fst (Favorites.toggleFavorite ["s1"] "f2"
            {| Favorites.user := Some "alice"; Favorites.route_id := "s1";
               Favorites.isFavorite := false |}
            [{| Favorites.id := "f1"; Favorites.user_id := "alice";
                Favorites.startup_id := "s1" |}]))
  = is_favorite "alice" "s1"
      (snd (Favorites.toggleFavorite ["s1"] "f2"
              {| Favorites.user := Some "alice"; Favorites.route_id := "s1";
                 Favorites.isFavorite := false |}
              [{| Favorites.id := "f1"; Favorites.user_id := "alice";
                  Favorites.startup_id := "s1" |}])).
Proof.
  destruct (X21_toggle_settles_the_flag ["s1"] "f2" "alice"
              {| Favorites.user := Some "alice"; Favorites.route_id := "s1";
                 Favorites.isFavorite := false |}
              [{| Favorites.id := "f1"; Favorites.user_id := "alice";
                  Favorites.startup_id := "s1" |}] eq_refl eq_refl)
    as (_ & H & _).
  - intros r [<-|[]]. discriminate.
  - exact H.
Defined.

Lemma unique_pair_rows uid sid (tbl : Favorites.Table) :
  NoDup (map (fun r => (Favorites.user_id r, Favorites.startup_id r)) tbl) ->
  List.filter (Favorites.pair_filter uid sid) tbl = []
  \/ exists r, List.filter (Favorites.pair_filter uid sid) tbl = [r].
Proof.
  induction tbl as [|x t IH]; simpl; intros H; [now left|].
  inversion H as [|? ? Hx Ht]; subst.
  destruct (Favorites.pair_filter uid sid x) eqn:E.
  - right. exists x. f_equal.
    apply pair_filter_iff in E. destruct E as (Eu & Es).
    destruct (List.filter (Favorites.pair_filter uid sid) t) as [|y l] eqn:F;
      [reflexivity|].
    exfalso. apply Hx.
    assert (Hy : In y (List.filter (Favorites.pair_filter uid sid) t))
      by (rewrite F; now left).
    apply filter_In in Hy. destruct Hy as (Hy & Ey).
    apply pair_filter_iff in Ey. destruct Ey as (Eyu & Eys).
    apply in_map_iff. exists y. split; [congruence | exact Hy].
  - now apply IH.
Qed.

(** X22.  With the unique pair of the table, [checkFavorite] sets the
    heart to the truth: the flag is true exactly when the table holds the
    pair of the signed-in user and the startup.  [toggleFavorite] keeps the
    primary key and the unique pair. *)
Theorem X22_check_reads_the_table (startups : list string) (fresh uid : string)
    (sc : Favorites.Screen) (tbl : Favorites.Table) :
  Favorites.user sc = Some uid -> favorites_unique tbl ->
  Favorites.isFavorite (Favorites.checkFavorite sc tbl)
  = is_favorite uid (Favorites.route_id sc) tbl
  /\ favorites_unique (snd (Favorites.toggleFavorite startups fresh sc tbl)).
Proof.
  intros Hu (Hid & Hpair). split.
  - unfold Favorites.checkFavorite. rewrite Hu. simpl.
    assert (Hsel : Favorites.select_own uid
                     (Favorites.pair_filter uid (Favorites.route_id sc)) tbl
                   = List.filter (Favorites.pair_filter uid (Favorites.route_id sc)) tbl).
    { unfold Favorites.select_own. apply filter_ext. intros r.
      unfold Favorites.users_manage.
      destruct (Favorites.pair_filter uid (Favorites.route_id sc) r) eqn:E;
        [|apply andb_false_r].
      apply pair_filter_iff in E. destruct E as (-> & _).
      now rewrite String.eqb_refl. }
    rewrite Hsel. unfold is_favorite.
    destruct (unique_pair_rows uid (Favorites.route_id sc) tbl Hpair) as [E|(r & E)];
      rewrite E; simpl.
    + symmetry. destruct (existsb _ tbl) eqn:X; [|reflexivity].
      apply existsb_exists in X. destruct X as (x & Hx & Px).
      assert (Hin : In x (List.filter (Favorites.pair_filter uid (Favorites.route_id sc))
                            tbl)) by (apply filter_In; now split).
      rewrite E in Hin. destruct Hin.
    + symmetry. apply existsb_exists.
      assert (Hin : In r (List.filter (Favorites.pair_filter uid (Favorites.route_id sc))
                            tbl)) by (rewrite E; now left).
      apply filter_In in Hin. now exists r.
  - unfold Favorites.toggleFavorite. rewrite Hu.
    destruct (Favorites.isFavorite sc); simpl.
    + unfold Favorites.delete, favorites_unique. split.
      * clear Hpair. induction tbl as [|x t IH]; simpl; [constructor|].
        inversion Hid as [|? ? Hx Ht]; subst.
        destruct (negb _); simpl; [|now apply IH].
        constructor; [|now apply IH].
        intros Hin. apply Hx. apply in_map_iff in Hin.
        destruct Hin as (y & Ey & Hy). apply filter_In in Hy.
        apply in_map_iff. exists y. tauto.
      * clear Hid. induction tbl as [|x t IH]; simpl; [constructor|].
        inversion Hpair as [|? ? Hx Ht]; subst.
        destruct (negb _); simpl; [|now apply IH].
        constructor; [|now apply IH].
        intros Hin. apply Hx. apply in_map_iff in Hin.
        destruct Hin as (y & Ey & Hy). apply filter_In in Hy.
        apply in_map_iff. exists y. tauto.
    + unfold Favorites.insert. simpl.
      destruct (negb _); [now split|].
      destruct (existsb (fun r => (Favorites.id r =? fresh)%string) tbl) eqn:E1;
        [now split|].
      destruct (existsb (fun r => (Favorites.user_id r =? uid)%string
                                  && (Favorites.startup_id r
                                      =? Favorites.route_id sc)%string) tbl) eqn:E2;
        [now split|].
      destruct (negb (existsb _ startups)); [now split|].
      split; rewrite map_app; simpl.
      * apply NoDup_app; [exact Hid | repeat constructor; simpl; tauto|].
        intros k Hk [<-|[]]. apply in_map_iff in Hk. destruct Hk as (r & Er & Hr).
        assert (X : existsb (fun r => (Favorites.id r =? fresh)%string) tbl = true).
        { apply existsb_exists. exists r. split; [exact Hr | now apply String.eqb_eq]. }
        congruence.
      * apply NoDup_app; [exact Hpair | repeat constructor; simpl; tauto|].
        intros k Hk [<-|[]]. apply in_map_iff in Hk. destruct Hk as (r & Er & Hr).
        injection Er as Eu Es.
        assert (X : existsb (fun r => (Favorites.user_id r =? uid)%string
                                      && (Favorites.startup_id r
                                          =? Favorites.route_id sc)%string) tbl = true).
        { apply existsb_exists. exists r. split; [exact Hr|].
          now rewrite Eu, Es, !String.eqb_refl. }
        congruence.
Qed.

Lemma X22_witness :
  Favorites.isFavorite
    (Favorites.checkFavorite
       {| Favorites.user := Some "alice"; Favorites.route_id := "s1";
          Favorites.isFavorite := false |}
       [{| Favorites.id := "f1"; Favorites.user_id := "alice";
           Favorites.startup_id := "s1" |}])
  = true.
Proof.
  destruct (X22_check_reads_the_table ["s1"] "f2" "alice"
              {| Favorites.user := Some "alice"; Favorites.route_id := "s1";
                 Favorites.isFavorite := false |}
              [{| Favorites.id := "f1"; Favorites.user_id := "alice";
                  Favorites.startup_id := "s1" |}] eq_refl)
    as (H & _).
  - split; repeat constructor; simpl; tauto.
  - exact H.
Defined.

(** ** Editing without a change *)

Lemma with_content_same (m : Message) : with_content (content m) m = m.
Proof. now destruct m. Qed.

(** X23.  Opening one's own message for editing and sending it as it
    stands changes nothing in the table: the composer is prefilled with the
    content, the update writes the same content back, no alert is raised,
    and the composer is empty again.  The content is not empty, has no
    white space at its ends and at most 1000 characters, as the content of
    every message sent from the composer. *)
Theorem X23_unchanged_edit_round_trip (env : Chat.Env) (s : Chat.Session)
    (w : Chat.World) (uid rid : string) (m : Message) :
  Chat.ids s = Some (uid, rid) -> Chat.sending s = false ->
  NoDup (map id (Chat.table w)) -> In m (Chat.table w) ->
  Chat.handleMessageLongPress m s = true ->
  content m <> "" -> String.length (content m) <= 1000 ->
  starts_with_space (content m) = false -> ends_with_space (content m) = false ->
  Chat.table (snd (Chat.sendMessage env (Chat.startEditingMessage m s) w))
  = Chat.table w
  /\ alerts (Chat.trace (snd (Chat.sendMessage env (Chat.startEditingMessage m s) w)))
     = alerts (Chat.trace w)
  /\ Chat.editingMessage (fst (Chat.sendMessage env (Chat.startEditingMessage m s) w))
     = None
  /\ Chat.newMessage (fst (Chat.sendMessage env (Chat.startEditingMessage m s) w))
     = ""
  /\ Chat.sending (fst (Chat.sendMessage env (Chat.startEditingMessage m s) w))
     = false.
Proof.
  intros Hids Hsend Hnd Hin Hown Hne Hlen Hs He.
  assert (Hu : uid = sender_id m).
  { unfold Chat.handleMessageLongPress in Hown. unfold Chat.ids in Hids.
    destruct (Chat.user s) as [u|]; [|discriminate].
    destruct (Chat.route_id s) as [r|]; [|discriminate].
    destruct (truthy r); [|discriminate]. injection Hids as <- _.
    symmetry. now apply String.eqb_eq. }
  assert (Htrim : trim (content m) = content m) by now apply trim_fixed.
  rewrite (sendMessage_editing env (Chat.startEditingMessage m s) w uid rid m);
    [|exact Hids|exact Hsend|reflexivity|].
  2:{ cbn [Chat.startEditingMessage Chat.newMessage Chat.setPendingAttachment
           Chat.setNewMessage Chat.setEditingMessage].
      rewrite Htrim. now apply truthy_true. }
  cbn [Chat.startEditingMessage Chat.newMessage Chat.setPendingAttachment
       Chat.setNewMessage Chat.setEditingMessage].
  rewrite Htrim. unfold Chat.sendMessage_edit.
  rewrite (edit_by_sender uid (content m) m (Chat.table w) Hnd Hin Hu Hne Hlen).
  simpl. repeat split; try reflexivity.
  apply map_fixed. intros x Hx.
  destruct (id x =? id m) eqn:E; [|reflexivity].
  apply String.eqb_eq in E.
  rewrite (same_id_same_row (Chat.table w) x m Hnd Hx Hin E).
  apply with_content_same.
  rewrite alerts_app. simpl. apply app_nil_r.
Qed.

Lemma X23_witness :
  Chat.table (snd (Chat.sendMessage (Sample.env None true)
                     (Chat.startEditingMessage Sample.hello
                        (Sample.session Sample.alice Sample.bob
                           [Sample.hello; Sample.reply]))
                     (Sample.world [Sample.hello; Sample.reply])))
  = [Sample.hello; Sample.reply].
Proof.
  refine (proj1 (X23_unchanged_edit_round_trip (Sample.env None true)
                   (Sample.session Sample.alice Sample.bob [Sample.hello; Sample.reply])
                   (Sample.world [Sample.hello; Sample.reply])
                   Sample.alice Sample.bob Sample.hello
                   eq_refl eq_refl _ _ eq_refl _ _ eq_refl eq_refl)).
  - repeat constructor; simpl; intuition discriminate.
  - now left.
  - discriminate.
  - simpl. lia.
Defined.

(** ** Reading a conversation and the badge *)

Lemma stored_unread_app k uid l1 l2 :
  stored_unread k uid (l1 ++ l2) = stored_unread k uid l1 + stored_unread k uid l2.
Proof.
  unfold stored_unread. now rewrite filter_app, length_app.
Qed.

Lemma unread_to_marked rid uid (x : Message) :
  (Db.participants_can_read uid (if unread_from rid uid x then with_read true x else x)
   && ((recipient_id (if unread_from rid uid x then with_read true x else x) =? uid)
       && Bool.eqb (read (if unread_from rid uid x then with_read true x else x)) false))
  = (Db.participants_can_read uid x
     && ((recipient_id x =? uid) && Bool.eqb (read x) false))
    && negb (unread_from rid uid x).
Proof.
  destruct (unread_from rid uid x) eqn:E.
  - simpl. unfold Db.participants_can_read. simpl.
    now rewrite !andb_false_r.
  - now rewrite andb_true_r.
Qed.

Lemma unread_from_is_unread_to rid uid (x : Message) :
  unread_from rid uid x = true ->
  Db.participants_can_read uid x
  && ((recipient_id x =? uid) && Bool.eqb (read x) false) = true.
Proof.
  unfold unread_from, Db.participants_can_read.
  rewrite !andb_true_iff, negb_true_iff. intros ((_ & Hr) & Hread).
  rewrite Hr, Hread. apply String.eqb_eq in Hr. subst uid.
  now rewrite String.eqb_refl, orb_true_r.
Qed.

Lemma unread_from_marked rid uid k (x : Message) :
  k <> rid ->
  unread_from k uid (if unread_from rid uid x then with_read true x else x)
  = unread_from k uid x.
Proof.
  intros Hk. destruct (unread_from rid uid x) eqn:E; [|reflexivity].
  unfold unread_from in *. simpl.
  apply andb_true_iff in E. destruct E as (E & _).
  apply andb_true_iff in E. destruct E as (E & _).
  apply String.eqb_eq in E. rewrite E.
  assert (X : (rid =? k) = false) by (apply String.eqb_neq; congruence).
  now rewrite X.
Qed.

(** X24.  Opening a conversation lowers the badge by the unread messages
    of that counterpart and by nothing else: what [fetchUnread] counts
    after [markAsRead], plus the messages of the counterpart that were
    unread, is what it counted before, and the unread messages of every
    other sender are as many as before. *)
Theorem X24_reading_lowers_the_badge (s : Chat.Session) (w : Chat.World)
    (uid rid : string) :
  Chat.ids s = Some (uid, rid) ->
  forallb Db.checks (Chat.table w) = true ->
  Tabs.fetchUnread (Some uid) (Chat.table (Chat.markAsRead s w))
  + stored_unread rid uid (Chat.table w)
  = Tabs.fetchUnread (Some uid) (Chat.table w)
  /\ forall k, k <> rid ->
       stored_unread k uid (Chat.table (Chat.markAsRead s w))
       = stored_unread k uid (Chat.table w).
Proof.
  intros Hids Hchk. rewrite (markAsRead_table s w uid rid Hids Hchk).
  clear Hchk Hids. unfold Tabs.fetchUnread, stored_unread. split.
  - induction (Chat.table w) as [|x t IH]; [reflexivity|].
    cbn [map List.filter]. rewrite unread_to_marked.
    destruct (unread_from rid uid x) eqn:E.
    + rewrite (unread_from_is_unread_to rid uid x E). simpl.
      simpl in IH. lia.
    + rewrite andb_true_r.
      destruct (Db.participants_can_read uid x && _); simpl; simpl in IH; lia.
  - intros k Hk. induction (Chat.table w) as [|x t IH]; [reflexivity|].
    cbn [map List.filter]. rewrite (unread_from_marked rid uid k x Hk).
    destruct (unread_from k uid x); simpl; now rewrite IH.
Qed.

Lemma X24_witness :
  Tabs.fetchUnread (Some Sample.bob)
    (Chat.table (Chat.markAsRead Sample.bob_reading
                   (Sample.world [Sample.hello; Sample.reply; Sample.aside])))
  + stored_unread Sample.alice Sample.bob [Sample.hello; Sample.reply; Sample.aside]
  = Tabs.fetchUnread (Some Sample.bob) [Sample.hello; Sample.reply; Sample.aside].
Proof.
  exact (proj1 (X24_reading_lowers_the_badge Sample.bob_reading
                  (Sample.world [Sample.hello; Sample.reply; Sample.aside])
                  Sample.bob Sample.alice eq_refl eq_refl)).
Defined.

(** ** From the composer to the two inboxes *)

Lemma order_by_newest m l :
  (forall x, In x l -> (created_at x < created_at m)%Z) ->
  Db.order_by Db.descending (l ++ [m]) = m :: Db.order_by Db.descending l.
Proof.
  induction l as [|x r IH]; intros H; [reflexivity|].
  change (Db.order_by Db.descending ((x :: r) ++ [m]))
    with (Db.place Db.descending x (Db.order_by Db.descending (r ++ [m]))).
  rewrite IH by (intros y Hy; apply H; now right).
  cbn [Db.place Db.precedes].
  assert (E : (created_at m <=? created_at x)%Z = false).
  { apply Z.leb_gt. apply H. now left. }
  now rewrite E.
Qed.

Lemma select_newest viewer m tbl :
  Inbox.mine viewer m = true ->
  (forall x, In x tbl -> (created_at x < created_at m)%Z) ->
  Db.select viewer (Inbox.mine viewer) Db.descending (tbl ++ [m])
  = m :: Db.select viewer (Inbox.mine viewer) Db.descending tbl.
Proof.
  intros Hm Hnew. unfold Db.select. rewrite filter_app. cbn [List.filter].
  assert (Hr : Db.participants_can_read viewer m = true).
  { unfold Inbox.mine in Hm. unfold Db.participants_can_read.
    now rewrite (String.eqb_sym viewer (sender_id m)),
                (String.eqb_sym viewer (recipient_id m)). }
  rewrite Hr, Hm. cbn [andb]. apply order_by_newest.
  intros x Hx. apply filter_In in Hx. apply Hnew, Hx.
Qed.

Lemma keys_fold_prefix uid names l cm :
  exists t, keys (fold_left (Inbox.visit uid names) l cm) = keys cm ++ t.
Proof.
  revert cm. induction l as [|x r IH]; intros cm; simpl.
  - exists []. now rewrite app_nil_r.
  - destruct (IH (Inbox.visit uid names cm x)) as (t & Ht). rewrite Ht.
    rewrite keys_visit. destruct (Inbox.has _ cm).
    + now exists t.
    + exists (Inbox.other uid x :: t). now rewrite <- app_assoc.
Qed.

(** The first conversation of the list is that of the first message. *)
Lemma group_head uid names x l :
  exists rest,
    Inbox.group uid names (x :: l)
    = add_unread (stored_unread (Inbox.other uid x) uid (x :: l))
        (Inbox.opened names (Inbox.other uid x) x) :: rest.
Proof.
  unfold Inbox.group.
  pose proof (get_fold uid names (Inbox.other uid x) (x :: l) []) as Hg.
  rewrite summary_fresh in Hg. cbn [find] in Hg.
  rewrite String.eqb_refl in Hg.
  destruct (keys_fold_prefix uid names l (Inbox.visit uid names [] x)) as (t & Ht).
  rewrite keys_visit in Ht. cbn in Ht.
  change (fold_left (Inbox.visit uid names) l (Inbox.visit uid names [] x))
    with (fold_left (Inbox.visit uid names) (x :: l) []) in Ht.
  destruct (fold_left (Inbox.visit uid names) (x :: l) []) as [|[k c] M];
    [discriminate|].
  cbn in Ht. injection Ht as Hk _. subst k.
  cbn [Inbox.get] in Hg. rewrite String.eqb_refl in Hg. injection Hg as ->.
  now exists (Inbox.values M).
Qed.

(** X25.  A message that was sent stands first in both inboxes.  When
    the rows held before are older than the new one, the list of the
    recipient starts with the conversation with the sender and the list of
    the sender with the conversation with the recipient, both with the
    preview and the time of the new row; the unread count of the recipient
    is one more than the sender's unread messages held before, and that of
    the sender is what it was. *)
Theorem X25_a_sent_message_tops_both_inboxes (env : Chat.Env) (s : Chat.Session)
    (w : Chat.World) (startupData investorData : option (list (string * string)))
    (sc : Inbox.Screen) :
  Chat.editingMessage s = None ->
  Chat.table (snd (Chat.sendMessage env s w)) <> Chat.table w ->
  (forall x, In x (Chat.table w) -> (created_at x < Chat.now env)%Z) ->
  exists uid rid row theirs rest_theirs ours rest_ours,
    Chat.ids s = Some (uid, rid)
    /\ Chat.table (snd (Chat.sendMessage env s w)) = Chat.table w ++ [row]
    /\ Inbox.conversations
         (Inbox.fetchConversations (Some rid) startupData investorData
            (Chat.table (snd (Chat.sendMessage env s w))) sc)
       = theirs :: rest_theirs
    /\ Conversation.otherUserId theirs = uid
    /\ Conversation.lastMessage theirs = Inbox.getMessagePreview row
    /\ Conversation.lastMessageTime theirs = Chat.now env
    /\ Conversation.unreadCount theirs = stored_unread uid rid (Chat.table w) + 1
    /\ Inbox.conversations
         (Inbox.fetchConversations (Some uid) startupData investorData
            (Chat.table (snd (Chat.sendMessage env s w))) sc)
       = ours :: rest_ours
    /\ Conversation.otherUserId ours = rid
    /\ Conversation.lastMessage ours = Inbox.getMessagePreview row
    /\ Conversation.lastMessageTime ours = Chat.now env
    /\ (uid <> rid ->
        Conversation.unreadCount ours = stored_unread rid uid (Chat.table w)).
Proof.
  intros Hed Hch Hold.
  destruct (sent_row env s w Hed Hch)
    as (uid & rid & payload & Hids & _ & _ & _ & _ & Htbl & _).
  set (row := Chat.new_row env uid rid (trim (Chat.newMessage s)) payload) in *.
  assert (Hnew : forall x, In x (Chat.table w) -> (created_at x < created_at row)%Z)
    by exact Hold.
  assert (Hmr : Inbox.mine rid row = true).
  { unfold Inbox.mine. cbn. now rewrite String.eqb_refl, orb_true_r. }
  assert (Hmu : Inbox.mine uid row = true).
  { unfold Inbox.mine. cbn. now rewrite String.eqb_refl. }
  assert (Hor : Inbox.other rid row = uid).
  { unfold Inbox.other. cbn. destruct (uid =? rid) eqn:E; [|reflexivity].
    now apply String.eqb_eq in E. }
  assert (Hou : Inbox.other uid row = rid).
  { unfold Inbox.other. cbn. now rewrite String.eqb_refl. }
  unfold Inbox.fetchConversations. cbn [Inbox.conversations]. rewrite Htbl.
  destruct (group_head rid (Inbox.profileNames startupData investorData) row
              (Db.select rid (Inbox.mine rid) Db.descending (Chat.table w)))
    as (rest_theirs & Htheirs).
  destruct (group_head uid (Inbox.profileNames startupData investorData) row
              (Db.select uid (Inbox.mine uid) Db.descending (Chat.table w)))
    as (rest_ours & Hours).
  rewrite <- (select_newest rid row (Chat.table w) Hmr Hnew) in Htheirs.
  rewrite <- (select_newest uid row (Chat.table w) Hmu Hnew) in Hours.
  rewrite stored_unread_select, stored_unread_app, Hor in Htheirs.
  rewrite stored_unread_select, stored_unread_app, Hou in Hours.
  eexists uid, rid, row, _, rest_theirs, _, rest_ours.
  split; [exact Hids|]. split; [reflexivity|].
  split; [exact Htheirs|].
  split; [reflexivity|]. split; [reflexivity|]. split; [reflexivity|].
  split.
  { cbn. unfold unread_from. cbn. now rewrite !String.eqb_refl. }
  split; [exact Hours|].
  split; [reflexivity|]. split; [reflexivity|]. split; [reflexivity|].
  intros Hne.
  assert (E : (uid =? rid) = false) by now apply String.eqb_neq.
  assert (Z0 : stored_unread rid uid [row] = 0).
  { unfold stored_unread, unread_from. cbn. now rewrite E. }
  rewrite Z0. cbn. lia.
Qed.

Lemma X25_witness :
  exists theirs rest,
    Inbox.conversations
      (Inbox.fetchConversations (Some Sample.bob) None None
         (Chat.table
            (snd (Chat.sendMessage (Sample.env None true)
                    (Chat.setNewMessage "see you"
                       (Sample.session Sample.alice Sample.bob [Sample.hello]))
                    (Sample.world [Sample.hello]))))
         {| Inbox.conversations := []; Inbox.loading := true |})
    = theirs :: rest
    /\ Conversation.otherUserId theirs = Sample.alice
    /\ Conversation.unreadCount theirs = 2.
Proof.
  destruct (X25_a_sent_message_tops_both_inboxes (Sample.env None true)
              (Chat.setNewMessage "see you"
                 (Sample.session Sample.alice Sample.bob [Sample.hello]))
              (Sample.world [Sample.hello]) None None
              {| Inbox.conversations := []; Inbox.loading := true |} eq_refl)
    as (uid & rid & row & theirs & rest & _ & _ & Hids & _ & Hc & Ho & _ & _ & Hn & _).
  - discriminate.
  - intros x [<-|[]]. reflexivity.
  - injection Hids as <- <-. exists theirs, rest.
    split; [exact Hc|]. split; [exact Ho | exact Hn].
Defined.

(** ** The figures on a startup card *)

Lemma pair_count uid sid (tbl : Favorites.Table) :
  NoDup (map (fun r => (Favorites.user_id r, Favorites.startup_id r)) tbl) ->
  List.length (List.filter (Favorites.pair_filter uid sid) tbl)
  = if is_favorite uid sid tbl then 1 else 0.
Proof.
  intros Hpair. unfold is_favorite.
  destruct (unique_pair_rows uid sid tbl Hpair) as [E|(r & E)]; rewrite E; simpl.
  - destruct (existsb _ tbl) eqn:X; [|reflexivity].
    apply existsb_exists in X. destruct X as (x & Hx & Px).
    assert (Hin : In x (List.filter (Favorites.pair_filter uid sid) tbl))
      by (apply filter_In; now split).
    rewrite E in Hin. destruct Hin.
  - assert (Hin : In r (List.filter (Favorites.pair_filter uid sid) tbl))
      by (rewrite E; now left).
    apply filter_In in Hin.
    assert (X : existsb (Favorites.pair_filter uid sid) tbl = true)
      by (apply existsb_exists; now exists r).
    now rewrite X.
Qed.

(** X26.  The figures of a card depend on who looks.  To a viewer who
    does not own the startup the card shows no views at all, and as likes
    only the viewer's own favorite: 1 when the startup is among the
    viewer's favorites, 0 when not.  To the owner it shows every view and
    every favorite of the startup. *)
Theorem X26_card_figures (startup_profiles : list StartupCard.Startup)
    (uid startup_id : string) (profile_views : list StartupCard.View)
    (favorites : Favorites.Table) :
  favorites_unique favorites ->
  (StartupCard.owns startup_profiles uid startup_id = false ->
   StartupCard.views
     (StartupCard.fetchStats startup_profiles uid startup_id profile_views favorites)
   = 0
   /\ StartupCard.likes
        (StartupCard.fetchStats startup_profiles uid startup_id profile_views favorites)
      = if is_favorite uid startup_id favorites then 1 else 0)
  /\ (StartupCard.owns startup_profiles uid startup_id = true ->
      StartupCard.views
        (StartupCard.fetchStats startup_profiles uid startup_id profile_views favorites)
      = List.length
          (List.filter (fun v => (StartupCard.view_startup_id v =? startup_id))
                       profile_views)
      /\ StartupCard.likes
           (StartupCard.fetchStats startup_profiles uid startup_id profile_views
              favorites)
         = List.length
             (List.filter (fun r => (Favorites.startup_id r =? startup_id)) favorites)).
Proof.
  intros (_ & Hpair). unfold StartupCard.fetchStats. cbn [StartupCard.views
    StartupCard.likes]. split; intros Hown; split.
  - rewrite (filter_ext _ (fun _ => false)); [now rewrite filter_false|].
    intros v. unfold StartupCard.startup_owners_can_view_analytics.
    destruct (StartupCard.view_startup_id v =? startup_id) eqn:E;
      [|apply andb_false_r].
    apply String.eqb_eq in E. now rewrite E, Hown.
  - rewrite <- (pair_count uid startup_id favorites Hpair). f_equal.
    apply filter_ext. intros r.
    unfold StartupCard.startup_owners_can_view_favorite_counts,
      Favorites.users_manage, Favorites.pair_filter.
    rewrite (String.eqb_sym uid (Favorites.user_id r)).
    destruct (Favorites.startup_id r =? startup_id) eqn:E;
      [|now rewrite !andb_false_r].
    apply String.eqb_eq in E. now rewrite E, Hown, orb_false_r.
  - f_equal. apply filter_ext. intros v.
    unfold StartupCard.startup_owners_can_view_analytics.
    destruct (StartupCard.view_startup_id v =? startup_id) eqn:E;
      [|apply andb_false_r].
    apply String.eqb_eq in E. now rewrite E, Hown.
  - f_equal. apply filter_ext. intros r.
    unfold StartupCard.startup_owners_can_view_favorite_counts.
    destruct (Favorites.startup_id r =? startup_id) eqn:E;
      [|apply andb_false_r].
    apply String.eqb_eq in E. now rewrite E, Hown, orb_true_r.
Qed.

Lemma X26_witness :
  StartupCard.likes
    (StartupCard.fetchStats
       [{| StartupCard.startup := "s1"; StartupCard.owner := "carol" |}]
       "alice" "s1"
       [{| StartupCard.view_id := "v1"; StartupCard.view_startup_id := "s1";
           StartupCard.viewer_id := "alice" |}]
       [{| Favorites.id := "f1"; Favorites.user_id := "alice";
           Favorites.startup_id := "s1" |};
        {| Favorites.id := "f2"; Favorites.user_id := "bob";
           Favorites.startup_id := "s1" |}])
  = 1.
Proof.
  refine (proj2 (proj1 (X26_card_figures
                          [{| StartupCard.startup := "s1";
                              StartupCard.owner := "carol" |}]
                          "alice" "s1"
                          [{| StartupCard.view_id := "v1";
                              StartupCard.view_startup_id := "s1";
                              StartupCard.viewer_id := "alice" |}]
                          [{| Favorites.id := "f1"; Favorites.user_id := "alice";
                              Favorites.startup_id := "s1" |};
                           {| Favorites.id := "f2"; Favorites.user_id := "bob";
                              Favorites.startup_id := "s1" |}] _) eq_refl)).
  split; repeat constructor; simpl; intuition discriminate.
Defined.

(** ** Sectors of interest *)

Lemma includes_In x l : EditProfile.includes x l = true <-> In x l.
Proof.
  unfold EditProfile.includes. rewrite existsb_exists. split.
  - intros (s & Hs & E). apply String.eqb_eq in E. now subst.
  - intros H. exists x. split; [exact H | apply String.eqb_refl].
Qed.

Lemma filter_out_absent x (l : list string) :
  ~ In x l -> List.filter (fun s => negb (s =? x)) l = l.
Proof.
  induction l as [|y r IH]; simpl; intros H; [reflexivity|].
  assert (E : (y =? x) = false) by (apply String.eqb_neq; intuition congruence).
  rewrite E. simpl. f_equal. apply IH. tauto.
Qed.

Lemma filter_out_In x s (l : list string) :
  In s (List.filter (fun s => negb (s =? x)) l) <-> s <> x /\ In s l.
Proof.
  rewrite filter_In, negb_true_iff, String.eqb_neq. tauto.
Qed.

Lemma filter_out_back x (l : list string) :
  NoDup l -> In x l -> Permutation (List.filter (fun s => negb (s =? x)) l ++ [x]) l.
Proof.
  induction l as [|y r IH]; simpl; intros Hnd Hin; [destruct Hin|].
  inversion Hnd as [|? ? Hy Hr]; subst.
  destruct (y =? x) eqn:E; simpl.
  - apply String.eqb_eq in E. subst y. rewrite filter_out_absent by exact Hy.
    symmetry. apply Permutation_cons_append.
  - apply String.eqb_neq in E. constructor. apply IH; [exact Hr|].
    destruct Hin; [congruence | assumption].
Qed.

Lemma filter_out_parts x (l1 l2 : list string) :
  ~ In x l1 -> ~ In x l2 ->
  List.filter (fun s => negb (s =? x)) (l1 ++ x :: l2) = l1 ++ l2.
Proof.
  intros H1 H2. rewrite filter_app. cbn [List.filter].
  rewrite String.eqb_refl. cbn [negb].
  now rewrite (filter_out_absent x l1 H1), (filter_out_absent x l2 H2).
Qed.

(** X27.  Tapping a sector flips it and leaves the others: after
    [toggleSector] the sector is selected exactly when it was not, and
    every other sector is selected exactly when it was.  A sector that was
    not selected is put at the end, and a second tap gives the same list
    back.  A sector that was selected is taken out, and a second tap puts
    it at the end: in a selection without duplicates, the tapped sector has
    moved from its place to the end and the others have kept their order.
    A selection without duplicates stays without duplicates. *)
Theorem X27_sector_toggle (sector : string) (selectedSectors : list string) :
  EditProfile.includes sector (EditProfile.toggleSector sector selectedSectors)
  = negb (EditProfile.includes sector selectedSectors)
  /\ (forall s, s <> sector ->
        EditProfile.includes s (EditProfile.toggleSector sector selectedSectors)
        = EditProfile.includes s selectedSectors)
  /\ (EditProfile.includes sector selectedSectors = false ->
      EditProfile.toggleSector sector selectedSectors = selectedSectors ++ [sector]
      /\ EditProfile.toggleSector sector
           (EditProfile.toggleSector sector selectedSectors)
         = selectedSectors)
  /\ (EditProfile.includes sector selectedSectors = true ->
      EditProfile.toggleSector sector selectedSectors
      = List.filter (fun s => negb (s =? sector)) selectedSectors
      /\ EditProfile.toggleSector sector
           (EditProfile.toggleSector sector selectedSectors)
         = List.filter (fun s => negb (s =? sector)) selectedSectors ++ [sector])
  /\ (NoDup selectedSectors ->
      NoDup (EditProfile.toggleSector sector selectedSectors)
      /\ Permutation
           (EditProfile.toggleSector sector
              (EditProfile.toggleSector sector selectedSectors))
           selectedSectors
      /\ (forall before after,
            selectedSectors = before ++ sector :: after ->
            EditProfile.toggleSector sector selectedSectors = before ++ after
            /\ EditProfile.toggleSector sector
                 (EditProfile.toggleSector sector selectedSectors)
               = before ++ after ++ [sector])).
Proof.
  assert (Hb : forall a b : bool, (a = true <-> b = true) -> a = b).
  { intros [|] [|] H; try reflexivity; [symmetry|]; apply H; reflexivity. }
  assert (Hout : EditProfile.includes sector
                   (List.filter (fun s => negb (s =? sector)) selectedSectors)
                 = false).
  { destruct (EditProfile.includes sector (List.filter _ selectedSectors)) eqn:E;
      [|reflexivity].
    apply includes_In, filter_out_In in E. now destruct E. }
  assert (Hback : ~ In sector selectedSectors ->
            List.filter (fun s => negb (s =? sector)) (selectedSectors ++ [sector])
            = selectedSectors).
  { intros Hin. rewrite filter_app. simpl. rewrite String.eqb_refl. simpl.
    rewrite app_nil_r. now apply filter_out_absent. }
  assert (Hnow : EditProfile.includes sector (selectedSectors ++ [sector]) = true).
  { apply includes_In, in_or_app. right. now left. }
  destruct (EditProfile.includes sector selectedSectors) eqn:Hinc.
  - assert (Hin : In sector selectedSectors) by now apply includes_In.
    assert (H1 : EditProfile.toggleSector sector selectedSectors
                 = List.filter (fun s => negb (s =? sector)) selectedSectors).
    { unfold EditProfile.toggleSector. now rewrite Hinc. }
    assert (H2 : EditProfile.toggleSector sector
                   (EditProfile.toggleSector sector selectedSectors)
                 = List.filter (fun s => negb (s =? sector)) selectedSectors
                   ++ [sector]).
    { rewrite H1. unfold EditProfile.toggleSector. now rewrite Hout. }
    rewrite H2, H1. split; [exact Hout|]. split.
    { intros s Hs. apply Hb. rewrite !includes_In, filter_out_In. tauto. }
    split; [discriminate|]. split; [intros _; now split|].
    intros Hnd. split; [now apply NoDup_filter|].
    split; [now apply filter_out_back|].
    intros before after Hsel. subst selectedSectors.
    apply NoDup_remove_2 in Hnd.
    assert (Hb1 : ~ In sector before) by (intros H; apply Hnd, in_or_app; now left).
    assert (Hb2 : ~ In sector after) by (intros H; apply Hnd, in_or_app; now right).
    rewrite (filter_out_parts sector before after Hb1 Hb2).
    split; [reflexivity | now rewrite <- app_assoc].
  - assert (Hin : ~ In sector selectedSectors).
    { intros H. apply includes_In in H. congruence. }
    assert (H1 : EditProfile.toggleSector sector selectedSectors
                 = selectedSectors ++ [sector]).
    { unfold EditProfile.toggleSector. now rewrite Hinc. }
    assert (H2 : EditProfile.toggleSector sector
                   (EditProfile.toggleSector sector selectedSectors)
                 = selectedSectors).
    { rewrite H1. unfold EditProfile.toggleSector. rewrite Hnow. now apply Hback. }
    rewrite H2, H1. split; [exact Hnow|]. split.
    { intros s Hs. apply Hb. rewrite !includes_In, in_app_iff. simpl.
      intuition congruence. }
    split; [intros _; now split|]. split; [discriminate|].
    intros Hnd. split.
    { apply NoDup_app; [exact Hnd | repeat constructor; simpl; tauto|].
      intros a Ha [<-|[]]. contradiction. }
    split; [reflexivity|].
    intros before after Hsel. exfalso. apply Hin. rewrite Hsel.
    apply in_or_app. right. now left.
Qed.

Lemma X27_witness :
  EditProfile.toggleSector "fintech"
    (EditProfile.toggleSector "fintech" ["health"; "fintech"; "energy"])
  = ["health"; "energy"; "fintech"]
  /\ NoDup (EditProfile.toggleSector "fintech" ["health"; "fintech"; "energy"]).
Proof.
  destruct (X27_sector_toggle "fintech" ["health"; "fintech"; "energy"])
    as (_ & _ & _ & _ & H).
  destruct H as (H1 & _ & H3).
  - repeat constructor; simpl; intuition discriminate.
  - split; [|exact H1].
    exact (proj2 (H3 ["health"] ["energy"] eq_refl)).
Defined.

(** ** Founders *)

Lemma spread_dense l : dense l -> EditProfile.spread l = l.
Proof.
  unfold dense, EditProfile.spread. intros H. apply map_fixed. intros s Hs.
  rewrite Forall_forall in H. destruct (H s Hs) as (f & ->). reflexivity.
Qed.

Lemma assign_at_in_range index v (l : EditProfile.Founders) :
  index < List.length l ->
  EditProfile.assign_at index v l = firstn index l ++ v :: skipn (S index) l.
Proof.
  revert l. induction index as [|n IH]; intros [|s r] H; simpl in H; try lia.
  - reflexivity.
  - cbn [EditProfile.assign_at firstn skipn app]. f_equal.
    rewrite IH by lia. reflexivity.
Qed.

Lemma filter_from_past i index (l : EditProfile.Founders) :
  dense l -> index < i -> EditProfile.filter_from i index l = l.
Proof.
  revert i. induction l as [|s r IH]; intros i Hd Hi; [reflexivity|].
  inversion Hd as [|? ? (f & ->) Hr]; subst. cbn [EditProfile.filter_from].
  assert (E : (i =? index)%nat = false) by (apply Nat.eqb_neq; lia).
  rewrite E. cbn [negb]. f_equal. apply IH; [exact Hr | lia].
Qed.

Lemma filter_from_split i k (l : EditProfile.Founders) :
  dense l ->
  EditProfile.filter_from i (i + k) l = firstn k l ++ skipn (S k) l.
Proof.
  revert i k. induction l as [|s r IH]; intros i k Hd.
  - now destruct k.
  - inversion Hd as [|? ? (f & ->) Hr]; subst. cbn [EditProfile.filter_from].
    destruct k as [|k].
    + rewrite Nat.add_0_r, Nat.eqb_refl. cbn [negb firstn skipn app].
      apply filter_from_past; [exact Hr | lia].
    + assert (E : (i =? i + S k)%nat = false) by (apply Nat.eqb_neq; lia).
      rewrite E. cbn [negb firstn skipn app]. f_equal.
      replace (i + S k) with (S i + k) by lia. now apply IH.
Qed.

Lemma dense_app l1 l2 : dense l1 -> dense l2 -> dense (l1 ++ l2).
Proof. unfold dense. intros. now apply Forall_app. Qed.

Lemma dense_firstn n l : dense l -> dense (firstn n l).
Proof.
  unfold dense. revert l. induction n as [|n IH]; intros l H; [constructor|].
  destruct l as [|s r]; [constructor|]. inversion H; subst.
  simpl. constructor; [assumption | now apply IH].
Qed.

Lemma dense_skipn n l : dense l -> dense (skipn n l).
Proof.
  unfold dense. revert l. induction n as [|n IH]; intros l H; [exact H|].
  destruct l as [|s r]; [constructor|]. inversion H; subst.
  simpl. now apply IH.
Qed.

(** X28.  Typing into a field of a founder changes that field of that
    founder and nothing else: for an array without holes and an index
    within it, [updateFounder] gives the array with the founder at the
    index replaced by the same founder with the field set; the length is
    kept, every other position holds what it held, and the array is still
    without holes. *)
Theorem X28_updating_a_founder (index : nat) (field : EditProfile.Field)
    (value : string) (founders : EditProfile.Founders) (f : EditProfile.Founder) :
  dense founders -> nth_error founders index = Some (EditProfile.item f) ->
  EditProfile.updateFounder index field value founders
  = firstn index founders
    ++ EditProfile.item (EditProfile.set_field field value f)
    :: skipn (S index) founders
  /\ List.length (EditProfile.updateFounder index field value founders)
     = List.length founders
  /\ dense (EditProfile.updateFounder index field value founders)
  /\ (forall j, j <> index ->
        nth_error (EditProfile.updateFounder index field value founders) j
        = nth_error founders j).
Proof.
  intros Hd Hn.
  assert (Hlt : index < List.length founders).
  { apply nth_error_Some. congruence. }
  assert (Hu : EditProfile.updateFounder index field value founders
               = firstn index founders
                 ++ EditProfile.item (EditProfile.set_field field value f)
                 :: skipn (S index) founders).
  { unfold EditProfile.updateFounder. rewrite (spread_dense founders Hd).
    rewrite (assign_at_in_range index _ founders Hlt).
    unfold EditProfile.read_at. now rewrite Hn. }
  assert (Hfl : List.length (firstn index founders) = index).
  { rewrite length_firstn. lia. }
  rewrite Hu. split; [reflexivity|]. split; [|split].
  - rewrite length_app. cbn [List.length]. rewrite Hfl, length_skipn. lia.
  - apply dense_app; [now apply dense_firstn|].
    constructor; [now eexists | now apply dense_skipn].
  - intros j Hj. destruct (Nat.lt_ge_cases j index) as [Hlo|Hhi].
    + rewrite nth_error_app1 by lia. rewrite nth_error_firstn.
      apply Nat.ltb_lt in Hlo. now rewrite Hlo.
    + rewrite nth_error_app2 by lia. rewrite Hfl.
      destruct (j - index) as [|d] eqn:Ed; [lia|]. cbn [nth_error].
      rewrite nth_error_skipn. f_equal. lia.
Qed.

Lemma X28_witness :
  EditProfile.updateFounder 1 EditProfile.field_name "Ada"
    (EditProfile.addFounder (EditProfile.addFounder []))
  = [EditProfile.item {| EditProfile.name := Some "";
                         EditProfile.previous_experience := Some "";
                         EditProfile.key_roles := Some "";
                         EditProfile.photo_url := None |};
     EditProfile.item {| EditProfile.name := Some "Ada";
                         EditProfile.previous_experience := Some "";
                         EditProfile.key_roles := Some "";
                         EditProfile.photo_url := None |}].
Proof.
  refine (proj1 (X28_updating_a_founder 1 EditProfile.field_name "Ada"
                   (EditProfile.addFounder (EditProfile.addFounder []))
                   {| EditProfile.name := Some "";
                      EditProfile.previous_experience := Some "";
                      EditProfile.key_roles := Some "";
                      EditProfile.photo_url := None |} _ eq_refl)).
  repeat constructor; now eexists.
Defined.

(** X29.  Adding and removing founders.  On an array without holes,
    [addFounder] puts one founder with empty name, experience and roles
    and no photo at the end; [removeFounder] takes out the founder at the
    index and keeps the others in order, and changes nothing when the
    index is past the end; removing the founder just added gives the array
    back.  Neither leaves a hole. *)
Theorem X29_adding_and_removing_founders (index : nat)
    (founders : EditProfile.Founders) :
  dense founders ->
  EditProfile.addFounder founders
  = founders
    ++ [EditProfile.item
          {| EditProfile.name := Some ""; EditProfile.previous_experience := Some "";
             EditProfile.key_roles := Some ""; EditProfile.photo_url := None |}]
  /\ List.length (EditProfile.addFounder founders) = S (List.length founders)
  /\ firstn (List.length founders) (EditProfile.addFounder founders) = founders
  /\ dense (EditProfile.addFounder founders)
  /\ EditProfile.removeFounder index founders
     = firstn index founders ++ skipn (S index) founders
  /\ dense (EditProfile.removeFounder index founders)
  /\ (List.length founders <= index ->
      EditProfile.removeFounder index founders = founders)
  /\ EditProfile.removeFounder (List.length founders) (EditProfile.addFounder founders)
     = founders.
Proof.
  intros Hd.
  assert (Hadd : dense (EditProfile.addFounder founders)).
  { unfold EditProfile.addFounder. rewrite (spread_dense founders Hd).
    apply dense_app; [exact Hd|]. constructor; [now eexists | constructor]. }
  assert (Hrem : forall i l, dense l ->
            EditProfile.removeFounder i l = firstn i l ++ skipn (S i) l).
  { intros i l Hl. unfold EditProfile.removeFounder.
    exact (filter_from_split 0 i l Hl). }
  split.
  { unfold EditProfile.addFounder. now rewrite (spread_dense founders Hd). }
  split.
  { unfold EditProfile.addFounder, EditProfile.spread.
    rewrite length_app, length_map. simpl. lia. }
  split.
  { unfold EditProfile.addFounder. rewrite (spread_dense founders Hd).
    rewrite firstn_app, Nat.sub_diag, firstn_all. simpl. apply app_nil_r. }
  split; [exact Hadd|].
  split; [now apply Hrem|].
  split.
  { rewrite (Hrem index founders Hd).
    apply dense_app; [now apply dense_firstn | now apply dense_skipn]. }
  split.
  { intros Hle. rewrite (Hrem index founders Hd).
    rewrite firstn_all2 by exact Hle. rewrite skipn_all2 by lia. apply app_nil_r. }
  rewrite (Hrem _ _ Hadd). unfold EditProfile.addFounder.
  rewrite (spread_dense founders Hd).
  rewrite skipn_all2 by (rewrite length_app; simpl; lia).
  rewrite firstn_app, Nat.sub_diag, firstn_all. simpl. now rewrite !app_nil_r.
Qed.

Lemma X29_witness :
  EditProfile.removeFounder 0
    (EditProfile.updateFounder 0 EditProfile.field_name "Ada"
       (EditProfile.addFounder []))
  = [].
Proof.
  refine (eq_trans
            (proj1 (proj2 (proj2 (proj2 (proj2
               (X29_adding_and_removing_founders 0
                  (EditProfile.updateFounder 0 EditProfile.field_name "Ada"
                     (EditProfile.addFounder [])) _))))))
            eq_refl).
  repeat constructor; now eexists.
Defined.

Example update_past_the_end_leaves_holes :
  EditProfile.updateFounder 2 EditProfile.field_photo_url "u" []
  = [EditProfile.hole; EditProfile.hole;
     EditProfile.item {| EditProfile.name := None;
                         EditProfile.previous_experience := None;
                         EditProfile.key_roles := None;
                         EditProfile.photo_url := Some "u" |}].
Proof. reflexivity. Qed.
